(** * The Layers Herald of ol3-google-maps

    A shallow embedding of [src/herald/layersherald.js]
    ([olgm.herald.Layers]): the two caches of watched layers with their
    parallel layer arrays, the toggle decision that elects the top-most
    visible Google layer, the activate / deactivate pair that swaps the
    OpenLayers viewport and the Google Maps div in the target element, and
    the one-shot listeners installed by the constructor.

    The JavaScript objects the herald shares with its environment (layers,
    [google.maps.Data] objects, vector source heralds, DOM nodes, the
    listener registry of [change:visible]) live in explicit stores inside
    one [State] record; every method becomes a function on [State].  A
    method that can throw ([Node.removeChild] on a node that is not a child,
    a property read on an [undefined] cache item) returns [option State]. *)

From Stdlib Require Import QArith.
From stdpp Require Import base option list gmap strings.

(** ** Layers *)

(** The three classes the herald tells apart with [instanceof]. *)
Inductive LayerKind := GoogleKind | VectorKind | BaseKind.

(** An [ol.layer.Base] object.  [l_gmStyle] is the result of
    [olgm.gm.createStyle(layer)], an external pure function of the layer. *)
Record Layer := mkLayer {
  l_kind : LayerKind;
  l_visible : bool;
  l_opacity : Q;
  l_mapTypeId : string;
  l_styles : option (list string);
  l_source : option nat;
  l_gmStyle : option string
}.

(** A layer created with no options: visible, opaque, neither Google nor
    vector.  An identifier without an entry in the object store denotes
    such a layer. *)
Definition defaultLayer : Layer :=
  mkLayer BaseKind true 1%Q ""%string None None None.

Definition Coordinate : Type := Q * Q.

(** ** Cache items *)

(** [olgm.herald.Layers.GoogleLayerCache] *)
Record GoogleLayerCache := mkGoogleLayerCache {
  g_layer : nat;
  g_listenerKeys : list nat
}.

(** [olgm.herald.Layers.VectorLayerCache] *)
Record VectorLayerCache := mkVectorLayerCache {
  v_data : nat;
  v_herald : nat;
  v_layer : nat;
  v_listenerKeys : list nat;
  v_opacity : Q
}.

(** A [google.maps.Data] object: whether it is attached to the map, and
    the style given to it. *)
Record Data := mkData {
  d_attached : bool;
  d_style : option string
}.

(** ** Listeners of [change:visible] *)

Inductive Handler :=
| HToggle
| HVectorVisible (cacheItem : VectorLayerCache).

Record Listener := mkListener {
  lk_key : nat;
  lk_target : nat;
  lk_handler : Handler
}.

(** ** DOM nodes known to the herald *)

Inductive Element := Ol3mapEl | GmapEl.

Global Instance Element_eq_dec : EqDecision Element.
Proof. solve_decision. Defined.

(** ** Calls made on the environment, in the order they happen *)

Inductive Effect :=
| ERemoveChild (el : Element)
| EAppendChild (el : Element)
| EControlsPush (el : Element)
| EControlsRemoveAt (i : nat)
| ESetPosition (v : string)
| EViewActivate
| EViewDeactivate
| EViewSetCenter
| EViewSetZoom
| EResize
| EMarkActive (b : bool)
| ESetMapTypeId (id : string)
| ESetStyles (st : option (list string))
| EVectorActivate (h : nat)
| EVectorDeactivate (h : nat)
| ESetOpacity (l : nat) (q : Q)
| EDataNew (d : nat)
| EDataSetStyle (d : nat) (st : string)
| EDataSetMap (d : nat) (attached : bool)
| EListen (k l : nat)
| EUnlisten (ks : list nat).

(** ** The state of the herald and of the objects it touches *)

Record State := mkState {
  objects : gmap nat Layer;
  layers : list nat;
  center : option Coordinate;
  listeners : list Listener;
  onceCenter : bool;
  oncePostrender : bool;
  targetChildren : list Element;
  ol3Position : string;
  controls : list Element;
  gmapTypeId : option string;
  gmapStyles : option (list string);
  dataObjs : gmap nat Data;
  vectorHeralds : gmap nat bool;
  viewHeraldActive : bool;
  googleLayers_ : list nat;
  googleCache_ : list GoogleLayerCache;
  vectorCache_ : list VectorLayerCache;
  vectorLayers_ : list nat;
  watchVector_ : bool;
  googleMapsIsActive_ : bool;
  ol3mapIsRenderered_ : bool;
  nextId : nat;
  log : list Effect
}.

Definition set_objects (v : gmap nat Layer) (s : State) : State :=
  mkState v (layers s) (center s) (listeners s) (onceCenter s)
    (oncePostrender s) (targetChildren s) (ol3Position s) (controls s)
    (gmapTypeId s) (gmapStyles s) (dataObjs s) (vectorHeralds s)
    (viewHeraldActive s) (googleLayers_ s) (googleCache_ s) (vectorCache_
    s) (vectorLayers_ s) (watchVector_ s) (googleMapsIsActive_ s)
    (ol3mapIsRenderered_ s) (nextId s) (log s).
Definition set_layers (v : list nat) (s : State) : State :=
  mkState (objects s) v (center s) (listeners s) (onceCenter s)
    (oncePostrender s) (targetChildren s) (ol3Position s) (controls s)
    (gmapTypeId s) (gmapStyles s) (dataObjs s) (vectorHeralds s)
    (viewHeraldActive s) (googleLayers_ s) (googleCache_ s) (vectorCache_
    s) (vectorLayers_ s) (watchVector_ s) (googleMapsIsActive_ s)
    (ol3mapIsRenderered_ s) (nextId s) (log s).
Definition set_center (v : option Coordinate) (s : State) : State :=
  mkState (objects s) (layers s) v (listeners s) (onceCenter s)
    (oncePostrender s) (targetChildren s) (ol3Position s) (controls s)
    (gmapTypeId s) (gmapStyles s) (dataObjs s) (vectorHeralds s)
    (viewHeraldActive s) (googleLayers_ s) (googleCache_ s) (vectorCache_
    s) (vectorLayers_ s) (watchVector_ s) (googleMapsIsActive_ s)
    (ol3mapIsRenderered_ s) (nextId s) (log s).
Definition set_listeners (v : list Listener) (s : State) : State :=
  mkState (objects s) (layers s) (center s) v (onceCenter s)
    (oncePostrender s) (targetChildren s) (ol3Position s) (controls s)
    (gmapTypeId s) (gmapStyles s) (dataObjs s) (vectorHeralds s)
    (viewHeraldActive s) (googleLayers_ s) (googleCache_ s) (vectorCache_
    s) (vectorLayers_ s) (watchVector_ s) (googleMapsIsActive_ s)
    (ol3mapIsRenderered_ s) (nextId s) (log s).
Definition set_onceCenter (v : bool) (s : State) : State :=
  mkState (objects s) (layers s) (center s) (listeners s) v (oncePostrender
    s) (targetChildren s) (ol3Position s) (controls s) (gmapTypeId s)
    (gmapStyles s) (dataObjs s) (vectorHeralds s) (viewHeraldActive s)
    (googleLayers_ s) (googleCache_ s) (vectorCache_ s) (vectorLayers_ s)
    (watchVector_ s) (googleMapsIsActive_ s) (ol3mapIsRenderered_ s)
    (nextId s) (log s).
Definition set_oncePostrender (v : bool) (s : State) : State :=
  mkState (objects s) (layers s) (center s) (listeners s) (onceCenter s) v
    (targetChildren s) (ol3Position s) (controls s) (gmapTypeId s)
    (gmapStyles s) (dataObjs s) (vectorHeralds s) (viewHeraldActive s)
    (googleLayers_ s) (googleCache_ s) (vectorCache_ s) (vectorLayers_ s)
    (watchVector_ s) (googleMapsIsActive_ s) (ol3mapIsRenderered_ s)
    (nextId s) (log s).
Definition set_targetChildren (v : list Element) (s : State) : State :=
  mkState (objects s) (layers s) (center s) (listeners s) (onceCenter s)
    (oncePostrender s) v (ol3Position s) (controls s) (gmapTypeId s)
    (gmapStyles s) (dataObjs s) (vectorHeralds s) (viewHeraldActive s)
    (googleLayers_ s) (googleCache_ s) (vectorCache_ s) (vectorLayers_ s)
    (watchVector_ s) (googleMapsIsActive_ s) (ol3mapIsRenderered_ s)
    (nextId s) (log s).
Definition set_ol3Position (v : string) (s : State) : State :=
  mkState (objects s) (layers s) (center s) (listeners s) (onceCenter s)
    (oncePostrender s) (targetChildren s) v (controls s) (gmapTypeId s)
    (gmapStyles s) (dataObjs s) (vectorHeralds s) (viewHeraldActive s)
    (googleLayers_ s) (googleCache_ s) (vectorCache_ s) (vectorLayers_ s)
    (watchVector_ s) (googleMapsIsActive_ s) (ol3mapIsRenderered_ s)
    (nextId s) (log s).
Definition set_controls (v : list Element) (s : State) : State :=
  mkState (objects s) (layers s) (center s) (listeners s) (onceCenter s)
    (oncePostrender s) (targetChildren s) (ol3Position s) v (gmapTypeId s)
    (gmapStyles s) (dataObjs s) (vectorHeralds s) (viewHeraldActive s)
    (googleLayers_ s) (googleCache_ s) (vectorCache_ s) (vectorLayers_ s)
    (watchVector_ s) (googleMapsIsActive_ s) (ol3mapIsRenderered_ s)
    (nextId s) (log s).
Definition set_gmapTypeId (v : option string) (s : State) : State :=
  mkState (objects s) (layers s) (center s) (listeners s) (onceCenter s)
    (oncePostrender s) (targetChildren s) (ol3Position s) (controls s) v
    (gmapStyles s) (dataObjs s) (vectorHeralds s) (viewHeraldActive s)
    (googleLayers_ s) (googleCache_ s) (vectorCache_ s) (vectorLayers_ s)
    (watchVector_ s) (googleMapsIsActive_ s) (ol3mapIsRenderered_ s)
    (nextId s) (log s).
Definition set_gmapStyles (v : option (list string)) (s : State) : State :=
  mkState (objects s) (layers s) (center s) (listeners s) (onceCenter s)
    (oncePostrender s) (targetChildren s) (ol3Position s) (controls s)
    (gmapTypeId s) v (dataObjs s) (vectorHeralds s) (viewHeraldActive s)
    (googleLayers_ s) (googleCache_ s) (vectorCache_ s) (vectorLayers_ s)
    (watchVector_ s) (googleMapsIsActive_ s) (ol3mapIsRenderered_ s)
    (nextId s) (log s).
Definition set_dataObjs (v : gmap nat Data) (s : State) : State :=
  mkState (objects s) (layers s) (center s) (listeners s) (onceCenter s)
    (oncePostrender s) (targetChildren s) (ol3Position s) (controls s)
    (gmapTypeId s) (gmapStyles s) v (vectorHeralds s) (viewHeraldActive s)
    (googleLayers_ s) (googleCache_ s) (vectorCache_ s) (vectorLayers_ s)
    (watchVector_ s) (googleMapsIsActive_ s) (ol3mapIsRenderered_ s)
    (nextId s) (log s).
Definition set_vectorHeralds (v : gmap nat bool) (s : State) : State :=
  mkState (objects s) (layers s) (center s) (listeners s) (onceCenter s)
    (oncePostrender s) (targetChildren s) (ol3Position s) (controls s)
    (gmapTypeId s) (gmapStyles s) (dataObjs s) v (viewHeraldActive s)
    (googleLayers_ s) (googleCache_ s) (vectorCache_ s) (vectorLayers_ s)
    (watchVector_ s) (googleMapsIsActive_ s) (ol3mapIsRenderered_ s)
    (nextId s) (log s).
Definition set_viewHeraldActive (v : bool) (s : State) : State :=
  mkState (objects s) (layers s) (center s) (listeners s) (onceCenter s)
    (oncePostrender s) (targetChildren s) (ol3Position s) (controls s)
    (gmapTypeId s) (gmapStyles s) (dataObjs s) (vectorHeralds s) v
    (googleLayers_ s) (googleCache_ s) (vectorCache_ s) (vectorLayers_ s)
    (watchVector_ s) (googleMapsIsActive_ s) (ol3mapIsRenderered_ s)
    (nextId s) (log s).
Definition set_googleLayers_ (v : list nat) (s : State) : State :=
  mkState (objects s) (layers s) (center s) (listeners s) (onceCenter s)
    (oncePostrender s) (targetChildren s) (ol3Position s) (controls s)
    (gmapTypeId s) (gmapStyles s) (dataObjs s) (vectorHeralds s)
    (viewHeraldActive s) v (googleCache_ s) (vectorCache_ s) (vectorLayers_
    s) (watchVector_ s) (googleMapsIsActive_ s) (ol3mapIsRenderered_ s)
    (nextId s) (log s).
Definition set_googleCache_ (v : list GoogleLayerCache) (s : State) : State :=
  mkState (objects s) (layers s) (center s) (listeners s) (onceCenter s)
    (oncePostrender s) (targetChildren s) (ol3Position s) (controls s)
    (gmapTypeId s) (gmapStyles s) (dataObjs s) (vectorHeralds s)
    (viewHeraldActive s) (googleLayers_ s) v (vectorCache_ s)
    (vectorLayers_ s) (watchVector_ s) (googleMapsIsActive_ s)
    (ol3mapIsRenderered_ s) (nextId s) (log s).
Definition set_vectorCache_ (v : list VectorLayerCache) (s : State) : State :=
  mkState (objects s) (layers s) (center s) (listeners s) (onceCenter s)
    (oncePostrender s) (targetChildren s) (ol3Position s) (controls s)
    (gmapTypeId s) (gmapStyles s) (dataObjs s) (vectorHeralds s)
    (viewHeraldActive s) (googleLayers_ s) (googleCache_ s) v
    (vectorLayers_ s) (watchVector_ s) (googleMapsIsActive_ s)
    (ol3mapIsRenderered_ s) (nextId s) (log s).
Definition set_vectorLayers_ (v : list nat) (s : State) : State :=
  mkState (objects s) (layers s) (center s) (listeners s) (onceCenter s)
    (oncePostrender s) (targetChildren s) (ol3Position s) (controls s)
    (gmapTypeId s) (gmapStyles s) (dataObjs s) (vectorHeralds s)
    (viewHeraldActive s) (googleLayers_ s) (googleCache_ s) (vectorCache_
    s) v (watchVector_ s) (googleMapsIsActive_ s) (ol3mapIsRenderered_ s)
    (nextId s) (log s).
Definition set_watchVector_ (v : bool) (s : State) : State :=
  mkState (objects s) (layers s) (center s) (listeners s) (onceCenter s)
    (oncePostrender s) (targetChildren s) (ol3Position s) (controls s)
    (gmapTypeId s) (gmapStyles s) (dataObjs s) (vectorHeralds s)
    (viewHeraldActive s) (googleLayers_ s) (googleCache_ s) (vectorCache_
    s) (vectorLayers_ s) v (googleMapsIsActive_ s) (ol3mapIsRenderered_ s)
    (nextId s) (log s).
Definition set_googleMapsIsActive_ (v : bool) (s : State) : State :=
  mkState (objects s) (layers s) (center s) (listeners s) (onceCenter s)
    (oncePostrender s) (targetChildren s) (ol3Position s) (controls s)
    (gmapTypeId s) (gmapStyles s) (dataObjs s) (vectorHeralds s)
    (viewHeraldActive s) (googleLayers_ s) (googleCache_ s) (vectorCache_
    s) (vectorLayers_ s) (watchVector_ s) v (ol3mapIsRenderered_ s) (nextId
    s) (log s).
Definition set_ol3mapIsRenderered_ (v : bool) (s : State) : State :=
  mkState (objects s) (layers s) (center s) (listeners s) (onceCenter s)
    (oncePostrender s) (targetChildren s) (ol3Position s) (controls s)
    (gmapTypeId s) (gmapStyles s) (dataObjs s) (vectorHeralds s)
    (viewHeraldActive s) (googleLayers_ s) (googleCache_ s) (vectorCache_
    s) (vectorLayers_ s) (watchVector_ s) (googleMapsIsActive_ s) v (nextId
    s) (log s).
Definition set_nextId (v : nat) (s : State) : State :=
  mkState (objects s) (layers s) (center s) (listeners s) (onceCenter s)
    (oncePostrender s) (targetChildren s) (ol3Position s) (controls s)
    (gmapTypeId s) (gmapStyles s) (dataObjs s) (vectorHeralds s)
    (viewHeraldActive s) (googleLayers_ s) (googleCache_ s) (vectorCache_
    s) (vectorLayers_ s) (watchVector_ s) (googleMapsIsActive_ s)
    (ol3mapIsRenderered_ s) v (log s).
Definition set_log (v : list Effect) (s : State) : State :=
  mkState (objects s) (layers s) (center s) (listeners s) (onceCenter s)
    (oncePostrender s) (targetChildren s) (ol3Position s) (controls s)
    (gmapTypeId s) (gmapStyles s) (dataObjs s) (vectorHeralds s)
    (viewHeraldActive s) (googleLayers_ s) (googleCache_ s) (vectorCache_
    s) (vectorLayers_ s) (watchVector_ s) (googleMapsIsActive_ s)
    (ol3mapIsRenderered_ s) (nextId s) v.

(** ** Primitive operations on the environment *)

Definition emit (e : Effect) (s : State) : State :=
  set_log (log s ++ [e]) s.

Definition isDefined {A} (o : option A) : bool :=
  match o with Some _ => true | None => false end.

(** *** Layer objects *)

Definition getLayer (l : nat) (s : State) : Layer :=
  default defaultLayer (objects s !! l).

Definition getVisible (l : nat) (s : State) : bool := l_visible (getLayer l s).
Definition getOpacity (l : nat) (s : State) : Q := l_opacity (getLayer l s).
Definition getMapTypeId (l : nat) (s : State) : string :=
  l_mapTypeId (getLayer l s).
Definition getStyles (l : nat) (s : State) : option (list string) :=
  l_styles (getLayer l s).
Definition getSource (l : nat) (s : State) : option nat :=
  l_source (getLayer l s).

Definition instanceofGoogle (l : nat) (s : State) : bool :=
  match l_kind (getLayer l s) with GoogleKind => true | _ => false end.
Definition instanceofVector (l : nat) (s : State) : bool :=
  match l_kind (getLayer l s) with VectorKind => true | _ => false end.

Definition with_opacity (q : Q) (ly : Layer) : Layer :=
  mkLayer (l_kind ly) (l_visible ly) q (l_mapTypeId ly) (l_styles ly)
    (l_source ly) (l_gmStyle ly).

Definition with_visible (b : bool) (ly : Layer) : Layer :=
  mkLayer (l_kind ly) b (l_opacity ly) (l_mapTypeId ly) (l_styles ly)
    (l_source ly) (l_gmStyle ly).

(** The property write behind [layer.setOpacity]. *)
Definition storeOpacity (l : nat) (q : Q) (s : State) : State :=
  set_objects (<[l := with_opacity q (getLayer l s)]> (objects s)) s.

(** The property write behind [layer.setVisible]. *)
Definition storeVisible (l : nat) (b : bool) (s : State) : State :=
  set_objects (<[l := with_visible b (getLayer l s)]> (objects s)) s.

(** [layer.setOpacity(q)] called by the herald. *)
Definition setOpacity (l : nat) (q : Q) (s : State) : State :=
  emit (ESetOpacity l q) (storeOpacity l q s).

(** *** Arrays *)

(** [Array.prototype.indexOf]; [None] stands for [-1]. *)
Fixpoint indexOf (x : nat) (arr : list nat) : option nat :=
  match arr with
  | [] => None
  | y :: rest => if decide (y = x) then Some 0 else S <$> indexOf x rest
  end.

(** [arr.forEach(f, this)] *)
Definition forEach {A} (f : A → State → State) (arr : list A) (s : State)
  : State :=
  foldl (λ acc x, f x acc) s arr.

(** *** The DOM container and the control stack *)

(** [removeNode el ch] is the child list after [removeChild(el)];
    [None] when [el] is not a child, where the DOM throws. *)
Fixpoint removeNode (el : Element) (ch : list Element)
  : option (list Element) :=
  match ch with
  | [] => None
  | x :: rest =>
      if decide (x = el) then Some rest else (x ::.) <$> removeNode el rest
  end.

Definition removeChild (el : Element) (s : State) : option State :=
  ch ← removeNode el (targetChildren s);
  Some (emit (ERemoveChild el) (set_targetChildren ch s)).

(** [appendChild] moves a node that is already a child to the end. *)
Definition appendChild (el : Element) (s : State) : State :=
  emit (EAppendChild el)
    (set_targetChildren
       (filter (λ x, x ≠ el) (targetChildren s) ++ [el]) s).

(** [gmap.controls[TOP_LEFT].push(el)] *)
Definition controlsPush (el : Element) (s : State) : State :=
  emit (EControlsPush el) (set_controls (controls s ++ [el]) s).

(** [gmap.controls[TOP_LEFT].removeAt(i)] *)
Definition controlsRemoveAt (i : nat) (s : State) : State :=
  emit (EControlsRemoveAt i) (set_controls (delete i (controls s)) s).

(** [ol3mapEl_.style.position = v] *)
Definition setPosition (v : string) (s : State) : State :=
  emit (ESetPosition v) (set_ol3Position v s).

(** *** The Google Maps map *)

Definition setMapTypeId (id : string) (s : State) : State :=
  emit (ESetMapTypeId id) (set_gmapTypeId (Some id) s).

(** [gmap.setOptions({'styles': st})] *)
Definition setOptionsStyles (st : option (list string)) (s : State) : State :=
  emit (ESetStyles st) (set_gmapStyles st s).

(** [google.maps.event.trigger(gmap, 'resize')] *)
Definition triggerResize (s : State) : State := emit EResize s.

(** *** The view herald *)

Definition viewHeraldActivate (s : State) : State :=
  emit EViewActivate (set_viewHeraldActive true s).
Definition viewHeraldDeactivate (s : State) : State :=
  emit EViewDeactivate (set_viewHeraldActive false s).
Definition viewHeraldSetCenter (s : State) : State := emit EViewSetCenter s.
Definition viewHeraldSetZoom (s : State) : State := emit EViewSetZoom s.

(** *** Data objects and vector source heralds *)

(** [new google.maps.Data({'map': gmap})], stored under the next free
    identifier [d]. *)
Definition newData (d : nat) (s : State) : State :=
  emit (EDataNew d)
    (set_dataObjs (<[d := mkData true None]> (dataObjs s))
       (set_nextId (S d) s)).

Definition dataSetStyle (d : nat) (st : string) (s : State) : State :=
  emit (EDataSetStyle d st)
    (set_dataObjs
       (<[d := mkData (from_option d_attached false (dataObjs s !! d))
                      (Some st)]> (dataObjs s)) s).

(** [data.setMap(null)] *)
Definition dataSetMapNull (d : nat) (s : State) : State :=
  emit (EDataSetMap d false)
    (set_dataObjs
       (<[d := mkData false (dataObjs s !! d ≫= d_style)]> (dataObjs s)) s).

(** [new olgm.herald.VectorSource(...)]: created inactive, under the next
    free identifier [h]. *)
Definition newVectorSource (h : nat) (s : State) : State :=
  set_vectorHeralds (<[h := false]> (vectorHeralds s)) (set_nextId (S h) s).

Definition heraldActivate (h : nat) (s : State) : State :=
  emit (EVectorActivate h)
    (set_vectorHeralds (<[h := true]> (vectorHeralds s)) s).
Definition heraldDeactivate (h : nat) (s : State) : State :=
  emit (EVectorDeactivate h)
    (set_vectorHeralds (<[h := false]> (vectorHeralds s)) s).

(** Whether the synchronizer [h] is active. *)
Definition heraldActive (h : nat) (s : State) : bool :=
  default false (vectorHeralds s !! h).

(** *** The listener registry *)

(** The registration of a listener that is not there yet, under the key
    [k], the next free identifier. *)
Definition listen (k l : nat) (h : Handler) (s : State) : State :=
  emit (EListen k l)
    (set_listeners (listeners s ++ [mkListener k l h]) (set_nextId (S k) s)).

(** Whether two handlers are the same function object:
    [this.toggleGoogleMaps_] is one function, every [.bind] makes a new
    one. *)
Definition sameFunction (h h' : Handler) : bool :=
  match h, h' with
  | HToggle, HToggle => true
  | _, _ => false
  end.

(** The listener of [change:visible] registered on layer [l] with the
    function [h] (and the herald as [this]), if there is one. *)
Definition findListener (l : nat) (h : Handler) (s : State)
  : option Listener :=
  List.find
    (λ x, bool_decide (lk_target x = l) && sameFunction (lk_handler x) h)
    (listeners s).

(** [layer.on('change:visible', h, this)]: a listener that is registered
    already is not registered a second time, and [on] returns the key of
    the one that is there; otherwise the listener is added under a new
    key. *)
Definition on (l : nat) (h : Handler) (s : State) : nat * State :=
  match findListener l h s with
  | Some x => (lk_key x, emit (EListen (lk_key x) l) s)
  | None => (nextId s, listen (nextId s) l h s)
  end.

(** [olgm.unlistenAllByKey(keys)] *)
Definition unlistenAllByKey (keys : list nat) (s : State) : State :=
  emit (EUnlisten keys)
    (set_listeners (filter (λ x, lk_key x ∉ keys) (listeners s)) s).

(** ** The methods of [olgm.herald.Layers] *)

(** The assignment to [googleMapsIsActive_]. *)
Definition markActive (b : bool) (s : State) : State :=
  emit (EMarkActive b) (set_googleMapsIsActive_ b s).

Definition activateVectorLayerCacheItem_ (cacheItem : VectorLayerCache)
  (s : State) : State :=
  let layer := v_layer cacheItem in
  let visible := getVisible layer s in
  if visible && googleMapsIsActive_ s then
    setOpacity (v_layer cacheItem) 0
      (heraldActivate (v_herald cacheItem) s)
  else s.

Definition deactivateVectorLayerCacheItem_ (cacheItem : VectorLayerCache)
  (s : State) : State :=
  setOpacity (v_layer cacheItem) (v_opacity cacheItem)
    (heraldDeactivate (v_herald cacheItem) s).

Definition handleVectorLayerVisibleChange_ (cacheItem : VectorLayerCache)
  (s : State) : State :=
  let layer := v_layer cacheItem in
  let visible := getVisible layer s in
  if visible then activateVectorLayerCacheItem_ cacheItem s
  else deactivateVectorLayerCacheItem_ cacheItem s.

Definition activateGoogleMaps_ (s : State) : option State :=
  let center := center s in
  if googleMapsIsActive_ s || negb (ol3mapIsRenderered_ s)
     || negb (isDefined center)
  then Some s
  else
    s1 ← removeChild Ol3mapEl s;
    let s2 := appendChild GmapEl s1 in
    let s3 := controlsPush Ol3mapEl s2 in
    let s4 := viewHeraldActivate s3 in
    let s5 := triggerResize s4 in
    let s6 := viewHeraldSetCenter s5 in
    let s7 := viewHeraldSetZoom s6 in
    let s8 := markActive true s7 in
    Some (forEach activateVectorLayerCacheItem_ (vectorCache_ s8) s8).

Definition deactivateGoogleMaps_ (s : State) : option State :=
  if negb (googleMapsIsActive_ s) then Some s
  else
    let s1 := controlsRemoveAt 0 s in
    s2 ← removeChild GmapEl s1;
    let s3 := appendChild Ol3mapEl s2 in
    let s4 := viewHeraldDeactivate s3 in
    let s5 := setPosition "relative"%string s4 in
    let s6 := forEach deactivateVectorLayerCacheItem_ (vectorCache_ s5) s5 in
    Some (markActive false s6).

(** The callback given to [every] in [toggleGoogleMaps_]. *)
Definition isCandidate (s : State) (layer : nat) : bool :=
  instanceofGoogle layer s && getVisible layer s
  && isDefined (indexOf layer (googleLayers_ s)).

(** [arr.every(cb)] where [cb] stores the element in [found] and returns
    [false] on a hit, [true] otherwise: the scan stops at the first hit. *)
Fixpoint everyUntilFound (hit : nat → bool) (arr : list nat)
  (found : option nat) : option nat :=
  match arr with
  | [] => found
  | layer :: rest =>
      if hit layer then Some layer else everyUntilFound hit rest found
  end.

(** The value of [found] after the scan of the reversed copy of the layer
    collection. *)
Definition findTopMost (s : State) : option nat :=
  everyUntilFound (isCandidate s) (reverse (layers s)) None.

Definition toggleGoogleMaps_ (s : State) : option State :=
  match findTopMost s with
  | Some found =>
      let s1 := setMapTypeId (getMapTypeId found s) s in
      let styles := getStyles found s1 in
      let s2 :=
        match styles with
        | Some st => setOptionsStyles (Some st) s1
        | None => setOptionsStyles None s1
        end in
      activateGoogleMaps_ s2
  | None => deactivateGoogleMaps_ s
  end.

Definition watchGoogleLayer_ (layer : nat) (s : State) : option State :=
  let s1 := set_googleLayers_ (googleLayers_ s ++ [layer]) s in
  let '(key, s2) := on layer HToggle s1 in
  let s3 :=
    set_googleCache_ (googleCache_ s2 ++ [mkGoogleLayerCache layer [key]])
      s2 in
  toggleGoogleMaps_ s3.

(** The handler is a function bound anew at every call, which no listener
    on the layer can have: [layer.on] registers it under a new key. *)
Definition watchVectorLayer_ (layer : nat) (s : State) : State :=
  match getSource layer s with
  | None => s
  | Some source =>
      let s1 := set_vectorLayers_ (vectorLayers_ s ++ [layer]) s in
      let data := nextId s1 in
      let s2 := newData data s1 in
      let s3 :=
        match l_gmStyle (getLayer layer s2) with
        | Some gmStyle => dataSetStyle data gmStyle s2
        | None => s2
        end in
      let herald := nextId s3 in
      let s4 := newVectorSource herald s3 in
      let opacity := getOpacity layer s4 in
      let key := nextId s4 in
      let cacheItem :=
        mkVectorLayerCache data herald layer [key] opacity in
      let s5 := listen key layer (HVectorVisible cacheItem) s4 in
      let s6 := activateVectorLayerCacheItem_ cacheItem s5 in
      set_vectorCache_ (vectorCache_ s6 ++ [cacheItem]) s6
  end.

Definition watchLayer_ (layer : nat) (s : State) : option State :=
  if instanceofGoogle layer s then watchGoogleLayer_ layer s
  else if instanceofVector layer s && watchVector_ s
  then Some (watchVectorLayer_ layer s)
  else Some s.

Definition unwatchGoogleLayer_ (layer : nat) (s : State) : option State :=
  match indexOf layer (googleLayers_ s) with
  | Some index =>
      let s1 := set_googleLayers_ (delete index (googleLayers_ s)) s in
      cacheItem ← googleCache_ s1 !! index;
      let s2 := unlistenAllByKey (g_listenerKeys cacheItem) s1 in
      let s3 := set_googleCache_ (delete index (googleCache_ s2)) s2 in
      toggleGoogleMaps_ s3
  | None => Some s
  end.

Definition unwatchVectorLayer_ (layer : nat) (s : State) : option State :=
  match indexOf layer (vectorLayers_ s) with
  | Some index =>
      let s1 := set_vectorLayers_ (delete index (vectorLayers_ s)) s in
      cacheItem ← vectorCache_ s1 !! index;
      let s2 := unlistenAllByKey (v_listenerKeys cacheItem) s1 in
      let s3 := dataSetMapNull (v_data cacheItem) s2 in
      let s4 := heraldDeactivate (v_herald cacheItem) s3 in
      let s5 := setOpacity layer (v_opacity cacheItem) s4 in
      Some (set_vectorCache_ (delete index (vectorCache_ s5)) s5)
  | None => Some s
  end.

Definition unwatchLayer_ (layer : nat) (s : State) : option State :=
  if instanceofGoogle layer s then unwatchGoogleLayer_ layer s
  else if instanceofVector layer s && watchVector_ s
  then unwatchVectorLayer_ layer s
  else Some s.

Definition handleLayersAdd_ (layer : nat) (s : State) : option State :=
  watchLayer_ layer s.

Definition handleLayersRemove_ (layer : nat) (s : State) : option State :=
  unwatchLayer_ layer s.

Definition getGoogleMapsActive (s : State) : bool := googleMapsIsActive_ s.

(** ** The constructor and its one-shot listeners *)

(** The herald right after [new olgm.herald.Layers(ol3map, gmap,
    watchVector)], for a map whose viewport sits alone in its target
    element, a Google Maps map with an empty top-left control stack, and no
    listener of [change:visible] yet.  With no center the constructor
    listens once to [change:center]; with a center, once to
    [postrender]. *)
Definition construct (objs : gmap nat Layer) (lyrs : list nat)
  (c : option Coordinate) (watchVector : bool) : State :=
  mkState objs lyrs c [] (negb (isDefined c)) (isDefined c)
    [Ol3mapEl] ""%string [] None None ∅ ∅ false
    [] [] [] [] watchVector false false 0 [].

(** The body of both [postrender] listeners. *)
Definition onPostrender (s : State) : option State :=
  toggleGoogleMaps_ (set_ol3mapIsRenderered_ true s).

(** The body of the [change:center] listener: it listens once to
    [postrender], then runs the toggle decision. *)
Definition onChangeCenter (s : State) : option State :=
  toggleGoogleMaps_ (set_oncePostrender true s).

(** The map dispatches [postrender]. *)
Definition firePostrender (s : State) : option State :=
  if oncePostrender s then onPostrender (set_oncePostrender false s)
  else Some s.

(** [view.setCenter(c)] with a value other than the one the view has: the
    property changes and [change:center] is dispatched.  [None] is a
    center that is not defined; a call that leaves the property as it is
    dispatches nothing and is no event here. *)
Definition changeCenter (c : option Coordinate) (s : State) : option State :=
  let s1 := set_center c s in
  if onceCenter s1 then onChangeCenter (set_onceCenter false s1)
  else Some s1.

(** ** Visibility events *)

Definition runHandler (h : Handler) (s : State) : option State :=
  match h with
  | HToggle => toggleGoogleMaps_ s
  | HVectorVisible cacheItem =>
      Some (handleVectorLayerVisibleChange_ cacheItem s)
  end.

Fixpoint dispatch (ls : list Listener) (s : State) : option State :=
  match ls with
  | [] => Some s
  | x :: rest => s1 ← runHandler (lk_handler x) s; dispatch rest s1
  end.

(** [layer.setVisible(b)] called by the application: when the value
    changes, the listeners of [change:visible] on that layer run in the
    order they were registered. *)
Definition setVisible (l : nat) (b : bool) (s : State) : option State :=
  if decide (getVisible l s = b) then Some s
  else
    dispatch (filter (λ x, lk_target x = l) (listeners s))
      (storeVisible l b s).

(** ** Events of the environment *)

Inductive Event :=
| EvWatch (l : nat)
| EvUnwatch (l : nat)
| EvAdd (l : nat)
| EvRemove (l : nat)
| EvSetVisible (l : nat) (b : bool)
| EvSetOpacity (l : nat) (q : Q)
| EvPostrender
| EvChangeCenter (c : option Coordinate).

(** [layers.push(l)] followed by the [add] event. *)
Definition addLayer (l : nat) (s : State) : option State :=
  handleLayersAdd_ l (set_layers (layers s ++ [l]) s).

(** [layers.remove(l)]: the first occurrence goes and the [remove] event
    follows; nothing happens when [l] is not in the collection. *)
Definition removeLayer (l : nat) (s : State) : option State :=
  match indexOf l (layers s) with
  | Some i => handleLayersRemove_ l (set_layers (delete i (layers s)) s)
  | None => Some s
  end.

(** [layers.insertAt(i, l)] followed by the [add] event; [layers.push(l)]
    is the insertion at the end. *)
Definition insertLayerAt (i l : nat) (s : State) : option State :=
  handleLayersAdd_ l
    (set_layers (take i (layers s) ++ l :: drop i (layers s)) s).

Definition step (e : Event) (s : State) : option State :=
  match e with
  | EvWatch l => watchLayer_ l s
  | EvUnwatch l => unwatchLayer_ l s
  | EvAdd l => addLayer l s
  | EvRemove l => removeLayer l s
  | EvSetVisible l b => setVisible l b s
  | EvSetOpacity l q => Some (storeOpacity l q s)
  | EvPostrender => firePostrender s
  | EvChangeCenter c => changeCenter c s
  end.

Fixpoint run (es : list Event) (s : State) : option State :=
  match es with
  | [] => Some s
  | e :: rest => s1 ← step e s; run rest s1
  end.

(** * Auxiliary definitions for the proofs *)

(** What the per-item routines may change: the opacity of layer objects,
    the vector source heralds, and the log. *)
Record itemFrame (s s' : State) : Prop := mkItemFrame {
  fr_layer : ∀ l, with_opacity (getOpacity l s) (getLayer l s') = getLayer l s;
  fr_layers : layers s' = layers s;
  fr_center : center s' = center s;
  fr_listeners : listeners s' = listeners s;
  fr_onceCenter : onceCenter s' = onceCenter s;
  fr_oncePostrender : oncePostrender s' = oncePostrender s;
  fr_targetChildren : targetChildren s' = targetChildren s;
  fr_ol3Position : ol3Position s' = ol3Position s;
  fr_controls : controls s' = controls s;
  fr_gmapTypeId : gmapTypeId s' = gmapTypeId s;
  fr_gmapStyles : gmapStyles s' = gmapStyles s;
  fr_dataObjs : dataObjs s' = dataObjs s;
  fr_viewHeraldActive : viewHeraldActive s' = viewHeraldActive s;
  fr_googleLayers : googleLayers_ s' = googleLayers_ s;
  fr_googleCache : googleCache_ s' = googleCache_ s;
  fr_vectorCache : vectorCache_ s' = vectorCache_ s;
  fr_vectorLayers : vectorLayers_ s' = vectorLayers_ s;
  fr_watchVector : watchVector_ s' = watchVector_ s;
  fr_active : googleMapsIsActive_ s' = googleMapsIsActive_ s;
  fr_rendered : ol3mapIsRenderered_ s' = ol3mapIsRenderered_ s;
  fr_nextId : nextId s' = nextId s
}.

Ltac frame_fields := constructor; try reflexivity.

(** The node the next mount or unmount removes is a child of the target:
    the Google Maps div while active, the OpenLayers viewport otherwise. *)
Definition domOk (s : State) : Prop :=
  if googleMapsIsActive_ s then GmapEl ∈ targetChildren s
  else Ol3mapEl ∈ targetChildren s.

(** The guard of [activateGoogleMaps_]. *)
Definition activationBlocked (s : State) : bool :=
  googleMapsIsActive_ s || negb (ol3mapIsRenderered_ s)
  || negb (isDefined (center s)).

(** The state after the mount, before per-item activation. *)
Definition mounted (ch : list Element) (s : State) : State :=
  markActive true
    (viewHeraldSetZoom
       (viewHeraldSetCenter
          (triggerResize
             (viewHeraldActivate
                (controlsPush Ol3mapEl
                   (appendChild GmapEl
                      (emit (ERemoveChild Ol3mapEl)
                         (set_targetChildren ch s)))))))).

(** The state after the unmount, before per-item deactivation. *)
Definition unmounted (ch : list Element) (s : State) : State :=
  setPosition "relative"%string
    (viewHeraldDeactivate
       (appendChild Ol3mapEl
          (emit (ERemoveChild GmapEl)
             (set_targetChildren ch (controlsRemoveAt 0 s))))).

(** The Google Maps map after the winner's parameters are applied. *)
Definition applyWinner (w : nat) (s : State) : State :=
  setOptionsStyles (getStyles w s) (setMapTypeId (getMapTypeId w s) s).

(** Neither [activateGoogleMaps_] nor [deactivateGoogleMaps_] nor the
    toggle decision touches the layer collection, the caches, the
    listeners, or any layer attribute but the opacity. *)
Record toggleFrame (s s' : State) : Prop := mkToggleFrame {
  tf_layer : ∀ l, with_opacity (getOpacity l s) (getLayer l s') = getLayer l s;
  tf_layers : layers s' = layers s;
  tf_center : center s' = center s;
  tf_listeners : listeners s' = listeners s;
  tf_onceCenter : onceCenter s' = onceCenter s;
  tf_oncePostrender : oncePostrender s' = oncePostrender s;
  tf_dataObjs : dataObjs s' = dataObjs s;
  tf_googleLayers : googleLayers_ s' = googleLayers_ s;
  tf_googleCache : googleCache_ s' = googleCache_ s;
  tf_vectorCache : vectorCache_ s' = vectorCache_ s;
  tf_vectorLayers : vectorLayers_ s' = vectorLayers_ s;
  tf_watchVector : watchVector_ s' = watchVector_ s;
  tf_rendered : ol3mapIsRenderered_ s' = ol3mapIsRenderered_ s;
  tf_nextId : nextId s' = nextId s
}.

Record wf (s : State) : Prop := mkWf {
  wf_google : g_layer <$> googleCache_ s = googleLayers_ s;
  wf_vector : v_layer <$> vectorCache_ s = vectorLayers_ s;
  wf_dom : domOk s;
  wf_gkind : ∀ l, l ∈ googleLayers_ s → instanceofGoogle l s = true;
  wf_vkind : ∀ l, l ∈ vectorLayers_ s → instanceofGoogle l s = false
}.

(** The cache item [watchVectorLayer_] builds for [layer] in [s]. *)
Definition newVectorItem (layer : nat) (s : State) : VectorLayerCache :=
  mkVectorLayerCache (nextId s) (S (nextId s)) layer [S (S (nextId s))]
    (getOpacity layer s).

Record attrFrame (s s' : State) : Prop := mkAttrFrame {
  af_layer : ∀ l,
    with_visible (getVisible l s) (with_opacity (getOpacity l s) (getLayer l s'))
    = getLayer l s;
  af_watchVector : watchVector_ s' = watchVector_ s
}.

(** The state [unwatchVectorLayer_] returns when [layer] sits at [index]
    with cache item [cacheItem]. *)
Definition unwatchedVector (layer index : nat) (cacheItem : VectorLayerCache)
  (s : State) : State :=
  let s5 :=
    setOpacity layer (v_opacity cacheItem)
      (heraldDeactivate (v_herald cacheItem)
         (dataSetMapNull (v_data cacheItem)
            (unlistenAllByKey (v_listenerKeys cacheItem)
               (set_vectorLayers_ (delete index (vectorLayers_ s)) s)))) in
  set_vectorCache_ (delete index (vectorCache_ s5)) s5.

(** The state in which [watchGoogleLayer_] runs the toggle decision. *)
Definition watchedGoogle (layer : nat) (s : State) : State :=
  let s1 := set_googleLayers_ (googleLayers_ s ++ [layer]) s in
  let '(key, s2) := on layer HToggle s1 in
  set_googleCache_ (googleCache_ s2 ++ [mkGoogleLayerCache layer [key]]) s2.

(** The state in which [unwatchGoogleLayer_] runs the toggle decision. *)
Definition unwatchedGoogle (index : nat) (cacheItem : GoogleLayerCache)
  (s : State) : State :=
  let s1 := set_googleLayers_ (delete index (googleLayers_ s)) s in
  let s2 := unlistenAllByKey (g_listenerKeys cacheItem) s1 in
  set_googleCache_ (delete index (googleCache_ s2)) s2.

Definition exObjects : gmap nat Layer :=
  <[1 := mkLayer GoogleKind true 1%Q "ROADMAP"%string None None None]>
  (<[2 := mkLayer GoogleKind true 1%Q "SATELLITE"%string
            (Some ["night"%string]) None None]>
  (<[3 := mkLayer VectorKind true (8 # 10)%Q ""%string None (Some 7) None]>
   ∅)).

(** A herald built on a map without center and without layers. *)
Definition exInitial : State := construct exObjects [] None true.

Definition exCenter : Coordinate := (0%Q, 0%Q).

(** Both Google layers added, the center set, the map rendered: the
    Google Maps map is active. *)
Definition exActiveTrace : list Event :=
  [EvAdd 1; EvAdd 2; EvChangeCenter (Some exCenter); EvPostrender].

Definition exActive : State :=
  Eval vm_compute in default exInitial (run exActiveTrace exInitial).

(** The herald of [exActive] with the Google Maps map taken down again by
    hiding both Google layers, while the map stays rendered and centered:
    a call of the activation routine mounts it. *)
Definition exIdle : State :=
  Eval vm_compute in
    default exInitial
      (run (exActiveTrace ++ [EvSetVisible 2 false; EvSetVisible 1 false])
         exInitial).

(** The herald before the map has a center or was rendered, with one
    visible Google layer watched. *)
Definition exGated : State :=
  Eval vm_compute in default exInitial (run [EvAdd 1] exInitial).

(** The calls one per-item deactivation makes. *)
Definition itemDeactivationEffects (cacheItem : VectorLayerCache)
  : list Effect :=
  [EVectorDeactivate (v_herald cacheItem);
   ESetOpacity (v_layer cacheItem) (v_opacity cacheItem)].

Definition deactivationEffects (items : list VectorLayerCache) : list Effect :=
  items ≫= itemDeactivationEffects.

(** The steps of [deactivateGoogleMaps_] in the order of the source. *)
Definition deactivationSteps (items : list VectorLayerCache) : list Effect :=
  [EControlsRemoveAt 0; ERemoveChild GmapEl; EAppendChild Ol3mapEl;
   EViewDeactivate; ESetPosition "relative"%string]
  ++ deactivationEffects items ++ [EMarkActive false].

(** The steps in the order the specification lists them: the position is
    reset before the view synchronizer is deactivated, and the state is
    marked inactive before the per-item deactivations. *)
Definition specDeactivationSteps (items : list VectorLayerCache)
  : list Effect :=
  [EControlsRemoveAt 0; ERemoveChild GmapEl; EAppendChild Ol3mapEl;
   ESetPosition "relative"%string; EViewDeactivate; EMarkActive false]
  ++ deactivationEffects items.

(** The active herald of [exActive] after the vector layer 3 was added. *)
Definition exWithVector : State :=
  Eval vm_compute in
    default exInitial (run (exActiveTrace ++ [EvAdd 3]) exInitial).

(** [l] has an entry in the Google cache. *)
Definition inGoogleCache (l : nat) (s : State) : Prop :=
  ∃ cacheItem, cacheItem ∈ googleCache_ s ∧ g_layer cacheItem = l.

(** [l] is a Google layer, visible, and cached. *)
Definition qualifies (s : State) (l : nat) : Prop :=
  instanceofGoogle l s = true ∧ getVisible l s = true ∧ inGoogleCache l s.

(** The state in which [watchVectorLayer_] activates the new cache item:
    the layer is tracked, its data object and its source herald exist, the
    listener is registered. *)
Definition preparedVector (layer : nat) (s : State) : State :=
  let s1 := set_vectorLayers_ (vectorLayers_ s ++ [layer]) s in
  let data := nextId s1 in
  let s2 := newData data s1 in
  let s3 :=
    match l_gmStyle (getLayer layer s2) with
    | Some gmStyle => dataSetStyle data gmStyle s2
    | None => s2
    end in
  let s4 := newVectorSource (nextId s3) s3 in
  listen (nextId s4) layer (HVectorVisible (newVectorItem layer s)) s4.

(** The cache item found for [l] by [unwatchVectorLayer_] holds opacity
    [q]. *)
Definition saved (l : nat) (q : Q) (s : State) : Prop :=
  ∃ i cacheItem,
    indexOf l (vectorLayers_ s) = Some i
    ∧ vectorCache_ s !! i = Some cacheItem
    ∧ v_opacity cacheItem = q.

(** The events that unwatch layer [l]. *)
Definition unwatches (l : nat) (e : Event) : bool :=
  match e with
  | EvUnwatch l' | EvRemove l' => bool_decide (l' = l)
  | _ => false
  end.

(** The two signals the constructor listens to, as the events that are
    dispatched: [postrender] on the map, and [change:center] on the view
    with the center the view has then ([None] when the center was unset). *)
Inductive Signal :=
| SigPostrender
| SigCenter (c : option Coordinate).

Definition signalEvent (g : Signal) : Event :=
  match g with
  | SigPostrender => EvPostrender
  | SigCenter c => EvChangeCenter c
  end.

(** How often the Google Maps map was activated, read off the log. *)
Fixpoint activations (lg : list Effect) : nat :=
  match lg with
  | [] => 0
  | EMarkActive true :: rest => S (activations rest)
  | _ :: rest => activations rest
  end.

(** How often the toggle decision ran and found a winner, read off the
    log: each time it calls [gmap.setMapTypeId]. *)
Fixpoint decisions (lg : list Effect) : nat :=
  match lg with
  | [] => 0
  | ESetMapTypeId _ :: rest => S (decisions rest)
  | _ :: rest => decisions rest
  end.

(** Where the gate stands.  [GateCenter]: the view had no center at
    construction and the herald waits for [change:center].  [GateRender]:
    the [postrender] listener is installed and was not called yet.
    [GateOpen]: [postrender] was heard while the view had a center; the
    herald is active.  [GateMissed]: [postrender] was heard while the view
    had no center; the herald is inactive and both listeners are spent. *)
Inductive Gate := GateCenter | GateRender | GateOpen | GateMissed.

Definition gateOf (s : State) : option Gate :=
  match onceCenter s, oncePostrender s,
        ol3mapIsRenderered_ s, googleMapsIsActive_ s with
  | true, false, false, false =>
      if isDefined (center s) then None else Some GateCenter
  | false, true, false, false => Some GateRender
  | false, false, true, true => Some GateOpen
  | false, false, true, false => Some GateMissed
  | _, _, _, _ => None
  end.

(** The gate after a signal; [known] tells whether the view has a center
    when the signal arrives. *)
Definition nextGate (known : bool) (p : Gate) (g : Signal) : Gate :=
  match p, g with
  | GateCenter, SigCenter _ => GateRender
  | GateRender, SigPostrender => if known then GateOpen else GateMissed
  | _, _ => p
  end.

Definition gateStep (pk : Gate * bool) (g : Signal) : Gate * bool :=
  (nextGate pk.2 pk.1 g,
   match g with
   | SigCenter c => isDefined c
   | SigPostrender => pk.2
   end).

(** Whether a sequence of signals activates the map.  [armed] tells
    whether the [postrender] listener is installed (if not, the herald
    waits for [change:center]), [known] whether the view has a center.
    The first [postrender] that arrives once the listener is installed
    decides: it activates if the view has a center at that moment, and
    nothing activates after it. *)
Fixpoint activatesOn (armed known : bool) (sigs : list Signal) : bool :=
  match sigs with
  | [] => false
  | SigPostrender :: rest =>
      if armed then known else activatesOn false known rest
  | SigCenter c :: rest => activatesOn true (isDefined c) rest
  end.

(** How many of the two handlers a sequence of signals runs.  [waiting]
    tells whether the [change:center] listener is installed, [armed]
    whether the [postrender] listener is. *)
Fixpoint handlersRun (waiting armed : bool) (sigs : list Signal) : nat :=
  match sigs with
  | [] => 0
  | SigPostrender :: rest =>
      if armed then S (handlersRun waiting false rest)
      else handlersRun waiting armed rest
  | SigCenter _ :: rest =>
      if waiting then S (handlersRun false true rest)
      else handlersRun waiting armed rest
  end.

(** Every [change:center] of the sequence changes the property: none
    announces a center that is not defined while the view has none. *)
Fixpoint centerChanges (known : bool) (sigs : list Signal) : bool :=
  match sigs with
  | [] => true
  | SigPostrender :: rest => centerChanges known rest
  | SigCenter c :: rest =>
      (isDefined c || known) && centerChanges (isDefined c) rest
  end.

Definition gateOpen (p : Gate) : bool :=
  match p with GateOpen => true | _ => false end.

(** The handlers that may still run. *)
Definition pending (p : Gate) : nat :=
  match p with
  | GateCenter => 2
  | GateRender => 1
  | GateOpen | GateMissed => 0
  end.


(** The event does not watch a Google layer that is tracked already. *)
Definition watchesAnew (e : Event) (s : State) : bool :=
  match e with
  | EvWatch l | EvAdd l =>
      negb (instanceofGoogle l s && isDefined (indexOf l (googleLayers_ s)))
  | _ => true
  end.

(** No event of the run watches a Google layer that is tracked at that
    moment. *)
Fixpoint watchesOnce (es : list Event) (s : State) : bool :=
  match es with
  | [] => true
  | e :: rest =>
      watchesAnew e s
      && match step e s with
         | Some s1 => watchesOnce rest s1
         | None => true
         end
  end.

(** Which surface is mounted: while active the target holds the Google
    Maps div alone, the OpenLayers viewport is the only top-left control
    and the view herald runs; while inactive the target holds the viewport
    alone, the control stack is empty and the view herald is off. *)
Definition mountOk (s : State) : Prop :=
  if googleMapsIsActive_ s
  then targetChildren s = [GmapEl] ∧ controls s = [Ol3mapEl]
       ∧ viewHeraldActive s = true
  else targetChildren s = [Ol3mapEl] ∧ controls s = []
       ∧ viewHeraldActive s = false.

(** The fields [mountOk] reads are the same in both states. *)
Definition sameMount (s s' : State) : Prop :=
  googleMapsIsActive_ s' = googleMapsIsActive_ s
  ∧ targetChildren s' = targetChildren s
  ∧ controls s' = controls s
  ∧ viewHeraldActive s' = viewHeraldActive s.

(** A map with one vector layer that has no source. *)
Definition exNoSource : State :=
  construct (<[4 := mkLayer VectorKind true 1%Q ""%string None None None]> ∅)
    [] None true.

(** The idle herald of [exIdle] after the vector layer 3 was added: the
    layer keeps its own opacity while Google Maps is inactive. *)
Definition exIdleVector : State :=
  Eval vm_compute in
    default exInitial
      (run (exActiveTrace
              ++ [EvSetVisible 2 false; EvSetVisible 1 false; EvAdd 3])
         exInitial).

Definition isToggle (x : Listener) : bool :=
  match lk_handler x with HToggle => true | HVectorVisible _ => false end.

(** The listeners the keys of a Google cache item stand for. *)
Definition googleListeners (cacheItem : GoogleLayerCache) : list Listener :=
  (λ k, mkListener k (g_layer cacheItem) HToggle)
    <$> g_listenerKeys cacheItem.

(** The listeners the keys of a vector cache item stand for. *)
Definition vectorListeners (cacheItem : VectorLayerCache) : list Listener :=
  (λ k, mkListener k (v_layer cacheItem) (HVectorVisible cacheItem))
    <$> v_listenerKeys cacheItem.

(** The registry holds, in the order of registration, exactly the
    listeners of the cache items: the toggle listeners are those of the
    Google cache, the others those of the vector cache; keys are unique
    and below the next free identifier; every item has one key. *)
Record listenersOk (s : State) : Prop := mkListenersOk {
  lo_toggle :
    filter (λ x, isToggle x = true) (listeners s)
    = googleCache_ s ≫= googleListeners;
  lo_vector :
    filter (λ x, isToggle x = false) (listeners s)
    = vectorCache_ s ≫= vectorListeners;
  lo_nodup : NoDup (lk_key <$> listeners s);
  lo_fresh : ∀ x, x ∈ listeners s → lk_key x < nextId s;
  lo_gone : ∀ g, g ∈ googleCache_ s → length (g_listenerKeys g) = 1;
  lo_vone : ∀ v, v ∈ vectorCache_ s → length (v_listenerKeys v) = 1
}.

(** While active, the Google Maps map has the map type and the styles of
    the layer the toggle decision would pick now. *)
Definition showsTopMost (s : State) : Prop :=
  googleMapsIsActive_ s = true →
  ∃ w, findTopMost s = Some w
       ∧ gmapTypeId s = Some (getMapTypeId w s)
       ∧ gmapStyles s = getStyles w s.

(** The fields [showsTopMost] reads are the same in both states. *)
Definition sameShown (s s' : State) : Prop :=
  googleMapsIsActive_ s' = googleMapsIsActive_ s
  ∧ gmapTypeId s' = gmapTypeId s
  ∧ gmapStyles s' = gmapStyles s
  ∧ layers s' = layers s
  ∧ googleLayers_ s' = googleLayers_ s
  ∧ ∀ l, instanceofGoogle l s' = instanceofGoogle l s
         ∧ getVisible l s' = getVisible l s
         ∧ getMapTypeId l s' = getMapTypeId l s
         ∧ getStyles l s' = getStyles l s.

(** * Lemmas and theorems *)

(** * Frame lemmas *)

Lemma indexOf_None x (arr : list nat) : indexOf x arr = None ↔ x ∉ arr.
Proof.
  induction arr as [|y r IH]; simpl.
  - split; [intros _; apply not_elem_of_nil | done].
  - destruct (decide (y = x)) as [->|Hne].
    + split; [done | intros H; exfalso; apply H; left].
    + rewrite fmap_None, IH, not_elem_of_cons. intuition congruence.
Qed.

Lemma with_opacity_id ly : with_opacity (l_opacity ly) ly = ly.
Proof. by destruct ly. Qed.

Lemma itemFrame_refl s : itemFrame s s.
Proof. frame_fields. intros l; apply with_opacity_id. Qed.

Lemma itemFrame_trans s1 s2 s3 :
  itemFrame s1 s2 → itemFrame s2 s3 → itemFrame s1 s3.
Proof.
  intros [L1 ????????????????????] [L2 ????????????????????].
  constructor; try congruence.
  intros l. rewrite <- (L1 l). rewrite <- (L2 l). done.
Qed.

Lemma getLayer_storeOpacity l q l' s :
  getLayer l' (storeOpacity l q s)
  = if decide (l = l') then with_opacity q (getLayer l s) else getLayer l' s.
Proof.
  unfold getLayer, storeOpacity. simpl. rewrite lookup_insert.
  by destruct (decide (l = l')) as [->|].
Qed.

Lemma getLayer_emit e l s : getLayer l (emit e s) = getLayer l s.
Proof. done. Qed.

Lemma itemFrame_setOpacity l q s : itemFrame s (setOpacity l q s).
Proof.
  frame_fields. intros l'.
  unfold setOpacity. rewrite getLayer_emit, getLayer_storeOpacity.
  unfold getOpacity.
  destruct (decide (l = l')) as [->|]; by destruct (getLayer _ s).
Qed.

Lemma itemFrame_heraldActivate h s : itemFrame s (heraldActivate h s).
Proof. frame_fields. intros l; apply with_opacity_id. Qed.

Lemma itemFrame_heraldDeactivate h s : itemFrame s (heraldDeactivate h s).
Proof. frame_fields. intros l; apply with_opacity_id. Qed.

Lemma itemFrame_activateItem item s :
  itemFrame s (activateVectorLayerCacheItem_ item s).
Proof.
  unfold activateVectorLayerCacheItem_.
  destruct (_ && _); [|apply itemFrame_refl].
  eapply itemFrame_trans;
    [apply itemFrame_heraldActivate | apply itemFrame_setOpacity].
Qed.

Lemma itemFrame_deactivateItem item s :
  itemFrame s (deactivateVectorLayerCacheItem_ item s).
Proof.
  eapply itemFrame_trans;
    [apply itemFrame_heraldDeactivate | apply itemFrame_setOpacity].
Qed.

Lemma itemFrame_forEach {A} (f : A → State → State) items s :
  (∀ x t, itemFrame t (f x t)) → itemFrame s (forEach f items s).
Proof.
  intros Hf. revert s. induction items as [|x r IH]; intros s; simpl.
  - apply itemFrame_refl.
  - eapply itemFrame_trans; [apply Hf | apply IH].
Qed.

Lemma itemFrame_kind s s' l :
  itemFrame s s' →
  instanceofGoogle l s' = instanceofGoogle l s
  ∧ instanceofVector l s' = instanceofVector l s
  ∧ getVisible l s' = getVisible l s
  ∧ getMapTypeId l s' = getMapTypeId l s
  ∧ getStyles l s' = getStyles l s
  ∧ getSource l s' = getSource l s.
Proof.
  intros [H]. specialize (H l).
  unfold instanceofGoogle, instanceofVector, getVisible, getMapTypeId,
    getStyles, getSource.
  rewrite <- H. done.
Qed.

Lemma itemFrame_forEach_activate items s :
  itemFrame s (forEach activateVectorLayerCacheItem_ items s).
Proof. apply itemFrame_forEach, itemFrame_activateItem. Qed.

Lemma itemFrame_forEach_deactivate items s :
  itemFrame s (forEach deactivateVectorLayerCacheItem_ items s).
Proof. apply itemFrame_forEach, itemFrame_deactivateItem. Qed.

Lemma removeNode_is_Some el ch : el ∈ ch → is_Some (removeNode el ch).
Proof.
  induction ch as [|x r IH]; simpl.
  - intros H. by apply elem_of_nil in H.
  - intros H. destruct (decide (x = el)); [by eexists|].
    apply elem_of_cons in H as [->|H]; [done|].
    destruct (IH H) as [r' ->]. by eexists.
Qed.

Lemma removeChild_is_Some el s :
  el ∈ targetChildren s →
  ∃ ch, removeNode el (targetChildren s) = Some ch
        ∧ removeChild el s = Some (emit (ERemoveChild el) (set_targetChildren ch s)).
Proof.
  intros H. destruct (removeNode_is_Some _ _ H) as [ch Hch].
  exists ch. split; [done|]. unfold removeChild. by rewrite Hch.
Qed.

Lemma appendChild_elem el s : el ∈ targetChildren (appendChild el s).
Proof. simpl. apply elem_of_app. right. apply list_elem_of_singleton. done. Qed.

Lemma activate_blocked s :
  activationBlocked s = true → activateGoogleMaps_ s = Some s.
Proof. unfold activateGoogleMaps_, activationBlocked. by intros ->. Qed.

Lemma activate_unblocked s :
  activationBlocked s = false → Ol3mapEl ∈ targetChildren s →
  ∃ ch, removeNode Ol3mapEl (targetChildren s) = Some ch
    ∧ activateGoogleMaps_ s
      = Some (forEach activateVectorLayerCacheItem_ (vectorCache_ s)
                (mounted ch s)).
Proof.
  intros Hb Hin. unfold activateGoogleMaps_. fold (activationBlocked s).
  rewrite Hb.
  destruct (removeChild_is_Some _ _ Hin) as (ch & Hch & ->).
  exists ch. split; [done|]. reflexivity.
Qed.

Lemma activate_result s :
  domOk s →
  ∃ s', activateGoogleMaps_ s = Some s'
    ∧ (activationBlocked s = true → s' = s)
    ∧ (activationBlocked s = false → googleMapsIsActive_ s' = true)
    ∧ domOk s'.
Proof.
  intros Hd. destruct (activationBlocked s) eqn:Hb.
  - exists s. rewrite activate_blocked by done. done.
  - assert (googleMapsIsActive_ s = false) as Ha.
    { unfold activationBlocked in Hb. by destruct (googleMapsIsActive_ s). }
    unfold domOk in Hd. rewrite Ha in Hd.
    destruct (activate_unblocked s Hb Hd) as (ch & Hch & ->).
    eexists. split; [done|].
    pose proof (itemFrame_forEach_activate (vectorCache_ s) (mounted ch s))
      as Hf.
    split; [done|]. split.
    + intros _. by rewrite (fr_active _ _ Hf).
    + unfold domOk. rewrite (fr_active _ _ Hf), (fr_targetChildren _ _ Hf).
      simpl. apply elem_of_app. right. by apply list_elem_of_singleton.
Qed.

Lemma deactivate_inactive s :
  googleMapsIsActive_ s = false → deactivateGoogleMaps_ s = Some s.
Proof. unfold deactivateGoogleMaps_. by intros ->. Qed.

Lemma deactivate_active s :
  googleMapsIsActive_ s = true → GmapEl ∈ targetChildren s →
  ∃ ch, removeNode GmapEl (targetChildren s) = Some ch
    ∧ deactivateGoogleMaps_ s
      = Some (markActive false
                (forEach deactivateVectorLayerCacheItem_ (vectorCache_ s)
                   (unmounted ch s))).
Proof.
  intros Ha Hin. unfold deactivateGoogleMaps_. rewrite Ha. simpl.
  destruct (removeNode_is_Some _ _ Hin) as [ch Hch].
  exists ch. split; [done|].
  unfold removeChild. simpl. rewrite Hch. reflexivity.
Qed.

Lemma deactivate_result s :
  domOk s →
  ∃ s', deactivateGoogleMaps_ s = Some s'
    ∧ (googleMapsIsActive_ s = false → s' = s)
    ∧ googleMapsIsActive_ s' = false
    ∧ domOk s'.
Proof.
  intros Hd. destruct (googleMapsIsActive_ s) eqn:Ha.
  - unfold domOk in Hd. rewrite Ha in Hd.
    destruct (deactivate_active s Ha Hd) as (ch & Hch & ->).
    eexists. split; [done|]. split; [done|]. split; [done|].
    unfold domOk. simpl.
    rewrite (fr_targetChildren _ _ (itemFrame_forEach_deactivate _ _)).
    simpl. apply elem_of_app. right. by apply list_elem_of_singleton.
  - exists s. rewrite deactivate_inactive by done.
    repeat split; done.
Qed.

(** * The toggle decision *)

Lemma everyUntilFound_Some hit arr w :
  everyUntilFound hit arr None = Some w ↔
  ∃ pre post, arr = pre ++ w :: post ∧ hit w = true
              ∧ ∀ x, x ∈ pre → hit x = false.
Proof.
  induction arr as [|y r IH]; simpl.
  - split; [done|]. intros (pre & post & H & _). by destruct pre.
  - destruct (hit y) eqn:Hy.
    + split.
      * intros [= ->]. exists [], r. split; [done|]. split; [done|].
        intros x Hx. by apply elem_of_nil in Hx.
      * intros (pre & post & H & Hw & Hpre). destruct pre as [|p pre].
        -- simpl in H. congruence.
        -- simpl in H. injection H as -> ->.
           rewrite Hpre in Hy; [done | left].
    + rewrite IH. split.
      * intros (pre & post & -> & Hw & Hpre). exists (y :: pre), post.
        split; [done|]. split; [done|]. intros x Hx.
        apply elem_of_cons in Hx as [->|Hx]; auto.
      * intros (pre & post & H & Hw & Hpre). destruct pre as [|p pre].
        -- simpl in H. injection H as -> ->. congruence.
        -- simpl in H. injection H as -> ->. exists pre, post.
           split; [done|]. split; [done|]. intros x Hx. apply Hpre. by right.
Qed.

Lemma everyUntilFound_None hit arr :
  everyUntilFound hit arr None = None ↔ ∀ x, x ∈ arr → hit x = false.
Proof.
  induction arr as [|y r IH]; simpl.
  - split; [|done]. intros _ x Hx. by apply elem_of_nil in Hx.
  - destruct (hit y) eqn:Hy.
    + split; [done|]. intros H. rewrite H in Hy; [done | left].
    + rewrite IH. split.
      * intros H x Hx. apply elem_of_cons in Hx as [->|Hx]; auto.
      * intros H x Hx. apply H. by right.
Qed.

Lemma findTopMost_Some s w :
  findTopMost s = Some w ↔
  ∃ below above, layers s = below ++ w :: above ∧ isCandidate s w = true
                 ∧ ∀ x, x ∈ above → isCandidate s x = false.
Proof.
  unfold findTopMost. rewrite everyUntilFound_Some. split.
  - intros (pre & post & H & Hw & Hpre).
    exists (reverse post), (reverse pre). split; [|split; [done|]].
    + apply (inj reverse). rewrite H, reverse_app, reverse_cons.
      rewrite !reverse_involutive. by rewrite <- app_assoc.
    + intros x Hx. apply Hpre. by rewrite elem_of_reverse in Hx.
  - intros (below & above & H & Hw & Habove).
    exists (reverse above), (reverse below). split; [|split; [done|]].
    + rewrite H, reverse_app, reverse_cons. by rewrite <- app_assoc.
    + intros x Hx. apply Habove. by rewrite elem_of_reverse in Hx.
Qed.

Lemma findTopMost_None s :
  findTopMost s = None ↔ ∀ x, x ∈ layers s → isCandidate s x = false.
Proof.
  unfold findTopMost. rewrite everyUntilFound_None.
  split; intros H x Hx; apply H; by rewrite elem_of_reverse in *.
Qed.

Lemma toggle_found s w :
  findTopMost s = Some w →
  toggleGoogleMaps_ s = activateGoogleMaps_ (applyWinner w s).
Proof.
  intros H. unfold toggleGoogleMaps_, applyWinner. rewrite H.
  replace (getStyles w (setMapTypeId (getMapTypeId w s) s))
    with (getStyles w s) by done.
  by destruct (getStyles w s).
Qed.

Lemma toggle_not_found s :
  findTopMost s = None → toggleGoogleMaps_ s = deactivateGoogleMaps_ s.
Proof. intros H. unfold toggleGoogleMaps_. by rewrite H. Qed.

Lemma toggleFrame_refl s : toggleFrame s s.
Proof. frame_fields. intros l; apply with_opacity_id. Qed.

Lemma toggleFrame_trans s1 s2 s3 :
  toggleFrame s1 s2 → toggleFrame s2 s3 → toggleFrame s1 s3.
Proof.
  intros [L1 ?????????????] [L2 ?????????????].
  constructor; try congruence.
  intros l. rewrite <- (L1 l). rewrite <- (L2 l). done.
Qed.

Lemma itemFrame_toggleFrame s s' : itemFrame s s' → toggleFrame s s'.
Proof. intros []. by constructor. Qed.

Lemma toggleFrame_attrs s s' l :
  toggleFrame s s' →
  instanceofGoogle l s' = instanceofGoogle l s
  ∧ instanceofVector l s' = instanceofVector l s
  ∧ getVisible l s' = getVisible l s
  ∧ getMapTypeId l s' = getMapTypeId l s
  ∧ getStyles l s' = getStyles l s
  ∧ getSource l s' = getSource l s.
Proof.
  intros [H]. specialize (H l).
  unfold instanceofGoogle, instanceofVector, getVisible, getMapTypeId,
    getStyles, getSource.
  rewrite <- H. done.
Qed.

Lemma toggleFrame_isCandidate s s' l :
  toggleFrame s s' → isCandidate s' l = isCandidate s l.
Proof.
  intros H. unfold isCandidate.
  destruct (toggleFrame_attrs s s' l H) as (-> & _ & -> & _).
  by rewrite (tf_googleLayers _ _ H).
Qed.

Lemma everyUntilFound_ext hit hit' arr found :
  (∀ x, x ∈ arr → hit x = hit' x) →
  everyUntilFound hit arr found = everyUntilFound hit' arr found.
Proof.
  induction arr as [|y r IH]; simpl; [done|]. intros H.
  rewrite <- (H y) by left. destruct (hit y); [done|].
  apply IH. intros x Hx. apply H. by right.
Qed.

Lemma toggleFrame_findTopMost s s' :
  toggleFrame s s' → findTopMost s' = findTopMost s.
Proof.
  intros H. unfold findTopMost. rewrite (tf_layers _ _ H).
  apply everyUntilFound_ext. intros x _. by apply toggleFrame_isCandidate.
Qed.

Lemma toggleFrame_applyWinner w s : toggleFrame s (applyWinner w s).
Proof. frame_fields. intros l; apply with_opacity_id. Qed.

Lemma toggleFrame_mounted ch s : toggleFrame s (mounted ch s).
Proof. frame_fields. intros l; apply with_opacity_id. Qed.

Lemma toggleFrame_unmounted ch s : toggleFrame s (unmounted ch s).
Proof. frame_fields. intros l; apply with_opacity_id. Qed.

Lemma toggleFrame_markActive b s : toggleFrame s (markActive b s).
Proof. frame_fields. intros l; apply with_opacity_id. Qed.

Lemma activate_frame s s' :
  activateGoogleMaps_ s = Some s' → toggleFrame s s'.
Proof.
  unfold activateGoogleMaps_. destruct (_ || _).
  - intros [= <-]. apply toggleFrame_refl.
  - unfold removeChild.
    destruct (removeNode Ol3mapEl (targetChildren s)) as [ch|]; [|done].
    simpl. intros [= <-].
    eapply toggleFrame_trans; [apply (toggleFrame_mounted ch)|].
    apply itemFrame_toggleFrame, itemFrame_forEach_activate.
Qed.

Lemma deactivate_frame s s' :
  deactivateGoogleMaps_ s = Some s' → toggleFrame s s'.
Proof.
  unfold deactivateGoogleMaps_. destruct (negb _).
  - intros [= <-]. apply toggleFrame_refl.
  - unfold removeChild. simpl.
    destruct (removeNode GmapEl (targetChildren s)) as [ch|]; [|done].
    simpl. intros [= <-].
    eapply toggleFrame_trans; [apply (toggleFrame_unmounted ch)|].
    eapply toggleFrame_trans; [|apply toggleFrame_markActive].
    apply itemFrame_toggleFrame, itemFrame_forEach_deactivate.
Qed.

Lemma toggle_frame s s' :
  toggleGoogleMaps_ s = Some s' → toggleFrame s s'.
Proof.
  destruct (findTopMost s) as [w|] eqn:Hw.
  - rewrite (toggle_found s w Hw). intros H.
    eapply toggleFrame_trans;
      [apply toggleFrame_applyWinner | by apply activate_frame].
  - rewrite (toggle_not_found s Hw). apply deactivate_frame.
Qed.

Lemma wf_frame s s' : wf s → toggleFrame s s' → domOk s' → wf s'.
Proof.
  intros [] Hf Hd. constructor; try done.
  - by rewrite (tf_googleCache _ _ Hf), (tf_googleLayers _ _ Hf).
  - by rewrite (tf_vectorCache _ _ Hf), (tf_vectorLayers _ _ Hf).
  - intros l. rewrite (tf_googleLayers _ _ Hf).
    destruct (toggleFrame_attrs s s' l Hf) as (-> & _). auto.
  - intros l. rewrite (tf_vectorLayers _ _ Hf).
    destruct (toggleFrame_attrs s s' l Hf) as (-> & _). auto.
Qed.

Lemma domOk_applyWinner w s : domOk s → domOk (applyWinner w s).
Proof. done. Qed.

Lemma toggle_total s :
  domOk s → ∃ s', toggleGoogleMaps_ s = Some s' ∧ domOk s'.
Proof.
  intros Hd. destruct (findTopMost s) as [w|] eqn:Hw.
  - rewrite (toggle_found s w Hw).
    destruct (activate_result (applyWinner w s)) as (s' & -> & _ & _ & Hd');
      [done|]. by exists s'.
  - rewrite (toggle_not_found s Hw).
    destruct (deactivate_result s Hd) as (s' & -> & _ & _ & Hd').
    by exists s'.
Qed.

Lemma toggle_wf s :
  wf s → ∃ s', toggleGoogleMaps_ s = Some s' ∧ wf s' ∧ toggleFrame s s'.
Proof.
  intros Hwf. destruct (toggle_total s (wf_dom _ Hwf)) as (s' & Ht & Hd).
  exists s'. split; [done|]. pose proof (toggle_frame _ _ Ht) as Hf.
  split; [|done]. by apply (wf_frame s).
Qed.

(** * Watching and unwatching keep states well formed *)

Lemma indexOf_Some x (arr : list nat) i :
  indexOf x arr = Some i → arr !! i = Some x ∧ ∀ j, j < i → arr !! j ≠ Some x.
Proof.
  revert i. induction arr as [|y r IH]; intros i; simpl; [done|].
  destruct (decide (y = x)) as [->|Hne].
  - intros [= <-]. split; [done|]. intros j Hj. lia.
  - destruct (indexOf x r) as [k|] eqn:Hk; simpl; [|done].
    intros [= <-]. destruct (IH k eq_refl) as [H1 H2]. split; [done|].
    intros [|j] Hj; simpl; [congruence|]. apply H2. lia.
Qed.

Lemma indexOf_elem x (arr : list nat) :
  x ∈ arr → ∃ i, indexOf x arr = Some i.
Proof.
  intros H. destruct (indexOf x arr) as [i|] eqn:Hi; [by eexists|].
  by apply indexOf_None in Hi.
Qed.

Lemma indexOf_app_l x (arr rest : list nat) i :
  indexOf x arr = Some i → indexOf x (arr ++ rest) = Some i.
Proof.
  revert i. induction arr as [|y r IH]; intros i; simpl; [done|].
  destruct (decide (y = x)); [done|].
  destruct (indexOf x r) as [k|]; simpl; [|done].
  intros [= <-]. by rewrite (IH k eq_refl).
Qed.

(** Anything that keeps the arrays, the mount and the layer classes keeps
    a state well formed. *)
Lemma wf_preserved s s' :
  wf s →
  googleLayers_ s' = googleLayers_ s → googleCache_ s' = googleCache_ s →
  vectorLayers_ s' = vectorLayers_ s → vectorCache_ s' = vectorCache_ s →
  googleMapsIsActive_ s' = googleMapsIsActive_ s →
  targetChildren s' = targetChildren s →
  (∀ l, instanceofGoogle l s' = instanceofGoogle l s) →
  wf s'.
Proof.
  intros [] Hgl Hgc Hvl Hvc Ha Ht Hk.
  constructor; rewrite ?Hgl, ?Hgc, ?Hvl, ?Hvc; try done.
  - unfold domOk. by rewrite Ha, Ht.
  - intros l. rewrite Hk. auto.
  - intros l. rewrite Hk. auto.
Qed.

Lemma watchVectorLayer_arrays l s :
  is_Some (getSource l s) →
  vectorLayers_ (watchVectorLayer_ l s) = vectorLayers_ s ++ [l]
  ∧ vectorCache_ (watchVectorLayer_ l s)
    = vectorCache_ s ++ [newVectorItem l s]
  ∧ googleLayers_ (watchVectorLayer_ l s) = googleLayers_ s
  ∧ googleCache_ (watchVectorLayer_ l s) = googleCache_ s
  ∧ googleMapsIsActive_ (watchVectorLayer_ l s) = googleMapsIsActive_ s
  ∧ targetChildren (watchVectorLayer_ l s) = targetChildren s
  ∧ watchVector_ (watchVectorLayer_ l s) = watchVector_ s
  ∧ layers (watchVectorLayer_ l s) = layers s.
Proof.
  intros [src Hsrc]. unfold watchVectorLayer_. rewrite Hsrc.
  cbv zeta.
  match goal with |- context [activateVectorLayerCacheItem_ ?i ?t] =>
    pose proof (itemFrame_activateItem i t) as Hf;
    set (s6 := activateVectorLayerCacheItem_ i t) in *
  end.
  simpl.
  rewrite (fr_vectorLayers _ _ Hf), (fr_vectorCache _ _ Hf),
    (fr_googleLayers _ _ Hf), (fr_googleCache _ _ Hf), (fr_active _ _ Hf),
    (fr_targetChildren _ _ Hf), (fr_watchVector _ _ Hf), (fr_layers _ _ Hf).
  destruct (l_gmStyle (getLayer l _)); done.
Qed.

Lemma with_visible_opacity_id ly :
  with_visible (l_visible ly) (with_opacity (l_opacity ly) ly) = ly.
Proof. by destruct ly. Qed.

Lemma attrFrame_refl s : attrFrame s s.
Proof. constructor; [|done]. intros l. apply with_visible_opacity_id. Qed.

Lemma attrFrame_trans s1 s2 s3 :
  attrFrame s1 s2 → attrFrame s2 s3 → attrFrame s1 s3.
Proof.
  intros [L1 ?] [L2 ?]. constructor; [|congruence].
  intros l. rewrite <- (L1 l). rewrite <- (L2 l). done.
Qed.

Lemma attrFrame_objects s s' :
  objects s' = objects s → watchVector_ s' = watchVector_ s → attrFrame s s'.
Proof.
  intros Ho Hw. constructor; [|done]. intros l.
  unfold getLayer at 1. rewrite Ho. apply with_visible_opacity_id.
Qed.

Lemma toggleFrame_attrFrame s s' : toggleFrame s s' → attrFrame s s'.
Proof.
  intros H. constructor; [|apply (tf_watchVector _ _ H)].
  intros l. pose proof (tf_layer _ _ H l) as Hl.
  rewrite Hl. unfold getVisible. by destruct (getLayer l s).
Qed.

Lemma itemFrame_attrFrame s s' : itemFrame s s' → attrFrame s s'.
Proof. intros H. by apply toggleFrame_attrFrame, itemFrame_toggleFrame. Qed.

Lemma attrFrame_attrs s s' l :
  attrFrame s s' →
  instanceofGoogle l s' = instanceofGoogle l s
  ∧ instanceofVector l s' = instanceofVector l s
  ∧ getMapTypeId l s' = getMapTypeId l s
  ∧ getStyles l s' = getStyles l s
  ∧ getSource l s' = getSource l s.
Proof.
  intros [H _]. specialize (H l).
  unfold instanceofGoogle, instanceofVector, getMapTypeId, getStyles,
    getSource.
  rewrite <- H. done.
Qed.

Lemma attrFrame_storeOpacity l q s : attrFrame s (storeOpacity l q s).
Proof.
  constructor; [|done]. intros l'. rewrite getLayer_storeOpacity.
  unfold getVisible, getOpacity.
  destruct (decide (l = l')) as [->|]; by destruct (getLayer _ s).
Qed.

Lemma getLayer_storeVisible l b l' s :
  getLayer l' (storeVisible l b s)
  = if decide (l = l') then with_visible b (getLayer l s) else getLayer l' s.
Proof.
  unfold getLayer, storeVisible. simpl. rewrite lookup_insert.
  by destruct (decide (l = l')) as [->|].
Qed.

Lemma attrFrame_storeVisible l b s : attrFrame s (storeVisible l b s).
Proof.
  constructor; [|done]. intros l'. rewrite getLayer_storeVisible.
  unfold getVisible, getOpacity.
  destruct (decide (l = l')) as [->|]; by destruct (getLayer _ s).
Qed.

Lemma watchVectorLayer_attrFrame l s : attrFrame s (watchVectorLayer_ l s).
Proof.
  unfold watchVectorLayer_. destruct (getSource l s); [|apply attrFrame_refl].
  cbv zeta.
  match goal with |- context [activateVectorLayerCacheItem_ ?i ?t] =>
    pose proof (itemFrame_attrFrame _ _ (itemFrame_activateItem i t)) as Hf;
    set (s6 := activateVectorLayerCacheItem_ i t) in *
  end.
  eapply attrFrame_trans; [|eapply attrFrame_trans; [apply Hf|]].
  - apply attrFrame_objects; by destruct (l_gmStyle _).
  - by apply attrFrame_objects.
Qed.

Lemma watchVectorLayer_wf l s :
  wf s → instanceofGoogle l s = false → wf (watchVectorLayer_ l s).
Proof.
  intros Hwf Hk. destruct (getSource l s) as [src|] eqn:Hsrc.
  - destruct (watchVectorLayer_arrays l s)
      as (Hvl & Hvc & Hgl & Hgc & Ha & Ht & _); [by eexists|].
    pose proof (watchVectorLayer_attrFrame l s) as Hf.
    destruct Hwf. constructor.
    + by rewrite Hgl, Hgc.
    + rewrite Hvl, Hvc, fmap_app, wf_vector0. done.
    + unfold domOk. by rewrite Ha, Ht.
    + intros x. rewrite Hgl.
      destruct (attrFrame_attrs _ _ x Hf) as (-> & _). auto.
    + intros x. rewrite Hvl.
      destruct (attrFrame_attrs _ _ x Hf) as (-> & _).
      intros Hx. apply elem_of_app in Hx as [Hx|Hx]; [auto|].
      by apply list_elem_of_singleton in Hx as ->.
  - unfold watchVectorLayer_. by rewrite Hsrc.
Qed.

Lemma cache_lookup_aligned {A} (f : A → nat) (cache : list A) arr l i :
  f <$> cache = arr → indexOf l arr = Some i →
  ∃ item, cache !! i = Some item ∧ f item = l.
Proof.
  intros <- Hi. apply indexOf_Some in Hi as [Hi _].
  rewrite list_lookup_fmap in Hi.
  destruct (cache !! i) as [item|]; [|done].
  exists item. split; [done|]. simpl in Hi. congruence.
Qed.

Lemma unwatchVectorLayer_found l i item s :
  indexOf l (vectorLayers_ s) = Some i → vectorCache_ s !! i = Some item →
  unwatchVectorLayer_ l s = Some (unwatchedVector l i item s).
Proof.
  intros Hi Hitem. unfold unwatchVectorLayer_. rewrite Hi. cbv zeta.
  change (vectorCache_ (set_vectorLayers_ _ s)) with (vectorCache_ s).
  rewrite Hitem. reflexivity.
Qed.

Lemma getOpacity_setOpacity l q s : getOpacity l (setOpacity l q s) = q.
Proof.
  unfold getOpacity, setOpacity. rewrite getLayer_emit, getLayer_storeOpacity.
  by rewrite decide_True.
Qed.

Lemma attrFrame_setOpacity l q s : attrFrame s (setOpacity l q s).
Proof. apply itemFrame_attrFrame, itemFrame_setOpacity. Qed.

Lemma unwatchedVector_attrFrame l i item s :
  attrFrame s (unwatchedVector l i item s).
Proof.
  unfold unwatchedVector. cbv zeta.
  set (s4 := heraldDeactivate _ _).
  apply (attrFrame_trans s s4); [by apply attrFrame_objects|].
  apply (attrFrame_trans s4 (setOpacity l (v_opacity item) s4));
    [apply attrFrame_setOpacity | by apply attrFrame_objects].
Qed.

Lemma unwatchedVector_arrays l i item s :
  vectorLayers_ (unwatchedVector l i item s) = delete i (vectorLayers_ s)
  ∧ vectorCache_ (unwatchedVector l i item s) = delete i (vectorCache_ s)
  ∧ googleLayers_ (unwatchedVector l i item s) = googleLayers_ s
  ∧ googleCache_ (unwatchedVector l i item s) = googleCache_ s
  ∧ googleMapsIsActive_ (unwatchedVector l i item s) = googleMapsIsActive_ s
  ∧ targetChildren (unwatchedVector l i item s) = targetChildren s
  ∧ layers (unwatchedVector l i item s) = layers s.
Proof. repeat split; reflexivity. Qed.

Lemma unwatchVectorLayer_wf l s :
  wf s → ∃ s', unwatchVectorLayer_ l s = Some s' ∧ wf s' ∧ attrFrame s s'.
Proof.
  intros Hwf.
  destruct (indexOf l (vectorLayers_ s)) as [i|] eqn:Hi.
  - destruct (cache_lookup_aligned _ _ _ _ _ (wf_vector _ Hwf) Hi)
      as (item & Hitem & _).
    rewrite (unwatchVectorLayer_found l i item s Hi Hitem).
    eexists. split; [done|].
    pose proof (unwatchedVector_attrFrame l i item s) as Hf.
    split; [|done].
    destruct (unwatchedVector_arrays l i item s)
      as (Hvl & Hvc & Hgl & Hgc & Ha & Ht & _).
    destruct Hwf as [Hg Hv Hd Hgk Hvk].
    constructor; rewrite ?Hvl, ?Hvc, ?Hgl, ?Hgc.
    + done.
    + by rewrite list_fmap_delete, Hv.
    + unfold domOk. by rewrite Ha, Ht.
    + intros x. destruct (attrFrame_attrs _ _ x Hf) as (-> & _). auto.
    + intros x. destruct (attrFrame_attrs _ _ x Hf) as (-> & _).
      intros Hx. apply Hvk. by apply list_elem_of_delete_inv in Hx.
  - exists s. unfold unwatchVectorLayer_. rewrite Hi.
    split; [done|]. split; [done | apply attrFrame_refl].
Qed.

Lemma toggle_ok s :
  wf s → ∃ s', toggleGoogleMaps_ s = Some s' ∧ wf s' ∧ attrFrame s s'.
Proof.
  intros Hwf. destruct (toggle_wf s Hwf) as (s' & Ht & Hwf' & Hf).
  exists s'. split; [done|]. split; [done|]. by apply toggleFrame_attrFrame.
Qed.

Lemma watchGoogleLayer_eq l s :
  watchGoogleLayer_ l s = toggleGoogleMaps_ (watchedGoogle l s).
Proof.
  unfold watchGoogleLayer_, watchedGoogle. cbv zeta.
  by destruct (on l HToggle _).
Qed.

Lemma findListener_Some l h s x :
  findListener l h s = Some x →
  x ∈ listeners s ∧ lk_target x = l
  ∧ lk_handler x = HToggle ∧ h = HToggle.
Proof.
  unfold findListener. intros H. apply find_some in H as [Hin Hx].
  apply andb_true_iff in Hx as [Ht Hf].
  apply bool_decide_eq_true in Ht.
  split; [by apply list_elem_of_In|]. split; [done|].
  by destruct (lk_handler x), h.
Qed.

Lemma findListener_None l s :
  findListener l HToggle s = None ↔
  ∀ x, x ∈ listeners s → lk_target x = l → lk_handler x ≠ HToggle.
Proof.
  unfold findListener. split.
  - intros H x Hin Ht Hh.
    pose proof (find_none _ _ H x (proj1 (list_elem_of_In _ _) Hin)) as Hx.
    simpl in Hx. rewrite Hh, Ht, bool_decide_eq_true_2 in Hx; done.
  - intros H.
    destruct (List.find _ (listeners s)) as [x|] eqn:Hf; [|done].
    apply find_some in Hf as [Hin Hx].
    apply andb_true_iff in Hx as [Ht Hs].
    apply bool_decide_eq_true in Ht.
    destruct (H x (proj2 (list_elem_of_In _ _) Hin) Ht).
    by destruct (lk_handler x).
Qed.

(** [layer.on] when no toggle listener is registered on the layer. *)
Lemma watchedGoogle_fresh l s :
  findListener l HToggle s = None →
  watchedGoogle l s
  = set_googleCache_ (googleCache_ s ++ [mkGoogleLayerCache l [nextId s]])
      (listen (nextId s) l HToggle
         (set_googleLayers_ (googleLayers_ s ++ [l]) s)).
Proof.
  intros H. unfold watchedGoogle, on. cbv zeta.
  change (findListener l HToggle (set_googleLayers_ _ s))
    with (findListener l HToggle s).
  by rewrite H.
Qed.

(** [layer.on] when the toggle listener [x] is registered on the layer. *)
Lemma watchedGoogle_shared l s x :
  findListener l HToggle s = Some x →
  watchedGoogle l s
  = set_googleCache_ (googleCache_ s ++ [mkGoogleLayerCache l [lk_key x]])
      (emit (EListen (lk_key x) l)
         (set_googleLayers_ (googleLayers_ s ++ [l]) s)).
Proof.
  intros H. unfold watchedGoogle, on. cbv zeta.
  change (findListener l HToggle (set_googleLayers_ _ s))
    with (findListener l HToggle s).
  by rewrite H.
Qed.

(** Either way the layer is pushed on the tracked array and a cache item
    with one key on the cache. *)
Lemma watchedGoogle_eq l s :
  ∃ k ls n,
    watchedGoogle l s
    = set_googleCache_ (googleCache_ s ++ [mkGoogleLayerCache l [k]])
        (emit (EListen k l)
           (set_listeners ls
              (set_nextId n
                 (set_googleLayers_ (googleLayers_ s ++ [l]) s)))).
Proof.
  destruct (findListener l HToggle s) as [x|] eqn:Hf.
  - rewrite (watchedGoogle_shared l s x Hf).
    exists (lk_key x), (listeners s), (nextId s). by destruct s.
  - rewrite (watchedGoogle_fresh l s Hf). by eexists _, _, _.
Qed.

Lemma unwatchGoogleLayer_found l i item s :
  indexOf l (googleLayers_ s) = Some i → googleCache_ s !! i = Some item →
  unwatchGoogleLayer_ l s = toggleGoogleMaps_ (unwatchedGoogle i item s).
Proof.
  intros Hi Hitem. unfold unwatchGoogleLayer_. rewrite Hi. cbv zeta.
  change (googleCache_ (set_googleLayers_ _ s)) with (googleCache_ s).
  rewrite Hitem. reflexivity.
Qed.

Lemma unwatchGoogleLayer_absent l s :
  indexOf l (googleLayers_ s) = None → unwatchGoogleLayer_ l s = Some s.
Proof. intros Hi. unfold unwatchGoogleLayer_. by rewrite Hi. Qed.

Lemma unwatchVectorLayer_absent l s :
  indexOf l (vectorLayers_ s) = None → unwatchVectorLayer_ l s = Some s.
Proof. intros Hi. unfold unwatchVectorLayer_. by rewrite Hi. Qed.

Lemma watchGoogleLayer_ok l s :
  wf s → instanceofGoogle l s = true →
  ∃ s', watchGoogleLayer_ l s = Some s' ∧ wf s' ∧ attrFrame s s'.
Proof.
  intros Hwf Hk. rewrite watchGoogleLayer_eq.
  destruct (watchedGoogle_eq l s) as (k & ls & n & Heq).
  assert (wf (watchedGoogle l s)) as Hwf1.
  { rewrite Heq. destruct Hwf as [Hg Hv Hd Hgk Hvk]. constructor.
    - change (g_layer <$> (googleCache_ s ++ [mkGoogleLayerCache l [k]])
              = googleLayers_ s ++ [l]).
      by rewrite fmap_app, Hg.
    - exact Hv.
    - exact Hd.
    - intros x Hx.
      change (x ∈ googleLayers_ s ++ [l]) in Hx.
      change (instanceofGoogle x s = true).
      apply elem_of_app in Hx as [Hx|Hx]; [by apply Hgk|].
      by apply list_elem_of_singleton in Hx as ->.
    - exact Hvk. }
  destruct (toggle_ok _ Hwf1) as (s' & Ht & Hwf' & Hf).
  exists s'. split; [done|]. split; [done|].
  apply (attrFrame_trans s (watchedGoogle l s)); [|done].
  rewrite Heq. by apply attrFrame_objects.
Qed.

Lemma unwatchGoogleLayer_ok l s :
  wf s → ∃ s', unwatchGoogleLayer_ l s = Some s' ∧ wf s' ∧ attrFrame s s'.
Proof.
  intros Hwf.
  destruct (indexOf l (googleLayers_ s)) as [i|] eqn:Hi.
  - destruct (cache_lookup_aligned _ _ _ _ _ (wf_google _ Hwf) Hi)
      as (item & Hitem & _).
    rewrite (unwatchGoogleLayer_found l i item s Hi Hitem).
    assert (wf (unwatchedGoogle i item s)) as Hwf1.
    { destruct Hwf as [Hg Hv Hd Hgk Hvk]. constructor.
      - change (g_layer <$> delete i (googleCache_ s)
                = delete i (googleLayers_ s)).
        by rewrite list_fmap_delete, Hg.
      - exact Hv.
      - exact Hd.
      - intros x Hx. change (x ∈ delete i (googleLayers_ s)) in Hx.
        change (instanceofGoogle x s = true).
        apply Hgk. by apply list_elem_of_delete_inv in Hx.
      - exact Hvk. }
    destruct (toggle_ok _ Hwf1) as (s' & Ht & Hwf' & Hf).
    exists s'. split; [done|]. split; [done|].
    apply (attrFrame_trans s (unwatchedGoogle i item s)); [|done].
    by apply attrFrame_objects.
  - rewrite (unwatchGoogleLayer_absent l s Hi). exists s.
    split; [done|]. split; [done | apply attrFrame_refl].
Qed.

Lemma watchLayer_ok l s :
  wf s → ∃ s', watchLayer_ l s = Some s' ∧ wf s' ∧ attrFrame s s'.
Proof.
  intros Hwf. unfold watchLayer_.
  destruct (instanceofGoogle l s) eqn:Hg.
  - by apply watchGoogleLayer_ok.
  - destruct (_ && _); eexists; (split; [reflexivity|]).
    + split; [by apply watchVectorLayer_wf|].
      apply watchVectorLayer_attrFrame.
    + split; [done | apply attrFrame_refl].
Qed.

Lemma unwatchLayer_ok l s :
  wf s → ∃ s', unwatchLayer_ l s = Some s' ∧ wf s' ∧ attrFrame s s'.
Proof.
  intros Hwf. unfold unwatchLayer_.
  destruct (instanceofGoogle l s) eqn:Hg.
  - by apply unwatchGoogleLayer_ok.
  - destruct (_ && _); [by apply unwatchVectorLayer_wf|].
    exists s. split; [done|]. split; [done | apply attrFrame_refl].
Qed.

Lemma handleVisible_ok item s :
  wf s →
  wf (handleVectorLayerVisibleChange_ item s)
  ∧ attrFrame s (handleVectorLayerVisibleChange_ item s).
Proof.
  intros Hwf.
  assert (itemFrame s (handleVectorLayerVisibleChange_ item s)) as Hf.
  { unfold handleVectorLayerVisibleChange_.
    destruct (getVisible _ _);
      [apply itemFrame_activateItem | apply itemFrame_deactivateItem]. }
  split; [|by apply itemFrame_attrFrame].
  apply (wf_frame s); [done | by apply itemFrame_toggleFrame|].
  unfold domOk. rewrite (fr_active _ _ Hf), (fr_targetChildren _ _ Hf).
  apply Hwf.
Qed.

Lemma dispatch_ok ls s :
  wf s → ∃ s', dispatch ls s = Some s' ∧ wf s' ∧ attrFrame s s'.
Proof.
  revert s. induction ls as [|x r IH]; intros s Hwf; simpl.
  - exists s. split; [done|]. split; [done | apply attrFrame_refl].
  - destruct (lk_handler x) as [|item]; simpl.
    + destruct (toggle_ok s Hwf) as (s1 & -> & Hwf1 & Hf1). simpl.
      destruct (IH s1 Hwf1) as (s' & -> & Hwf' & Hf').
      exists s'. split; [done|]. split; [done|].
      by eapply attrFrame_trans.
    + destruct (handleVisible_ok item s Hwf) as [Hwf1 Hf1].
      destruct (IH _ Hwf1) as (s' & -> & Hwf' & Hf').
      exists s'. split; [done|]. split; [done|].
      by eapply attrFrame_trans.
Qed.

Lemma wf_attr s s' :
  wf s → attrFrame s s' →
  googleLayers_ s' = googleLayers_ s → googleCache_ s' = googleCache_ s →
  vectorLayers_ s' = vectorLayers_ s → vectorCache_ s' = vectorCache_ s →
  googleMapsIsActive_ s' = googleMapsIsActive_ s →
  targetChildren s' = targetChildren s →
  wf s'.
Proof.
  intros Hwf Hf ??????. apply (wf_preserved s); try done.
  intros l. by destruct (attrFrame_attrs _ _ l Hf) as (-> & _).
Qed.

Lemma setVisible_ok l b s :
  wf s → ∃ s', setVisible l b s = Some s' ∧ wf s' ∧ attrFrame s s'.
Proof.
  intros Hwf. unfold setVisible. destruct (decide _).
  - exists s. split; [done|]. split; [done | apply attrFrame_refl].
  - pose proof (attrFrame_storeVisible l b s) as Hf.
    assert (wf (storeVisible l b s)) as Hwf1 by by apply (wf_attr s).
    destruct (dispatch_ok (filter (λ x, lk_target x = l) (listeners s))
                _ Hwf1) as (s' & Hd & Hwf' & Hf').
    exists s'. split; [done|]. split; [done|]. by eapply attrFrame_trans.
Qed.

Lemma firePostrender_ok s :
  wf s → ∃ s', firePostrender s = Some s' ∧ wf s' ∧ attrFrame s s'.
Proof.
  intros Hwf. unfold firePostrender, onPostrender.
  destruct (oncePostrender s).
  - set (t := set_ol3mapIsRenderered_ true (set_oncePostrender false s)).
    destruct (toggle_ok t) as (s' & Ht & Hwf' & Hf).
    + apply (wf_preserved s); done.
    + exists s'. split; [done|]. split; [done|].
      apply (attrFrame_trans s t); [by apply attrFrame_objects | done].
  - exists s. split; [done|]. split; [done | apply attrFrame_refl].
Qed.

Lemma changeCenter_ok c s :
  wf s → ∃ s', changeCenter c s = Some s' ∧ wf s' ∧ attrFrame s s'.
Proof.
  intros Hwf. unfold changeCenter, onChangeCenter. cbv zeta.
  destruct (onceCenter (set_center c s)).
  - set (t := set_oncePostrender true (set_onceCenter false (set_center c s))).
    destruct (toggle_ok t) as (s' & Ht & Hwf' & Hf).
    + apply (wf_preserved s); done.
    + exists s'. split; [done|]. split; [done|].
      apply (attrFrame_trans s t); [by apply attrFrame_objects | done].
  - eexists. split; [done|]. split.
    + apply (wf_preserved s); done.
    + by apply attrFrame_objects.
Qed.

Lemma step_ok e s :
  wf s → ∃ s', step e s = Some s' ∧ wf s' ∧ attrFrame s s'.
Proof.
  intros Hwf. destruct e as [l|l|l|l|l b|l q| |c]; simpl.
  - by apply watchLayer_ok.
  - by apply unwatchLayer_ok.
  - unfold addLayer, handleLayersAdd_.
    set (t := set_layers (layers s ++ [l]) s).
    destruct (watchLayer_ok l t) as (s' & Hw & Hwf' & Hf).
    + apply (wf_preserved s); done.
    + exists s'. split; [done|]. split; [done|].
      apply (attrFrame_trans s t); [by apply attrFrame_objects | done].
  - unfold removeLayer, handleLayersRemove_.
    destruct (indexOf l (layers s)) as [i|].
    + set (t := set_layers (delete i (layers s)) s).
      destruct (unwatchLayer_ok l t) as (s' & Hw & Hwf' & Hf).
      * apply (wf_preserved s); done.
      * exists s'. split; [done|]. split; [done|].
        apply (attrFrame_trans s t); [by apply attrFrame_objects | done].
    + exists s. split; [done|]. split; [done | apply attrFrame_refl].
  - by apply setVisible_ok.
  - eexists. split; [done|].
    pose proof (attrFrame_storeOpacity l q s) as Hf.
    split; [|done]. by apply (wf_attr s).
  - by apply firePostrender_ok.
  - by apply changeCenter_ok.
Qed.

Lemma run_ok es s :
  wf s → ∃ s', run es s = Some s' ∧ wf s' ∧ attrFrame s s'.
Proof.
  revert s. induction es as [|e r IH]; intros s Hwf; simpl.
  - exists s. split; [done|]. split; [done | apply attrFrame_refl].
  - destruct (step_ok e s Hwf) as (s1 & -> & Hwf1 & Hf1). simpl.
    destruct (IH s1 Hwf1) as (s' & -> & Hwf' & Hf').
    exists s'. split; [done|]. split; [done|]. by eapply attrFrame_trans.
Qed.

Lemma construct_wf objs lyrs c wv : wf (construct objs lyrs c wv).
Proof.
  constructor; simpl; try done.
  - unfold domOk. simpl. left.
  - intros l H. by apply elem_of_nil in H.
  - intros l H. by apply elem_of_nil in H.
Qed.

Lemma exActive_run : run exActiveTrace exInitial = Some exActive.
Proof. vm_compute. reflexivity. Qed.

Lemma wf_of_run es objs lyrs c wv s :
  run es (construct objs lyrs c wv) = Some s → wf s.
Proof.
  intros H. destruct (run_ok es _ (construct_wf objs lyrs c wv))
    as (s' & Hr & Hwf & _). congruence.
Qed.

Lemma exActive_wf : wf exActive.
Proof. exact (wf_of_run _ _ _ _ _ _ exActive_run). Qed.

(** C9.  Unwatching a layer that is not in the tracked list of its kind
    is a silent no-op, for the Google cache and for the vector cache: the
    call returns the state it was given, so no cache or tracked list
    changes, no listener is released, no data object is detached, no
    source herald is deactivated, no opacity is written and nothing is
    logged. *)
Theorem unwatch_untracked_is_noop (s : State) (layer : nat) :
  (layer ∉ googleLayers_ s → unwatchGoogleLayer_ layer s = Some s)
  ∧ (layer ∉ vectorLayers_ s → unwatchVectorLayer_ layer s = Some s)
  ∧ (layer ∉ googleLayers_ s → layer ∉ vectorLayers_ s →
     unwatchLayer_ layer s = Some s).
Proof.
  split; [|split].
  - intros H. by apply unwatchGoogleLayer_absent, indexOf_None.
  - intros H. by apply unwatchVectorLayer_absent, indexOf_None.
  - intros Hg Hv. unfold unwatchLayer_.
    destruct (instanceofGoogle layer s);
      [by apply unwatchGoogleLayer_absent, indexOf_None|].
    destruct (_ && _); [|done].
    by apply unwatchVectorLayer_absent, indexOf_None.
Qed.

Lemma unwatch_untracked_is_noop_witness :
  (3 ∉ googleLayers_ exActive) ∧ (3 ∉ vectorLayers_ exActive)
  ∧ unwatchGoogleLayer_ 3 exActive = Some exActive
  ∧ unwatchVectorLayer_ 3 exActive = Some exActive
  ∧ unwatchLayer_ 3 exActive = Some exActive.
Proof.
  assert (3 ∉ googleLayers_ exActive) as Hg
    by (apply indexOf_None; vm_compute; reflexivity).
  assert (3 ∉ vectorLayers_ exActive) as Hv
    by (apply indexOf_None; vm_compute; reflexivity).
  destruct (unwatch_untracked_is_noop exActive 3) as (H1 & H2 & H3).
  repeat split; auto.
Defined.

(** C7.  [activateGoogleMaps_] and [deactivateGoogleMaps_] are
    idempotent: a second call in a row returns the state the first one
    produced (mount, active flag, per-item effects and log included); a
    call of activate while active, or of deactivate while inactive, is a
    no-op. *)
Theorem activate_deactivate_idempotent (s : State) :
  domOk s →
  ∃ a d,
    activateGoogleMaps_ s = Some a ∧ activateGoogleMaps_ a = Some a
    ∧ deactivateGoogleMaps_ s = Some d ∧ deactivateGoogleMaps_ d = Some d
    ∧ (googleMapsIsActive_ s = true → a = s)
    ∧ (googleMapsIsActive_ s = false → d = s).
Proof.
  intros Hd.
  destruct (activate_result s Hd) as (a & Ha & Hab & Hau & _).
  destruct (deactivate_result s Hd) as (d & Hde & Hdi & Hdf & _).
  exists a, d. repeat split; try done.
  - apply activate_blocked. destruct (activationBlocked s) eqn:Hb.
    + by rewrite (Hab eq_refl).
    + unfold activationBlocked. by rewrite (Hau eq_refl).
  - by apply deactivate_inactive.
  - intros Hact. apply Hab. unfold activationBlocked. by rewrite Hact.
Qed.

Lemma exIdle_run :
  run (exActiveTrace ++ [EvSetVisible 2 false; EvSetVisible 1 false])
    exInitial = Some exIdle.
Proof. vm_compute. reflexivity. Qed.

Lemma exIdle_wf : wf exIdle.
Proof. exact (wf_of_run _ _ _ _ _ _ exIdle_run). Qed.

Lemma activate_deactivate_idempotent_witness :
  domOk exIdle
  ∧ ∃ a d,
      activateGoogleMaps_ exIdle = Some a ∧ activateGoogleMaps_ a = Some a
      ∧ deactivateGoogleMaps_ exIdle = Some d
      ∧ deactivateGoogleMaps_ d = Some d
      ∧ googleMapsIsActive_ a = true ∧ d = exIdle.
Proof.
  assert (domOk exIdle) as Hd by (vm_compute; left).
  split; [exact Hd|].
  destruct (activate_deactivate_idempotent exIdle Hd)
    as (a & d & Ha & Haa & Hde & Hdd & _ & Hdi).
  exists a, d. repeat split; try assumption.
  - vm_compute in Ha. injection Ha as <-. reflexivity.
  - apply Hdi. reflexivity.
Defined.

(** C10.  When the toggle decision finds a winner while the herald is
    inactive and the guard of the activation fails (the map was not
    rendered, or the view has no center), the winner's map type and
    styles are still applied to the Google Maps map; the herald stays
    inactive, the DOM and the control stack are untouched, and nothing but
    the map type, the styles and the log changes. *)
Theorem toggle_configures_map_while_gated (s : State) (w : nat) :
  findTopMost s = Some w →
  googleMapsIsActive_ s = false →
  ol3mapIsRenderered_ s = false ∨ center s = None →
  ∃ s',
    toggleGoogleMaps_ s = Some s'
    ∧ gmapTypeId s' = Some (getMapTypeId w s)
    ∧ gmapStyles s' = getStyles w s
    ∧ googleMapsIsActive_ s' = false
    ∧ targetChildren s' = targetChildren s
    ∧ controls s' = controls s
    ∧ ol3Position s' = ol3Position s
    ∧ log s'
      = log s ++ [ESetMapTypeId (getMapTypeId w s); ESetStyles (getStyles w s)]
    ∧ set_log (log s)
        (set_gmapStyles (gmapStyles s) (set_gmapTypeId (gmapTypeId s) s'))
      = s.
Proof.
  intros Hw Ha Hgate. exists (applyWinner w s).
  split.
  - rewrite (toggle_found s w Hw). apply activate_blocked.
    unfold activationBlocked.
    change (ol3mapIsRenderered_ (applyWinner w s)) with (ol3mapIsRenderered_ s).
    change (center (applyWinner w s)) with (center s).
    destruct Hgate as [-> | ->]; simpl; by rewrite ?orb_true_r.
  - repeat split; try done.
    + unfold applyWinner, setOptionsStyles, setMapTypeId, emit. simpl.
      by rewrite <- app_assoc.
    + by destruct s.
Qed.

Lemma exGated_run : run [EvAdd 1] exInitial = Some exGated.
Proof. vm_compute. reflexivity. Qed.

Lemma toggle_configures_map_while_gated_witness :
  findTopMost exGated = Some 1
  ∧ googleMapsIsActive_ exGated = false
  ∧ ol3mapIsRenderered_ exGated = false
  ∧ ∃ s', toggleGoogleMaps_ exGated = Some s'
          ∧ gmapTypeId s' = Some "ROADMAP"%string
          ∧ gmapStyles s' = None
          ∧ googleMapsIsActive_ s' = false.
Proof.
  assert (findTopMost exGated = Some 1) as Hw by (vm_compute; reflexivity).
  assert (googleMapsIsActive_ exGated = false) as Ha by reflexivity.
  assert (ol3mapIsRenderered_ exGated = false) as Hr by reflexivity.
  split; [exact Hw|]. split; [exact Ha|]. split; [exact Hr|].
  destruct (toggle_configures_map_while_gated exGated 1 Hw Ha (or_introl Hr))
    as (s' & Ht & Hid & Hst & Hact & _).
  exists s'. repeat split; assumption.
Defined.

Lemma log_forEach_deactivate items s :
  log (forEach deactivateVectorLayerCacheItem_ items s)
  = log s ++ deactivationEffects items.
Proof.
  revert s. induction items as [|x r IH]; intros s; simpl.
  - by rewrite app_nil_r.
  - rewrite IH. unfold deactivationEffects. simpl.
    by rewrite <- !app_assoc.
Qed.

(** The calls of [deactivateGoogleMaps_] on an active herald, in the
    order they are made, and what they leave. *)
Lemma deactivate_steps s :
  googleMapsIsActive_ s = true → GmapEl ∈ targetChildren s →
  ∃ s',
    deactivateGoogleMaps_ s = Some s'
    ∧ log s' = log s ++ deactivationSteps (vectorCache_ s)
    ∧ googleMapsIsActive_ s' = false
    ∧ controls s' = delete 0 (controls s)
    ∧ Ol3mapEl ∈ targetChildren s'
    ∧ ol3Position s' = "relative"%string
    ∧ viewHeraldActive s' = false.
Proof.
  intros Ha Hin. destruct (deactivate_active s Ha Hin) as (ch & Hch & ->).
  eexists. split; [reflexivity|].
  pose proof (itemFrame_forEach_deactivate (vectorCache_ s) (unmounted ch s))
    as Hf.
  repeat split.
  - change (log (forEach deactivateVectorLayerCacheItem_ (vectorCache_ s)
                   (unmounted ch s)) ++ [EMarkActive false]
            = log s ++ deactivationSteps (vectorCache_ s)).
    rewrite log_forEach_deactivate. unfold deactivationSteps.
    change (log (unmounted ch s))
      with (((((log s ++ [EControlsRemoveAt 0]) ++ [ERemoveChild GmapEl])
               ++ [EAppendChild Ol3mapEl]) ++ [EViewDeactivate])
            ++ [ESetPosition "relative"%string]).
    rewrite <- !app_assoc. reflexivity.
  - change (controls (forEach deactivateVectorLayerCacheItem_ (vectorCache_ s)
                        (unmounted ch s)) = delete 0 (controls s)).
    by rewrite (fr_controls _ _ Hf).
  - change (Ol3mapEl ∈ targetChildren
              (forEach deactivateVectorLayerCacheItem_ (vectorCache_ s)
                 (unmounted ch s))).
    rewrite (fr_targetChildren _ _ Hf).
    apply elem_of_app. right. by apply list_elem_of_singleton.
  - change (ol3Position (forEach deactivateVectorLayerCacheItem_
                           (vectorCache_ s) (unmounted ch s))
            = "relative"%string).
    by rewrite (fr_ol3Position _ _ Hf).
  - change (viewHeraldActive (forEach deactivateVectorLayerCacheItem_
                                (vectorCache_ s) (unmounted ch s)) = false).
    by rewrite (fr_viewHeraldActive _ _ Hf).
Qed.

Lemma exWithVector_run :
  run (exActiveTrace ++ [EvAdd 3]) exInitial = Some exWithVector.
Proof. vm_compute. reflexivity. Qed.

(** C8 as stated fails: on [exWithVector] the calls do not come in the
    order the specification lists. *)
Lemma deactivation_order_counterexample :
  ∃ s', deactivateGoogleMaps_ exWithVector = Some s'
        ∧ log s' ≠ log exWithVector
                   ++ specDeactivationSteps (vectorCache_ exWithVector)
        ∧ drop (length (log exWithVector)) (log s')
          = [EControlsRemoveAt 0; ERemoveChild GmapEl; EAppendChild Ol3mapEl;
             EViewDeactivate; ESetPosition "relative"%string;
             EVectorDeactivate 3; ESetOpacity 3 (8 # 10)%Q;
             EMarkActive false].
Proof.
  eexists. split; [vm_compute; reflexivity|]. split.
  - vm_compute. intros H. discriminate H.
  - vm_compute. reflexivity.
Qed.

Lemma isDefined_indexOf x (arr : list nat) :
  isDefined (indexOf x arr) = true ↔ x ∈ arr.
Proof.
  destruct (indexOf x arr) as [i|] eqn:Hi; simpl.
  - split; [intros _|done]. apply indexOf_Some in Hi as [Hi _].
    by eapply list_elem_of_lookup_2.
  - split; [done|]. intros Hin. by apply indexOf_None in Hi.
Qed.

Lemma isCandidate_qualifies s l :
  g_layer <$> googleCache_ s = googleLayers_ s →
  isCandidate s l = true ↔ qualifies s l.
Proof.
  intros Hal. unfold isCandidate, qualifies, inGoogleCache.
  rewrite !andb_true_iff, isDefined_indexOf, <- Hal, list_elem_of_fmap.
  split.
  - intros [[H1 H2] (item & -> & Hin)]. eauto.
  - intros (H1 & H2 & item & Hin & <-). eauto.
Qed.

Lemma isCandidate_not_qualifies s l :
  g_layer <$> googleCache_ s = googleLayers_ s →
  isCandidate s l = false ↔ ¬ qualifies s l.
Proof.
  intros Hal. rewrite <- (isCandidate_qualifies s l Hal).
  by destruct (isCandidate s l).
Qed.

Lemma isCandidate_storeVisible s l b x :
  isCandidate (storeVisible l b s) x
  = if decide (l = x)
    then instanceofGoogle x s && b && isDefined (indexOf x (googleLayers_ s))
    else isCandidate s x.
Proof.
  unfold isCandidate, instanceofGoogle, getVisible.
  rewrite getLayer_storeVisible.
  change (googleLayers_ (storeVisible l b s)) with (googleLayers_ s).
  by destruct (decide (l = x)) as [->|].
Qed.

Lemma activate_gmap s s' :
  activateGoogleMaps_ s = Some s' →
  gmapTypeId s' = gmapTypeId s ∧ gmapStyles s' = gmapStyles s.
Proof.
  unfold activateGoogleMaps_. destruct (_ || _); [by intros [= <-]|].
  unfold removeChild.
  destruct (removeNode Ol3mapEl (targetChildren s)) as [ch|]; [|done].
  intros [= <-].
  change (gmapTypeId (forEach activateVectorLayerCacheItem_ (vectorCache_ s)
                        (mounted ch s)) = gmapTypeId s
          ∧ gmapStyles (forEach activateVectorLayerCacheItem_ (vectorCache_ s)
                          (mounted ch s)) = gmapStyles s).
  pose proof (itemFrame_forEach_activate (vectorCache_ s) (mounted ch s))
    as Hf.
  by rewrite (fr_gmapTypeId _ _ Hf), (fr_gmapStyles _ _ Hf).
Qed.

Lemma toggle_winner s w :
  domOk s → findTopMost s = Some w →
  ∃ s', toggleGoogleMaps_ s = Some s'
    ∧ activateGoogleMaps_ (applyWinner w s) = Some s'
    ∧ gmapTypeId s' = Some (getMapTypeId w s)
    ∧ gmapStyles s' = getStyles w s
    ∧ (ol3mapIsRenderered_ s = true → is_Some (center s) →
       googleMapsIsActive_ s' = true)
    ∧ (googleMapsIsActive_ s = true → s' = applyWinner w s)
    ∧ domOk s'.
Proof.
  intros Hd Hw. rewrite (toggle_found s w Hw).
  destruct (activate_result (applyWinner w s) Hd)
    as (s' & Ha & Hb & Hu & Hd').
  exists s'. split; [done|]. split; [done|].
  destruct (activate_gmap _ _ Ha) as [-> ->].
  split; [done|]. split; [done|]. split; [|split; [|done]].
  - intros Hr [c Hc].
    destruct (activationBlocked (applyWinner w s)) eqn:Hbl; [|by apply Hu].
    rewrite (Hb eq_refl). unfold activationBlocked in Hbl.
    change (center (applyWinner w s)) with (center s) in Hbl.
    change (ol3mapIsRenderered_ (applyWinner w s))
      with (ol3mapIsRenderered_ s) in Hbl.
    change (googleMapsIsActive_ (applyWinner w s))
      with (googleMapsIsActive_ s) in *.
    rewrite Hr, Hc in Hbl. simpl in Hbl.
    by rewrite !orb_false_r in Hbl.
  - intros Hact. apply Hb. unfold activationBlocked.
    change (googleMapsIsActive_ (applyWinner w s))
      with (googleMapsIsActive_ s). by rewrite Hact.
Qed.

(** C1.  The toggle decision scans the layer collection from last to
    first and elects the first layer that is a Google layer, visible, and
    in the Google cache.  With a winner, its map type and its styles (or
    no styles when it has none) are applied to the Google Maps map and the
    activation routine runs.  With two watched visible Google layers [l1]
    below [l2] and nothing qualifying above them, [l2]'s parameters are
    applied; once [l2] is hidden the decision elects [l1], and the herald
    stays active: only the two configuration calls are made. *)
Theorem toggle_selects_topmost (s : State) :
  wf s →
  (∀ w, findTopMost s = Some w ↔
        ∃ below above,
          layers s = below ++ w :: above ∧ qualifies s w
          ∧ ∀ x, x ∈ above → ¬ qualifies s x)
  ∧ (∀ w, findTopMost s = Some w →
        ∃ s', toggleGoogleMaps_ s = Some s'
          ∧ activateGoogleMaps_ (applyWinner w s) = Some s'
          ∧ gmapTypeId s' = Some (getMapTypeId w s)
          ∧ gmapStyles s' = getStyles w s)
  ∧ (∀ l1 l2 below mid above,
        layers s = below ++ l1 :: mid ++ l2 :: above → l1 ≠ l2 →
        qualifies s l1 → qualifies s l2 →
        (∀ x, x ∈ mid ++ above → ¬ qualifies s x) →
        ol3mapIsRenderered_ s = true → is_Some (center s) →
        ∃ s1 s2,
          toggleGoogleMaps_ s = Some s1
          ∧ gmapTypeId s1 = Some (getMapTypeId l2 s)
          ∧ gmapStyles s1 = getStyles l2 s
          ∧ googleMapsIsActive_ s1 = true
          ∧ toggleGoogleMaps_ (storeVisible l2 false s1) = Some s2
          ∧ gmapTypeId s2 = Some (getMapTypeId l1 s)
          ∧ gmapStyles s2 = getStyles l1 s
          ∧ googleMapsIsActive_ s2 = true
          ∧ log s2 = log s1 ++ [ESetMapTypeId (getMapTypeId l1 s);
                                ESetStyles (getStyles l1 s)]).
Proof.
  intros Hwf. pose proof (wf_google _ Hwf) as Hal.
  pose proof (wf_dom _ Hwf) as Hd.
  split; [|split].
  - intros w. rewrite findTopMost_Some. split.
    + intros (below & above & Hl & Hw & Habove). exists below, above.
      split; [done|]. split; [by apply isCandidate_qualifies|].
      intros x Hx. apply isCandidate_not_qualifies; auto.
    + intros (below & above & Hl & Hw & Habove). exists below, above.
      split; [done|]. split; [by apply isCandidate_qualifies|].
      intros x Hx. apply isCandidate_not_qualifies; auto.
  - intros w Hw.
    destruct (toggle_winner s w Hd Hw) as (s' & Ht & Ha & Hid & Hst & _).
    by exists s'.
  - intros l1 l2 below mid above Hl Hne Hq1 Hq2 Hno Hr Hc.
    assert (findTopMost s = Some l2) as Hw2.
    { apply findTopMost_Some. exists (below ++ l1 :: mid), above.
      split; [by rewrite <- app_assoc|].
      split; [by apply isCandidate_qualifies|].
      intros x Hx. apply isCandidate_not_qualifies; [done|].
      apply Hno. apply elem_of_app. by right. }
    destruct (toggle_winner s l2 Hd Hw2)
      as (s1 & Ht1 & _ & Hid1 & Hst1 & Hact1 & _ & Hd1).
    specialize (Hact1 Hr Hc).
    pose proof (toggle_frame _ _ Ht1) as Hf.
    set (h := storeVisible l2 false s1).
    assert (findTopMost h = Some l1) as Hw1.
    { apply findTopMost_Some. exists below, (mid ++ l2 :: above).
      split.
      { change (layers h) with (layers s1). by rewrite (tf_layers _ _ Hf). }
      split.
      - unfold h. rewrite isCandidate_storeVisible, decide_False by done.
        rewrite (toggleFrame_isCandidate _ _ _ Hf).
        by apply isCandidate_qualifies.
      - intros x Hx. unfold h. rewrite isCandidate_storeVisible.
        destruct (decide (l2 = x)) as [<-|Hx2].
        + by rewrite andb_false_r.
        + rewrite (toggleFrame_isCandidate _ _ _ Hf).
          apply isCandidate_not_qualifies; [done|]. apply Hno.
          apply elem_of_app in Hx as [Hx|Hx]; apply elem_of_app; auto.
          apply elem_of_cons in Hx as [->|Hx]; [done | auto]. }
    assert (domOk h) as Hdh by exact Hd1.
    destruct (toggle_winner h l1 Hdh Hw1)
      as (s2 & Ht2 & _ & Hid2 & Hst2 & _ & Heq & _).
    specialize (Heq Hact1).
    assert (getMapTypeId l1 h = getMapTypeId l1 s
            ∧ getStyles l1 h = getStyles l1 s) as [Hm Hs].
    { unfold h.
      destruct (attrFrame_attrs _ _ l1 (attrFrame_storeVisible l2 false s1))
        as (_ & _ & -> & -> & _).
      by destruct (toggleFrame_attrs _ _ l1 Hf) as (_ & _ & _ & -> & -> & _). }
    exists s1, s2. rewrite <- Hm, <- Hs.
    repeat split; try done.
    + subst s2. exact Hact1.
    + subst s2. unfold applyWinner, setOptionsStyles, setMapTypeId, emit.
      simpl. by rewrite <- app_assoc.
Qed.

(** The rendered, centered herald right after both Google layers were
    added, as the second [add] left it. *)
Lemma toggle_selects_topmost_witness :
  wf exActive
  ∧ layers exActive = [] ++ 1 :: [] ++ 2 :: []
  ∧ qualifies exActive 1 ∧ qualifies exActive 2
  ∧ ∃ s1 s2,
      toggleGoogleMaps_ exActive = Some s1
      ∧ gmapTypeId s1 = Some "SATELLITE"%string
      ∧ googleMapsIsActive_ s1 = true
      ∧ toggleGoogleMaps_ (storeVisible 2 false s1) = Some s2
      ∧ setVisible 2 false s1 = Some s2
      ∧ gmapTypeId s2 = Some "ROADMAP"%string
      ∧ googleMapsIsActive_ s2 = true.
Proof.
  pose proof exActive_wf as Hwf.
  assert (∀ l, l = 1 ∨ l = 2 → qualifies exActive l) as Hq.
  { intros l Hl. apply isCandidate_qualifies; [apply Hwf|].
    destruct Hl as [-> | ->]; vm_compute; reflexivity. }
  split; [exact Hwf|]. split; [reflexivity|].
  split; [apply Hq; by left|]. split; [apply Hq; by right|].
  destruct (toggle_selects_topmost exActive Hwf) as (_ & _ & H).
  destruct (H 1 2 [] [] []) as (s1 & s2 & Ht1 & Hid1 & _ & Ha1 & Ht2 & Hid2
                                 & _ & Ha2 & _).
  - reflexivity.
  - discriminate.
  - apply Hq; by left.
  - apply Hq; by right.
  - intros x Hx. by apply elem_of_nil in Hx.
  - reflexivity.
  - by eexists.
  - exists s1, s2. repeat split; try assumption.
    vm_compute in Ht1. injection Ht1 as <-. rewrite <- Ht2.
    vm_compute. reflexivity.
Defined.

Lemma heraldActive_setOpacity h l q s :
  heraldActive h (setOpacity l q s) = heraldActive h s.
Proof. reflexivity. Qed.

Lemma heraldActive_heraldActivate h s :
  heraldActive h (heraldActivate h s) = true.
Proof. unfold heraldActive, heraldActivate. simpl. by rewrite lookup_insert_eq. Qed.

Lemma heraldActive_heraldDeactivate h s :
  heraldActive h (heraldDeactivate h s) = false.
Proof. unfold heraldActive, heraldDeactivate. simpl. by rewrite lookup_insert_eq. Qed.

Lemma activateItem_on item s :
  getVisible (v_layer item) s = true → googleMapsIsActive_ s = true →
  activateVectorLayerCacheItem_ item s
  = setOpacity (v_layer item) 0 (heraldActivate (v_herald item) s).
Proof. intros Hv Ha. unfold activateVectorLayerCacheItem_. by rewrite Hv, Ha. Qed.

Lemma activateItem_off item s :
  ¬ (getVisible (v_layer item) s = true ∧ googleMapsIsActive_ s = true) →
  activateVectorLayerCacheItem_ item s = s.
Proof.
  intros H. unfold activateVectorLayerCacheItem_.
  destruct (getVisible _ s), (googleMapsIsActive_ s); try done.
  exfalso. by apply H.
Qed.

Lemma activateItem_again item s :
  let s' := activateVectorLayerCacheItem_ item s in
  set_log (log s') (activateVectorLayerCacheItem_ item s') = s'.
Proof.
  cbv zeta.
  destruct (decide (getVisible (v_layer item) s = true
                    ∧ googleMapsIsActive_ s = true)) as [[Hv Ha]|Hn].
  - rewrite (activateItem_on item s Hv Ha).
    set (s1 := setOpacity _ _ _).
    assert (getVisible (v_layer item) s1 = true) as Hv1.
    { destruct (itemFrame_kind s s1 (v_layer item)) as (_ & _ & -> & _);
        [|done].
      eapply itemFrame_trans;
        [apply itemFrame_heraldActivate | apply itemFrame_setOpacity]. }
    rewrite (activateItem_on item s1 Hv1 Ha).
    unfold s1, setOpacity, storeOpacity, heraldActivate, emit, getLayer.
    destruct s. simpl. rewrite lookup_insert_eq. simpl.
    rewrite !insert_insert_eq. reflexivity.
  - rewrite (activateItem_off item s Hn). rewrite (activateItem_off item s Hn).
    by destruct s.
Qed.

Lemma watchVectorLayer_eq l s :
  is_Some (getSource l s) →
  watchVectorLayer_ l s
  = set_vectorCache_
      (vectorCache_ (activateVectorLayerCacheItem_ (newVectorItem l s)
                       (preparedVector l s)) ++ [newVectorItem l s])
      (activateVectorLayerCacheItem_ (newVectorItem l s) (preparedVector l s)).
Proof.
  intros [src Hsrc]. unfold watchVectorLayer_, preparedVector. rewrite Hsrc.
  cbv zeta. by destruct (l_gmStyle _).
Qed.

Lemma preparedVector_getLayer l x s :
  getLayer x (preparedVector l s) = getLayer x s.
Proof. unfold preparedVector. cbv zeta. by destruct (l_gmStyle _). Qed.

Lemma preparedVector_active l s :
  googleMapsIsActive_ (preparedVector l s) = googleMapsIsActive_ s.
Proof. unfold preparedVector. cbv zeta. by destruct (l_gmStyle _). Qed.

Lemma getVisible_storeVisible l b s : getVisible l (storeVisible l b s) = b.
Proof.
  unfold getVisible. rewrite getLayer_storeVisible, decide_True by done.
  done.
Qed.

Lemma getOpacity_storeVisible l b x s :
  getOpacity x (storeVisible l b s) = getOpacity x s.
Proof.
  unfold getOpacity. rewrite getLayer_storeVisible.
  by destruct (decide (l = x)) as [->|].
Qed.

Lemma preparedVector_vectorCache l s :
  vectorCache_ (preparedVector l s) = vectorCache_ s.
Proof. unfold preparedVector. cbv zeta. by destruct (l_gmStyle _). Qed.

Lemma getVisible_preparedVector l x s :
  getVisible x (preparedVector l s) = getVisible x s.
Proof. unfold getVisible. by rewrite preparedVector_getLayer. Qed.

Lemma vectorCache_setOpacity l q t :
  vectorCache_ (setOpacity l q t) = vectorCache_ t.
Proof. reflexivity. Qed.

Lemma vectorCache_heraldActivate h t :
  vectorCache_ (heraldActivate h t) = vectorCache_ t.
Proof. reflexivity. Qed.

(** Watching a visible vector layer while active. *)
Lemma watchVectorLayer_active l s :
  is_Some (getSource l s) → getVisible l s = true →
  googleMapsIsActive_ s = true →
  watchVectorLayer_ l s
  = set_vectorCache_ (vectorCache_ s ++ [newVectorItem l s])
      (setOpacity l 0
         (heraldActivate (v_herald (newVectorItem l s)) (preparedVector l s))).
Proof.
  intros Hsrc Hv Ha. rewrite (watchVectorLayer_eq l s Hsrc).
  rewrite (activateItem_on (newVectorItem l s) (preparedVector l s)).
  - by rewrite vectorCache_setOpacity, vectorCache_heraldActivate,
      preparedVector_vectorCache.
  - by rewrite getVisible_preparedVector.
  - by rewrite preparedVector_active.
Qed.

Lemma getOpacity_set_vectorCache (t : State) (x : nat) (v : list VectorLayerCache) :
  getOpacity x (set_vectorCache_ v t) = getOpacity x t.
Proof. reflexivity. Qed.

Lemma heraldActive_set_vectorCache (t : State) (h : nat) (v : list VectorLayerCache) :
  heraldActive h (set_vectorCache_ v t) = heraldActive h t.
Proof. reflexivity. Qed.

Lemma heraldActive_storeVisible (t : State) (l : nat) (b : bool) (h : nat) :
  heraldActive h (storeVisible l b t) = heraldActive h t.
Proof. reflexivity. Qed.

Lemma active_set_vectorCache (t : State) (v : list VectorLayerCache) :
  googleMapsIsActive_ (set_vectorCache_ v t) = googleMapsIsActive_ t.
Proof. reflexivity. Qed.

Lemma active_setOpacity (t : State) (l : nat) (q : Q) :
  googleMapsIsActive_ (setOpacity l q t) = googleMapsIsActive_ t.
Proof. reflexivity. Qed.

Lemma active_storeVisible (t : State) (l : nat) (b : bool) :
  googleMapsIsActive_ (storeVisible l b t) = googleMapsIsActive_ t.
Proof. reflexivity. Qed.

Lemma active_heraldActivate (t : State) (h : nat) :
  googleMapsIsActive_ (heraldActivate h t) = googleMapsIsActive_ t.
Proof. reflexivity. Qed.

Lemma active_heraldDeactivate (t : State) (h : nat) :
  googleMapsIsActive_ (heraldDeactivate h t) = googleMapsIsActive_ t.
Proof. reflexivity. Qed.

Lemma handleVisible_hidden item s :
  getVisible (v_layer item) s = false →
  handleVectorLayerVisibleChange_ item s
  = setOpacity (v_layer item) (v_opacity item)
      (heraldDeactivate (v_herald item) s).
Proof. intros H. unfold handleVectorLayerVisibleChange_. by rewrite H. Qed.

Lemma handleVisible_shown item s :
  getVisible (v_layer item) s = true → googleMapsIsActive_ s = true →
  handleVectorLayerVisibleChange_ item s
  = setOpacity (v_layer item) 0 (heraldActivate (v_herald item) s).
Proof.
  intros H Ha. unfold handleVectorLayerVisibleChange_. rewrite H.
  by apply activateItem_on.
Qed.

(** The scenario of a vector layer watched while active, then hidden,
    then shown again. *)
Lemma watch_hide_show l s :
  googleMapsIsActive_ s = true → getVisible l s = true →
  is_Some (getSource l s) →
  let item := newVectorItem l s in
  let s1 := watchVectorLayer_ l s in
  let s2 := handleVectorLayerVisibleChange_ item (storeVisible l false s1) in
  let s3 := handleVectorLayerVisibleChange_ item (storeVisible l true s2) in
  last (vectorCache_ s1) = Some item
  ∧ getOpacity l s1 = 0%Q ∧ heraldActive (v_herald item) s1 = true
  ∧ getOpacity l s2 = getOpacity l s
  ∧ heraldActive (v_herald item) s2 = false
  ∧ getOpacity l s3 = 0%Q ∧ heraldActive (v_herald item) s3 = true.
Proof.
  intros Ha Hv Hsrc. cbv zeta.
  set (item := newVectorItem l s).
  assert (v_layer item = l) as Hl by reflexivity.
  assert (v_opacity item = getOpacity l s) as Ho by reflexivity.
  rewrite (watchVectorLayer_active l s Hsrc Hv Ha). fold item.
  set (s1 := set_vectorCache_ _ _).
  assert (googleMapsIsActive_ s1 = true) as Ha1.
  { unfold s1. rewrite active_set_vectorCache, active_setOpacity,
      active_heraldActivate. by rewrite preparedVector_active. }
  pose proof (handleVisible_hidden item (storeVisible l false s1)
                (getVisible_storeVisible l false s1)) as H2.
  rewrite H2. set (s2 := setOpacity (v_layer item) (v_opacity item) _).
  assert (googleMapsIsActive_ s2 = true) as Ha2.
  { unfold s2. by rewrite active_setOpacity, active_heraldDeactivate,
      active_storeVisible. }
  assert (googleMapsIsActive_ (storeVisible l true s2) = true) as Ha3
    by by rewrite active_storeVisible.
  pose proof (handleVisible_shown item (storeVisible l true s2)
                (getVisible_storeVisible l true s2) Ha3) as H3.
  rewrite H3.
  split. { unfold s1. apply last_snoc. }
  split. { unfold s1. rewrite getOpacity_set_vectorCache.
           apply getOpacity_setOpacity. }
  split. { unfold s1. rewrite heraldActive_set_vectorCache,
             heraldActive_setOpacity. apply heraldActive_heraldActivate. }
  split. { unfold s2. apply (getOpacity_setOpacity l). }
  split. { unfold s2. rewrite heraldActive_setOpacity.
           apply heraldActive_heraldDeactivate. }
  split. { apply (getOpacity_setOpacity l). }
  rewrite heraldActive_setOpacity. apply heraldActive_heraldActivate.
Qed.

(** C6.  The per-item activation activates the item's source herald and
    makes the layer fully transparent exactly when the layer is visible
    and the herald is active; otherwise it returns its state unchanged; a
    second call changes nothing but the log.  A visible vector layer with
    a source that is watched while active gets opacity 0 and an active
    source herald; once hidden, its visibility handler restores the
    opacity it had before the watch and deactivates the source herald;
    once shown again, the opacity is 0 and the source herald active. *)
Theorem per_item_activation (s : State) :
  (∀ cacheItem,
     let layer := v_layer cacheItem in
     let herald := v_herald cacheItem in
     let s' := activateVectorLayerCacheItem_ cacheItem s in
     (getVisible layer s = true ∧ googleMapsIsActive_ s = true →
      heraldActive herald s' = true ∧ getOpacity layer s' = 0%Q
      ∧ log s' = log s ++ [EVectorActivate herald; ESetOpacity layer 0%Q])
     ∧ (¬ (getVisible layer s = true ∧ googleMapsIsActive_ s = true) →
        s' = s)
     ∧ set_log (log s') (activateVectorLayerCacheItem_ cacheItem s') = s')
  ∧ (∀ layer,
       googleMapsIsActive_ s = true → getVisible layer s = true →
       instanceofGoogle layer s = false → instanceofVector layer s = true →
       watchVector_ s = true → is_Some (getSource layer s) →
       ∃ s1 item,
         watchLayer_ layer s = Some s1
         ∧ last (vectorCache_ s1) = Some item
         ∧ v_layer item = layer ∧ v_opacity item = getOpacity layer s
         ∧ getOpacity layer s1 = 0%Q
         ∧ heraldActive (v_herald item) s1 = true
         ∧ let s2 :=
             handleVectorLayerVisibleChange_ item
               (storeVisible layer false s1) in
           getOpacity layer s2 = getOpacity layer s
           ∧ heraldActive (v_herald item) s2 = false
           ∧ let s3 :=
               handleVectorLayerVisibleChange_ item
                 (storeVisible layer true s2) in
             getOpacity layer s3 = 0%Q
             ∧ heraldActive (v_herald item) s3 = true).
Proof.
  split.
  - intros cacheItem. cbv zeta. split; [|split].
    + intros [Hv Ha]. rewrite (activateItem_on _ _ Hv Ha).
      split;
        [by rewrite heraldActive_setOpacity, heraldActive_heraldActivate|].
      split; [apply getOpacity_setOpacity|].
      unfold setOpacity, storeOpacity, heraldActivate, emit. simpl.
      by rewrite <- app_assoc.
    + apply activateItem_off.
    + apply activateItem_again.
  - intros l Ha Hv Hg Hvec Hw Hsrc.
    exists (watchVectorLayer_ l s), (newVectorItem l s).
    split. { unfold watchLayer_. by rewrite Hg, Hvec, Hw. }
    destruct (watch_hide_show l s Ha Hv Hsrc)
      as (H1 & H2 & H3 & H4 & H5 & H6 & H7).
    split; [exact H1|]. split; [reflexivity|]. split; [reflexivity|].
    split; [exact H2|]. split; [exact H3|]. split; [exact H4|].
    split; [exact H5|]. split; [exact H6 | exact H7].
Qed.

Lemma per_item_activation_witness :
  getOpacity 3 exActive = (8 # 10)%Q
  ∧ ∃ s1 s2 s3 item,
      watchLayer_ 3 exActive = Some s1
      ∧ last (vectorCache_ s1) = Some item
      ∧ getOpacity 3 s1 = 0%Q ∧ heraldActive (v_herald item) s1 = true
      ∧ setVisible 3 false s1 = Some s2
      ∧ getOpacity 3 s2 = (8 # 10)%Q
      ∧ heraldActive (v_herald item) s2 = false
      ∧ setVisible 3 true s2 = Some s3
      ∧ getOpacity 3 s3 = 0%Q ∧ heraldActive (v_herald item) s3 = true.
Proof.
  split; [reflexivity|].
  destruct (per_item_activation exActive) as [_ H].
  destruct (H 3) as (s1 & item & Hw & Hlast & _ & _ & Ho1 & Hh1 & Ho2 & Hh2
                     & Ho3 & Hh3).
  - reflexivity.
  - reflexivity.
  - vm_compute. reflexivity.
  - vm_compute. reflexivity.
  - reflexivity.
  - vm_compute. by eexists.
  - cbv zeta in Ho2, Hh2, Ho3, Hh3.
    assert (setVisible 3 false s1
            = Some (handleVectorLayerVisibleChange_ item
                      (storeVisible 3 false s1))) as Hs2.
    { vm_compute in Hw. injection Hw as <-.
      vm_compute in Hlast. injection Hlast as <-.
      vm_compute. reflexivity. }
    assert (setVisible 3 true
              (handleVectorLayerVisibleChange_ item
                 (storeVisible 3 false s1))
            = Some (handleVectorLayerVisibleChange_ item
                      (storeVisible 3 true
                         (handleVectorLayerVisibleChange_ item
                            (storeVisible 3 false s1))))) as Hs3.
    { vm_compute in Hw. injection Hw as <-.
      vm_compute in Hlast. injection Hlast as <-.
      vm_compute. reflexivity. }
    eexists s1, _, _, item.
    split; [exact Hw|]. split; [exact Hlast|].
    split; [exact Ho1|]. split; [exact Hh1|].
    split; [exact Hs2|]. split; [exact Ho2|]. split; [exact Hh2|].
    split; [exact Hs3|]. split; [exact Ho3 | exact Hh3].
Defined.

Lemma saved_same l q s s' :
  vectorLayers_ s' = vectorLayers_ s → vectorCache_ s' = vectorCache_ s →
  saved l q s → saved l q s'.
Proof. intros Hl Hc (i & item & ?). exists i, item. by rewrite Hl, Hc. Qed.

Lemma saved_push l q l' item' s s' :
  vectorLayers_ s' = vectorLayers_ s ++ [l'] →
  vectorCache_ s' = vectorCache_ s ++ [item'] →
  saved l q s → saved l q s'.
Proof.
  intros Hl Hc (i & item & Hi & Hitem & Hq). exists i, item.
  rewrite Hl, Hc. split; [by apply indexOf_app_l|]. split; [|done].
  apply lookup_app_l_Some. done.
Qed.

Lemma indexOf_delete x y (arr : list nat) i j :
  indexOf x arr = Some i → arr !! j = Some y → y ≠ x →
  indexOf x (delete j arr) = Some (if decide (j < i) then pred i else i).
Proof.
  revert i j. induction arr as [|z r IH]; intros i j; simpl; [done|].
  destruct (decide (z = x)) as [->|Hzx].
  - intros [= <-]. destruct j as [|j]; simpl.
    + intros [= ->]. done.
    + intros _ _. by rewrite decide_True.
  - destruct (indexOf x r) as [k|] eqn:Hk; simpl; [|done].
    intros [= <-]. destruct j as [|j]; simpl.
    + intros _ _. by rewrite Hk.
    + intros Hj Hne. rewrite decide_False by done.
      rewrite (IH k j eq_refl Hj Hne). simpl.
      destruct (decide (j < k)), (decide (S j < S k)); try lia; [|done].
      simpl. f_equal. lia.
Qed.

Lemma saved_delete l q l' j s s' :
  v_layer <$> vectorCache_ s = vectorLayers_ s →
  vectorLayers_ s !! j = Some l' → l' ≠ l →
  vectorLayers_ s' = delete j (vectorLayers_ s) →
  vectorCache_ s' = delete j (vectorCache_ s) →
  saved l q s → saved l q s'.
Proof.
  intros Hal Hj Hne Hl Hc (i & item & Hi & Hitem & Hq).
  exists (if decide (j < i) then pred i else i), item.
  rewrite Hl, Hc. split; [by eapply indexOf_delete|]. split; [|done].
  assert (i ≠ j) as Hij.
  { intros ->. apply indexOf_Some in Hi as [Hi _]. congruence. }
  destruct (decide (j < i)).
  - rewrite list_lookup_delete_ge by lia.
    by replace (S (pred i)) with i by lia.
  - rewrite list_lookup_delete_lt by lia. done.
Qed.

Lemma toggle_saved l q s s' :
  toggleGoogleMaps_ s = Some s' → saved l q s → saved l q s'.
Proof.
  intros Ht. pose proof (toggle_frame _ _ Ht) as Hf.
  apply saved_same; [apply (tf_vectorLayers _ _ Hf)
                    | apply (tf_vectorCache _ _ Hf)].
Qed.

Lemma watchLayer_saved l q l' s s' :
  watchLayer_ l' s = Some s' → saved l q s → saved l q s'.
Proof.
  unfold watchLayer_. destruct (instanceofGoogle l' s).
  - rewrite watchGoogleLayer_eq.
    destruct (watchedGoogle_eq l' s) as (k & ls & n & ->). intros Ht Hs.
    apply (toggle_saved l q _ _ Ht). revert Hs. by apply saved_same.
  - destruct (_ && _); intros [= <-]; [|done].
    destruct (getSource l' s) as [src|] eqn:Hsrc.
    + destruct (watchVectorLayer_arrays l' s) as (Hvl & Hvc & _);
        [by eexists|]. by eapply saved_push.
    + unfold watchVectorLayer_. by rewrite Hsrc.
Qed.

Lemma unwatchLayer_saved l q l' s s' :
  wf s → l' ≠ l →
  unwatchLayer_ l' s = Some s' → saved l q s → saved l q s'.
Proof.
  intros Hwf Hne. unfold unwatchLayer_. destruct (instanceofGoogle l' s).
  - destruct (indexOf l' (googleLayers_ s)) as [i|] eqn:Hi.
    + destruct (cache_lookup_aligned _ _ _ _ _ (wf_google _ Hwf) Hi)
        as (item & Hitem & _).
      rewrite (unwatchGoogleLayer_found l' i item s Hi Hitem).
      intros Ht Hs. apply (toggle_saved l q _ _ Ht). revert Hs.
      by apply saved_same.
    + rewrite (unwatchGoogleLayer_absent l' s Hi). by intros [= <-].
  - destruct (_ && _); [|by intros [= <-]].
    destruct (indexOf l' (vectorLayers_ s)) as [j|] eqn:Hj.
    + destruct (cache_lookup_aligned _ _ _ _ _ (wf_vector _ Hwf) Hj)
        as (item & Hitem & _).
      rewrite (unwatchVectorLayer_found l' j item s Hj Hitem).
      intros [= <-].
      destruct (unwatchedVector_arrays l' j item s) as (Hvl & Hvc & _).
      apply (saved_delete l q l' j s); try done; [apply Hwf|].
      by apply indexOf_Some in Hj as [Hj _].
    + rewrite (unwatchVectorLayer_absent l' s Hj). by intros [= <-].
Qed.

Lemma handleVisible_saved l q item s :
  saved l q s → saved l q (handleVectorLayerVisibleChange_ item s).
Proof.
  assert (itemFrame s (handleVectorLayerVisibleChange_ item s)) as Hf.
  { unfold handleVectorLayerVisibleChange_.
    destruct (getVisible _ _);
      [apply itemFrame_activateItem | apply itemFrame_deactivateItem]. }
  apply saved_same; [apply (fr_vectorLayers _ _ Hf)
                    | apply (fr_vectorCache _ _ Hf)].
Qed.

Lemma dispatch_saved l q ls s s' :
  dispatch ls s = Some s' → saved l q s → saved l q s'.
Proof.
  revert s. induction ls as [|x r IH]; intros s; simpl.
  - by intros [= <-].
  - destruct (lk_handler x) as [|item]; simpl.
    + destruct (toggleGoogleMaps_ s) as [s1|] eqn:Ht; simpl; [|done].
      intros Hd Hs. apply (IH s1 Hd). by apply (toggle_saved l q s).
    + intros Hd Hs. apply (IH _ Hd). by apply handleVisible_saved.
Qed.

Lemma step_saved l q e s s' :
  wf s → unwatches l e = false →
  step e s = Some s' → saved l q s → saved l q s'.
Proof.
  intros Hwf Hu. destruct e as [l'|l'|l'|l'|l' b|l' q'| |c]; simpl.
  - apply watchLayer_saved.
  - apply unwatchLayer_saved; [done|]. simpl in Hu.
    by apply bool_decide_eq_false in Hu.
  - unfold addLayer, handleLayersAdd_. intros Hw Hs.
    apply (watchLayer_saved l q _ _ _ Hw). revert Hs. by apply saved_same.
  - unfold removeLayer, handleLayersRemove_.
    destruct (indexOf l' (layers s)) as [i|]; [|by intros [= <-]].
    intros Hw Hs. simpl in Hu. apply bool_decide_eq_false in Hu.
    refine (unwatchLayer_saved l q l' _ _ _ Hu Hw _).
    + apply (wf_preserved s); done.
    + revert Hs. by apply saved_same.
  - unfold setVisible. destruct (decide _); [by intros [= <-]|].
    intros Hd Hs. apply (dispatch_saved l q _ _ _ Hd). revert Hs.
    by apply saved_same.
  - intros [= <-]. by apply saved_same.
  - unfold firePostrender, onPostrender.
    destruct (oncePostrender s); [|by intros [= <-]].
    intros Ht Hs. apply (toggle_saved l q _ _ Ht). revert Hs.
    by apply saved_same.
  - unfold changeCenter, onChangeCenter. cbv zeta.
    destruct (onceCenter (set_center c s)).
    + intros Ht Hs. apply (toggle_saved l q _ _ Ht). revert Hs.
      by apply saved_same.
    + intros [= <-]. by apply saved_same.
Qed.

Lemma run_saved l q es s :
  wf s → forallb (λ e, negb (unwatches l e)) es = true → saved l q s →
  ∃ s', run es s = Some s' ∧ wf s' ∧ attrFrame s s' ∧ saved l q s'.
Proof.
  revert s. induction es as [|e r IH]; intros s Hwf Hes Hs; simpl.
  - exists s. split; [done|]. split; [done|]. split; [|done].
    apply attrFrame_refl.
  - simpl in Hes. apply andb_true_iff in Hes as [He Hr].
    apply negb_true_iff in He.
    destruct (step_ok e s Hwf) as (s1 & Hst & Hwf1 & Hf1). rewrite Hst. simpl.
    destruct (IH s1 Hwf1 Hr (step_saved l q e s s1 Hwf He Hst Hs))
      as (s' & -> & Hwf' & Hf' & Hs').
    exists s'. split; [done|]. split; [done|]. split; [|done].
    by eapply attrFrame_trans.
Qed.

Lemma getOpacity_unwatchedVector l i item s :
  getOpacity l (unwatchedVector l i item s) = v_opacity item.
Proof.
  unfold unwatchedVector. cbv zeta. rewrite getOpacity_set_vectorCache.
  apply getOpacity_setOpacity.
Qed.

Lemma unwatch_restores l q s :
  wf s → instanceofGoogle l s = false → instanceofVector l s = true →
  watchVector_ s = true → saved l q s →
  ∃ s', unwatchLayer_ l s = Some s' ∧ getOpacity l s' = q.
Proof.
  intros Hwf Hg Hv Hw (i & item & Hi & Hitem & Hq).
  exists (unwatchedVector l i item s). split.
  - unfold unwatchLayer_. rewrite Hg, Hv, Hw. simpl.
    by apply unwatchVectorLayer_found.
  - by rewrite getOpacity_unwatchedVector.
Qed.

(** C5, as amended.  For a vector layer that is not tracked when it is
    watched, the saved opacity is the opacity the layer had right before
    that watch (read before the herald writes any opacity), and at the
    next unwatch of the layer its opacity is that value again, whatever
    events came in between (visibility changes, activations and
    deactivations, opacity writes by the application, other layers watched
    and unwatched, even a second watch of the same layer). *)
Theorem unwatch_restores_saved_opacity (s : State) (l : nat)
  (es : list Event) :
  wf s →
  l ∉ vectorLayers_ s →
  instanceofGoogle l s = false → instanceofVector l s = true →
  watchVector_ s = true → is_Some (getSource l s) →
  forallb (λ e, negb (unwatches l e)) es = true →
  ∃ s1 s2 s3 cacheItem,
    watchLayer_ l s = Some s1
    ∧ last (vectorCache_ s1) = Some cacheItem
    ∧ v_layer cacheItem = l
    ∧ v_opacity cacheItem = getOpacity l s
    ∧ run es s1 = Some s2
    ∧ unwatchLayer_ l s2 = Some s3
    ∧ getOpacity l s3 = getOpacity l s.
Proof.
  intros Hwf Hnot Hg Hv Hw Hsrc Hes.
  set (s1 := watchVectorLayer_ l s).
  assert (watchLayer_ l s = Some s1) as Hw1.
  { unfold watchLayer_. by rewrite Hg, Hv, Hw. }
  destruct (watchVectorLayer_arrays l s Hsrc) as (Hvl & Hvc & _).
  assert (wf s1) as Hwf1 by by apply watchVectorLayer_wf.
  assert (saved l (getOpacity l s) s1) as Hs1.
  { exists (length (vectorLayers_ s)), (newVectorItem l s).
    fold s1 in Hvl, Hvc. rewrite Hvl, Hvc. split; [|split; [|done]].
    - apply indexOf_None in Hnot. clear -Hnot.
      induction (vectorLayers_ s) as [|y r IH]; simpl.
      + by rewrite decide_True.
      + simpl in Hnot. destruct (decide (y = l)); [done|].
        destruct (indexOf l r); [done|]. by rewrite IH.
    - rewrite <- (wf_vector _ Hwf), length_fmap.
      by rewrite lookup_app_r, Nat.sub_diag by lia. }
  destruct (run_saved l (getOpacity l s) es s1 Hwf1 Hes Hs1)
    as (s2 & Hr & Hwf2 & Hf2 & Hs2).
  pose proof (attrFrame_trans _ _ _ (watchVectorLayer_attrFrame l s) Hf2)
    as Hf.
  destruct (attrFrame_attrs _ _ l Hf) as (Hg2 & Hv2 & _).
  destruct (unwatch_restores l (getOpacity l s) s2) as (s3 & Hu & Ho);
    try done; try congruence.
  { rewrite (af_watchVector _ _ Hf). done. }
  exists s1, s2, s3, (newVectorItem l s).
  repeat split; try done.
  fold s1 in Hvc. rewrite Hvc. apply last_snoc.
Qed.

Lemma unwatch_restores_saved_opacity_witness :
  ∃ s1 s2 s3,
    watchLayer_ 3 exActive = Some s1
    ∧ getOpacity 3 exActive = (8 # 10)%Q
    ∧ getOpacity 3 s1 = 0%Q
    ∧ run [EvSetVisible 3 false; EvSetVisible 2 false; EvSetVisible 1 false;
           EvSetOpacity 3 (1 # 2)%Q; EvSetVisible 3 true; EvSetVisible 1 true]
        s1 = Some s2
    ∧ getOpacity 3 s2 = 0%Q
    ∧ unwatchLayer_ 3 s2 = Some s3
    ∧ getOpacity 3 s3 = (8 # 10)%Q.
Proof.
  destruct (unwatch_restores_saved_opacity exActive 3
              [EvSetVisible 3 false; EvSetVisible 2 false;
               EvSetVisible 1 false; EvSetOpacity 3 (1 # 2)%Q;
               EvSetVisible 3 true; EvSetVisible 1 true])
    as (s1 & s2 & s3 & item & Hw & _ & _ & _ & Hr & Hu & Ho).
  - exact exActive_wf.
  - apply indexOf_None. vm_compute. reflexivity.
  - vm_compute. reflexivity.
  - vm_compute. reflexivity.
  - vm_compute. reflexivity.
  - vm_compute. by eexists.
  - vm_compute. reflexivity.
  - exists s1, s2, s3. split; [exact Hw|]. split; [reflexivity|].
    vm_compute in Hw. injection Hw as <-. split; [reflexivity|].
    split; [exact Hr|]. vm_compute in Hr. injection Hr as <-.
    split; [reflexivity|]. split; [exact Hu|]. exact Ho.
Defined.

(** C5 as stated fails when a layer is watched twice: the second cache
    item saves the opacity the herald has already set, and the second
    unwatch restores that. *)
Lemma unwatch_restores_saved_opacity_counterexample :
  ∃ s',
    run [EvAdd 3; EvAdd 3; EvRemove 3; EvRemove 3] exActive = Some s'
    ∧ vectorLayers_ s' = []
    ∧ getOpacity 3 exActive = (8 # 10)%Q
    ∧ getOpacity 3 s' = 0%Q.
Proof.
  eexists. split; [vm_compute; reflexivity|].
  repeat split; vm_compute; reflexivity.
Qed.

(** C4.  After any sequence of events on a freshly built herald (watch and
    unwatch calls, collection add and remove, visibility and opacity
    changes, the two signals) each cache is as long as its tracked-layer
    array, the cache item and the layer at every index belong together,
    and no layer has an item in both caches. *)
Theorem caches_stay_aligned (objs : gmap nat Layer) (lyrs : list nat)
  (c : option Coordinate) (watchVector : bool) (es : list Event) :
  ∃ s,
    run es (construct objs lyrs c watchVector) = Some s
    ∧ length (googleCache_ s) = length (googleLayers_ s)
    ∧ length (vectorCache_ s) = length (vectorLayers_ s)
    ∧ (∀ i, googleLayers_ s !! i = g_layer <$> googleCache_ s !! i)
    ∧ (∀ i, vectorLayers_ s !! i = v_layer <$> vectorCache_ s !! i)
    ∧ (∀ g v, g ∈ googleCache_ s → v ∈ vectorCache_ s →
              g_layer g ≠ v_layer v).
Proof.
  destruct (run_ok es _ (construct_wf objs lyrs c watchVector))
    as (s & Hr & [Hg Hv Hd Hgk Hvk] & _).
  exists s. split; [done|].
  split; [by rewrite <- Hg, length_fmap|].
  split; [by rewrite <- Hv, length_fmap|].
  split; [intros i; by rewrite <- Hg, list_lookup_fmap|].
  split; [intros i; by rewrite <- Hv, list_lookup_fmap|].
  intros g v Hgin Hvin Heq.
  assert (instanceofGoogle (g_layer g) s = true) as H1.
  { apply Hgk. rewrite <- Hg. by apply list_elem_of_fmap_2. }
  assert (instanceofGoogle (v_layer v) s = false) as H2.
  { apply Hvk. rewrite <- Hv. by apply list_elem_of_fmap_2. }
  congruence.
Qed.

Lemma activations_app l1 l2 :
  activations (l1 ++ l2) = activations l1 + activations l2.
Proof.
  induction l1 as [|e r IH]; simpl; [done|].
  destruct e; try done. destruct b; simpl; by rewrite ?IH.
Qed.

Lemma activations_activateItem item s :
  activations (log (activateVectorLayerCacheItem_ item s))
  = activations (log s).
Proof.
  unfold activateVectorLayerCacheItem_. destruct (_ && _); [|done].
  change (activations (((log s ++ [EVectorActivate (v_herald item)])
                        ++ [ESetOpacity (v_layer item) 0]))
          = activations (log s)).
  rewrite !activations_app. simpl. lia.
Qed.

Lemma activations_forEach_activate items s :
  activations (log (forEach activateVectorLayerCacheItem_ items s))
  = activations (log s).
Proof.
  revert s. induction items as [|x r IH]; intros s; simpl; [done|].
  by rewrite IH, activations_activateItem.
Qed.

Lemma activations_mounted ch s :
  activations (log (mounted ch s)) = S (activations (log s)).
Proof.
  change (log (mounted ch s))
    with ((((((((log s ++ [ERemoveChild Ol3mapEl]) ++ [EAppendChild GmapEl])
                ++ [EControlsPush Ol3mapEl]) ++ [EViewActivate])
              ++ [EResize]) ++ [EViewSetCenter]) ++ [EViewSetZoom])
          ++ [EMarkActive true]).
  rewrite !activations_app. simpl. lia.
Qed.

Lemma activations_applyWinner w s :
  activations (log (applyWinner w s)) = activations (log s).
Proof.
  change (log (applyWinner w s))
    with ((log s ++ [ESetMapTypeId (getMapTypeId w s)])
          ++ [ESetStyles (getStyles w s)]).
  rewrite !activations_app. simpl. lia.
Qed.

(** The toggle decision with a winner, by cases on the guard. *)
Lemma toggle_winner_cases s w :
  domOk s → findTopMost s = Some w →
  ∃ s', toggleGoogleMaps_ s = Some s'
    ∧ (activationBlocked s = true →
       s' = applyWinner w s)
    ∧ (activationBlocked s = false →
       googleMapsIsActive_ s' = true
       ∧ activations (log s') = S (activations (log s))).
Proof.
  intros Hd Hw. rewrite (toggle_found s w Hw).
  destruct (activationBlocked s) eqn:Hb.
  - exists (applyWinner w s). split; [|done].
    by apply activate_blocked.
  - assert (googleMapsIsActive_ s = false) as Ha.
    { unfold activationBlocked in Hb. by destruct (googleMapsIsActive_ s). }
    unfold domOk in Hd. rewrite Ha in Hd.
    destruct (activate_unblocked (applyWinner w s) Hb Hd) as (ch & _ & ->).
    eexists. split; [done|]. split; [done|]. intros _.
    pose proof (itemFrame_forEach_activate (vectorCache_ (applyWinner w s))
                  (mounted ch (applyWinner w s))) as Hf.
    split; [by rewrite (fr_active _ _ Hf)|].
    by rewrite activations_forEach_activate, activations_mounted,
      activations_applyWinner.
Qed.

Lemma decisions_app l1 l2 :
  decisions (l1 ++ l2) = decisions l1 + decisions l2.
Proof.
  induction l1 as [|e r IH]; simpl; [done|].
  destruct e; simpl; by rewrite ?IH.
Qed.

Lemma decisions_activateItem item s :
  decisions (log (activateVectorLayerCacheItem_ item s))
  = decisions (log s).
Proof.
  unfold activateVectorLayerCacheItem_. destruct (_ && _); [|done].
  change (decisions (((log s ++ [EVectorActivate (v_herald item)])
                      ++ [ESetOpacity (v_layer item) 0]))
          = decisions (log s)).
  rewrite !decisions_app. simpl. lia.
Qed.

Lemma decisions_forEach_activate items s :
  decisions (log (forEach activateVectorLayerCacheItem_ items s))
  = decisions (log s).
Proof.
  revert s. induction items as [|x r IH]; intros s; simpl; [done|].
  by rewrite IH, decisions_activateItem.
Qed.

Lemma decisions_mounted ch s :
  decisions (log (mounted ch s)) = decisions (log s).
Proof.
  change (log (mounted ch s))
    with ((((((((log s ++ [ERemoveChild Ol3mapEl]) ++ [EAppendChild GmapEl])
                ++ [EControlsPush Ol3mapEl]) ++ [EViewActivate])
              ++ [EResize]) ++ [EViewSetCenter]) ++ [EViewSetZoom])
          ++ [EMarkActive true]).
  rewrite !decisions_app. simpl. lia.
Qed.

Lemma decisions_applyWinner w s :
  decisions (log (applyWinner w s)) = S (decisions (log s)).
Proof.
  change (log (applyWinner w s))
    with ((log s ++ [ESetMapTypeId (getMapTypeId w s)])
          ++ [ESetStyles (getStyles w s)]).
  rewrite !decisions_app. simpl. lia.
Qed.

(** A toggle decision that finds a winner shows in the log, whether the
    activation goes through or not. *)
Lemma toggle_winner_decisions s w :
  domOk s → findTopMost s = Some w →
  ∃ s', toggleGoogleMaps_ s = Some s'
    ∧ decisions (log s') = S (decisions (log s)).
Proof.
  intros Hd Hw. rewrite (toggle_found s w Hw).
  destruct (activationBlocked s) eqn:Hb.
  - exists (applyWinner w s). split; [by apply activate_blocked|].
    apply decisions_applyWinner.
  - assert (googleMapsIsActive_ s = false) as Ha.
    { unfold activationBlocked in Hb. by destruct (googleMapsIsActive_ s). }
    unfold domOk in Hd. rewrite Ha in Hd.
    destruct (activate_unblocked (applyWinner w s) Hb Hd) as (ch & _ & ->).
    eexists. split; [done|].
    by rewrite decisions_forEach_activate, decisions_mounted,
      decisions_applyWinner.
Qed.

Lemma gateOf_inv s p :
  gateOf s = Some p →
  onceCenter s = match p with GateCenter => true | _ => false end
  ∧ oncePostrender s = match p with GateRender => true | _ => false end
  ∧ ol3mapIsRenderered_ s
    = match p with GateOpen | GateMissed => true | _ => false end
  ∧ googleMapsIsActive_ s = gateOpen p
  ∧ (p = GateCenter → center s = None).
Proof.
  unfold gateOf.
  destruct (center s), (onceCenter s), (oncePostrender s),
    (ol3mapIsRenderered_ s), (googleMapsIsActive_ s); simpl;
    intros [= <-]; repeat split; done.
Qed.

Lemma gateOf_intro s p :
  onceCenter s = match p with GateCenter => true | _ => false end →
  oncePostrender s = match p with GateRender => true | _ => false end →
  ol3mapIsRenderered_ s
  = match p with GateOpen | GateMissed => true | _ => false end →
  googleMapsIsActive_ s = gateOpen p →
  (p = GateCenter → center s = None) →
  gateOf s = Some p.
Proof.
  unfold gateOf. intros -> -> -> -> Hc. destruct p; simpl; try done.
  by rewrite (Hc eq_refl).
Qed.

(** The toggle decision run by a signal handler on state [t]. *)
Lemma toggle_in_handler t w :
  wf t → findTopMost t = Some w →
  ∃ s', toggleGoogleMaps_ t = Some s'
    ∧ wf s' ∧ findTopMost s' = Some w
    ∧ center s' = center t ∧ onceCenter s' = onceCenter t
    ∧ oncePostrender s' = oncePostrender t
    ∧ ol3mapIsRenderered_ s' = ol3mapIsRenderered_ t
    ∧ decisions (log s') = S (decisions (log t))
    ∧ (activationBlocked t = true →
       s' = applyWinner w t
       ∧ googleMapsIsActive_ s' = googleMapsIsActive_ t
       ∧ activations (log s') = activations (log t))
    ∧ (activationBlocked t = false →
       googleMapsIsActive_ s' = true
       ∧ activations (log s') = S (activations (log t))).
Proof.
  intros Hwf Hw.
  destruct (toggle_wf t Hwf) as (s' & Ht & Hwf' & Hf).
  destruct (toggle_winner_cases t w (wf_dom _ Hwf) Hw)
    as (s'' & Ht' & Hb & Hu).
  assert (s'' = s') as -> by congruence.
  destruct (toggle_winner_decisions t w (wf_dom _ Hwf) Hw)
    as (s'' & Ht'' & Hn).
  assert (s'' = s') as -> by congruence.
  exists s'. split; [done|]. split; [done|].
  split; [by rewrite (toggleFrame_findTopMost _ _ Hf)|].
  split; [apply (tf_center _ _ Hf)|].
  split; [apply (tf_onceCenter _ _ Hf)|].
  split; [apply (tf_oncePostrender _ _ Hf)|].
  split; [apply (tf_rendered _ _ Hf)|].
  split; [done|].
  split; [|done]. intros Hbl. rewrite (Hb Hbl).
  split; [done|]. split; [done | apply activations_applyWinner].
Qed.

(** The [postrender] handler, run on a herald that is not active: it sets
    the render flag, and its toggle decision activates exactly when the
    view has a center. *)
Lemma postrender_handler s w :
  wf s → findTopMost s = Some w →
  oncePostrender s = true → googleMapsIsActive_ s = false →
  ∃ s', firePostrender s = Some s'
    ∧ wf s' ∧ findTopMost s' = Some w
    ∧ center s' = center s ∧ onceCenter s' = onceCenter s
    ∧ oncePostrender s' = false ∧ ol3mapIsRenderered_ s' = true
    ∧ googleMapsIsActive_ s' = isDefined (center s)
    ∧ activations (log s')
      = activations (log s) + (if isDefined (center s) then 1 else 0)
    ∧ decisions (log s') = S (decisions (log s)).
Proof.
  intros Hwf Hw Hop Ha. unfold firePostrender, onPostrender. rewrite Hop.
  set (t := set_ol3mapIsRenderered_ true (set_oncePostrender false s)).
  destruct (toggle_in_handler t w)
    as (s' & Ht & Hwf' & Hw' & Hc' & Hoc' & Hop' & Hr' & Hn & Hb & Hu).
  { apply (wf_preserved s); done. }
  { exact Hw. }
  assert (activationBlocked t = negb (isDefined (center s))) as Hbl.
  { unfold activationBlocked.
    change (googleMapsIsActive_ t) with (googleMapsIsActive_ s).
    change (center t) with (center s). by rewrite Ha. }
  exists s'. split; [done|]. split; [done|]. split; [done|].
  split; [done|]. split; [done|]. split; [done|]. split; [done|].
  split; [|split; [|done]].
  - destruct (isDefined (center s)); simpl in Hbl.
    + by destruct (Hu Hbl).
    + destruct (Hb Hbl) as (_ & -> & _). exact Ha.
  - destruct (isDefined (center s)); simpl in Hbl.
    + destruct (Hu Hbl) as [_ ->]. change (log t) with (log s). lia.
    + destruct (Hb Hbl) as (_ & _ & ->). change (log t) with (log s). lia.
Qed.

(** The [change:center] handler: it installs the [postrender] listener
    and runs the toggle decision. *)
Lemma center_handler s w c :
  wf s → findTopMost s = Some w → onceCenter s = true →
  ∃ s', changeCenter c s = Some s'
    ∧ wf s' ∧ findTopMost s' = Some w
    ∧ center s' = c ∧ onceCenter s' = false ∧ oncePostrender s' = true
    ∧ ol3mapIsRenderered_ s' = ol3mapIsRenderered_ s
    ∧ decisions (log s') = S (decisions (log s))
    ∧ (ol3mapIsRenderered_ s = false →
       s' = applyWinner w
              (set_oncePostrender true
                 (set_onceCenter false (set_center c s)))
       ∧ googleMapsIsActive_ s' = googleMapsIsActive_ s
       ∧ activations (log s') = activations (log s))
    ∧ (googleMapsIsActive_ s = false → ol3mapIsRenderered_ s = true →
       is_Some c → googleMapsIsActive_ s' = true).
Proof.
  intros Hwf Hw Hoc. unfold changeCenter, onChangeCenter. cbv zeta.
  change (onceCenter (set_center c s)) with (onceCenter s). rewrite Hoc.
  set (t := set_oncePostrender true
              (set_onceCenter false (set_center c s))).
  destruct (toggle_in_handler t w)
    as (s' & Ht & Hwf' & Hw' & Hc' & Hoc' & Hop' & Hr' & Hn & Hb & Hu).
  { apply (wf_preserved s); done. }
  { exact Hw. }
  exists s'. split; [done|]. split; [done|]. split; [done|].
  split; [done|]. split; [done|]. split; [done|]. split; [done|].
  split; [done|]. split.
  - intros Hr. apply Hb. unfold activationBlocked.
    change (ol3mapIsRenderered_ t) with (ol3mapIsRenderered_ s).
    rewrite Hr. simpl. by rewrite orb_true_r.
  - intros Ha Hr [c' ->]. apply Hu. unfold activationBlocked.
    change (googleMapsIsActive_ t) with (googleMapsIsActive_ s).
    change (ol3mapIsRenderered_ t) with (ol3mapIsRenderered_ s).
    by rewrite Ha, Hr.
Qed.

Lemma signal_step s w p g :
  wf s → findTopMost s = Some w → gateOf s = Some p →
  ∃ s', step (signalEvent g) s = Some s'
    ∧ wf s' ∧ findTopMost s' = Some w
    ∧ gateOf s' = Some (nextGate (isDefined (center s)) p g)
    ∧ isDefined (center s') = (gateStep (p, isDefined (center s)) g).2
    ∧ activations (log s')
      = activations (log s)
        + (if negb (gateOpen p)
              && gateOpen (nextGate (isDefined (center s)) p g)
           then 1 else 0)
    ∧ decisions (log s') + pending (nextGate (isDefined (center s)) p g)
      = decisions (log s) + pending p.
Proof.
  intros Hwf Hw Hp.
  destruct (gateOf_inv s p Hp) as (Hoc & Hop & Hr & Ha & Hc).
  destruct g as [|c]; simpl.
  - (* postrender *)
    assert (p = GateRender ∨ p ≠ GateRender) as [->|Hne]
      by (destruct p; (by left) || (by right)).
    + destruct (postrender_handler s w Hwf Hw Hop Ha)
        as (s' & Hst & Hwf' & Hw' & Hc' & Hoc' & Hop' & Hr' & Ha' & Hn & Hd).
      exists s'. split; [done|]. split; [done|]. split; [done|].
      split; [|split; [by rewrite Hc'|]].
      * simpl in Hoc. rewrite Hoc in Hoc'.
        destruct (isDefined (center s));
          apply gateOf_intro; simpl; done.
      * split; [rewrite Hn|rewrite Hd];
          destruct (isDefined (center s)); simpl; lia.
    + unfold firePostrender. rewrite Hop.
      exists s. destruct p; try done;
        (split; [done|]); (split; [done|]); (split; [done|]);
        (split; [done|]); (split; [done|]); simpl; split; lia.
  - (* change:center *)
    assert (p = GateCenter ∨ p ≠ GateCenter) as [->|Hne]
      by (destruct p; (by left) || (by right)).
    + destruct (center_handler s w c Hwf Hw Hoc)
        as (s' & Hst & Hwf' & Hw' & Hc' & Hoc' & Hop' & Hr' & Hd & Hb & _).
      destruct (Hb Hr) as (_ & Ha' & Hn).
      exists s'. split; [done|]. split; [done|]. split; [done|].
      split; [|split; [by rewrite Hc'|]].
      * simpl in Hr, Ha. rewrite Hr in Hr'. rewrite Ha in Ha'.
        apply gateOf_intro; simpl; done.
      * split; [rewrite Hn|rewrite Hd]; simpl; lia.
    + unfold changeCenter. cbv zeta.
      change (onceCenter (set_center c s)) with (onceCenter s). rewrite Hoc.
      exists (set_center c s).
      destruct p; try done;
        (split; [done|]); (split; [by apply (wf_preserved s)|]);
        (split; [exact Hw|]);
        (split; [by apply gateOf_intro|]); (split; [done|]);
        simpl; split; lia.
Qed.

Lemma gate_settled p k sigs :
  p = GateOpen ∨ p = GateMissed → (foldl gateStep (p, k) sigs).1 = p.
Proof.
  revert k. induction sigs as [|g r IH]; intros k Hp; simpl; [done|].
  destruct Hp as [-> | ->], g; simpl; apply IH; auto.
Qed.

Lemma signals_run sigs s w p :
  wf s → findTopMost s = Some w → gateOf s = Some p →
  ∃ s', run (signalEvent <$> sigs) s = Some s'
    ∧ gateOf s' = Some (foldl gateStep (p, isDefined (center s)) sigs).1
    ∧ activations (log s')
      = activations (log s)
        + (if negb (gateOpen p)
              && gateOpen (foldl gateStep (p, isDefined (center s)) sigs).1
           then 1 else 0)
    ∧ decisions (log s')
      + pending (foldl gateStep (p, isDefined (center s)) sigs).1
      = decisions (log s) + pending p.
Proof.
  revert s p. induction sigs as [|g r IH]; intros s p Hwf Hw Hp; simpl.
  - exists s. split; [done|]. split; [done|].
    split; [destruct (gateOpen p); simpl; lia | done].
  - destruct (signal_step s w p g Hwf Hw Hp)
      as (s1 & Hst & Hwf1 & Hw1 & Hp1 & Hk1 & Hn1 & Hd1).
    rewrite Hst. simpl.
    destruct (IH s1 _ Hwf1 Hw1 Hp1) as (s' & Hr & Hp' & Hn' & Hd').
    unfold gateStep at 2 4 6. simpl. simpl in Hk1. rewrite <- Hk1.
    exists s'. split; [done|]. split; [done|]. split; [|lia].
    rewrite Hn', Hn1.
    set (k := isDefined (center s)) in *.
    set (k1 := isDefined (center s1)) in *.
    destruct p, g; simpl;
      rewrite ?(gate_settled GateOpen k1 r (or_introl eq_refl)),
        ?(gate_settled GateMissed k1 r (or_intror eq_refl)); simpl;
      try lia;
      destruct k; simpl;
      rewrite ?(gate_settled GateOpen k1 r (or_introl eq_refl)),
        ?(gate_settled GateMissed k1 r (or_intror eq_refl)); simpl; lia.
Qed.

Lemma gate_activatesOn p k sigs :
  p = GateCenter ∨ p = GateRender →
  gateOpen (foldl gateStep (p, k) sigs).1
  = activatesOn (match p with GateRender => true | _ => false end) k sigs.
Proof.
  revert p k. induction sigs as [|g r IH]; intros p k Hp.
  - by destruct Hp as [-> | ->].
  - destruct Hp as [-> | ->], g as [|c].
    + exact (IH GateCenter k (or_introl eq_refl)).
    + exact (IH GateRender (isDefined c) (or_intror eq_refl)).
    + destruct k.
      * exact (f_equal gateOpen
                 (gate_settled GateOpen true r (or_introl eq_refl))).
      * exact (f_equal gateOpen
                 (gate_settled GateMissed false r (or_intror eq_refl))).
    + exact (IH GateRender (isDefined c) (or_intror eq_refl)).
Qed.

Lemma handlersRun_spent sigs : handlersRun false false sigs = 0.
Proof. induction sigs as [|[|c] r IH]; simpl; done. Qed.

Lemma gate_handlersRun p k sigs :
  pending (foldl gateStep (p, k) sigs).1
  + handlersRun (match p with GateCenter => true | _ => false end)
      (match p with GateRender => true | _ => false end) sigs
  = pending p.
Proof.
  assert (∀ q k' r, q = GateOpen ∨ q = GateMissed →
            pending (foldl gateStep (q, k') r).1
            + handlersRun false false r = 0) as Hdone.
  { intros q k' r Hq. rewrite (gate_settled q k' r Hq), handlersRun_spent.
    by destruct Hq as [-> | ->]. }
  revert p k. induction sigs as [|g r IH]; intros p k; [simpl; lia|].
  destruct p, g as [|c].
  - exact (IH GateCenter k).
  - pose proof (IH GateRender (isDefined c)) as H0.
    change (pending (foldl gateStep (GateRender, isDefined c) r).1
            + S (handlersRun false true r) = 2).
    change (pending (foldl gateStep (GateRender, isDefined c) r).1
            + handlersRun false true r = 1) in H0. lia.
  - destruct k.
    + pose proof (Hdone GateOpen true r (or_introl eq_refl)) as H0.
      change (pending (foldl gateStep (GateOpen, true) r).1
              + S (handlersRun false false r) = 1). lia.
    + pose proof (Hdone GateMissed false r (or_intror eq_refl)) as H0.
      change (pending (foldl gateStep (GateMissed, false) r).1
              + S (handlersRun false false r) = 1). lia.
  - exact (IH GateRender (isDefined c)).
  - exact (Hdone GateOpen k (SigPostrender :: r) (or_introl eq_refl)).
  - exact (Hdone GateOpen k (SigCenter c :: r) (or_introl eq_refl)).
  - exact (Hdone GateMissed k (SigPostrender :: r) (or_intror eq_refl)).
  - exact (Hdone GateMissed k (SigCenter c :: r) (or_intror eq_refl)).
Qed.

(** C3, as amended.  The two one-shot signals are not independent: the
    [postrender] listener exists only once [change:center] was heard (or
    from the start when the view has a center at construction).  Starting
    with the listeners as the constructor left them and with a winner
    present, after any sequence of the two signals, center changes that
    unset a defined center included, the herald is active exactly when
    the first [postrender] that arrived once its listener was installed
    found the view with a center; it was then activated exactly once, by
    that [postrender]; a [postrender] that arrives before the listener is
    installed is not heard, and one that is heard while the center is
    unset spends the listener without activating.  Each handler that
    runs calls the toggle decision once. *)
Theorem first_activation_gate (s : State) (w : nat) (sigs : list Signal) :
  wf s → findTopMost s = Some w →
  gateOf s = Some GateCenter ∨ gateOf s = Some GateRender →
  centerChanges (isDefined (center s)) sigs = true →
  ∃ s',
    run (signalEvent <$> sigs) s = Some s'
    ∧ googleMapsIsActive_ s'
      = activatesOn (oncePostrender s) (isDefined (center s)) sigs
    ∧ activations (log s')
      = activations (log s)
        + (if activatesOn (oncePostrender s) (isDefined (center s)) sigs
           then 1 else 0)
    ∧ decisions (log s')
      = decisions (log s)
        + handlersRun (onceCenter s) (oncePostrender s) sigs.
Proof.
  intros Hwf Hw Hgate _.
  assert (∃ p, gateOf s = Some p ∧ (p = GateCenter ∨ p = GateRender))
    as (p & Hp & Hcase) by (destruct Hgate; eexists; eauto).
  destruct (gateOf_inv s p Hp) as (Hoc & Hop & _).
  destruct (signals_run sigs s w p Hwf Hw Hp) as (s' & Hr & Hp' & Hn & Hd).
  destruct (gateOf_inv _ _ Hp') as (_ & _ & _ & Ha' & _).
  pose proof (gate_activatesOn p (isDefined (center s)) sigs Hcase) as Hact.
  pose proof (gate_handlersRun p (isDefined (center s)) sigs) as Hrun.
  exists s'. split; [done|].
  rewrite Hoc, Hop, <- Hact, Ha'.
  split; [done|]. split; [|lia].
  rewrite Hn. by destruct Hcase as [-> | ->].
Qed.

Lemma first_activation_gate_witness :
  wf exGated ∧ findTopMost exGated = Some 1
  ∧ gateOf exGated = Some GateCenter
  ∧ activations (log exGated) = 0 ∧ decisions (log exGated) = 1
  ∧ (∃ s', run [EvChangeCenter (Some exCenter); EvPostrender] exGated
           = Some s'
           ∧ googleMapsIsActive_ s' = true
           ∧ activations (log s') = 1
           ∧ decisions (log s') = 3)
  ∧ (∃ s', run [EvPostrender; EvChangeCenter (Some exCenter)] exGated
           = Some s'
           ∧ googleMapsIsActive_ s' = false
           ∧ activations (log s') = 0
           ∧ decisions (log s') = 2)
  ∧ (∃ s', run [EvPostrender; EvChangeCenter (Some exCenter); EvPostrender;
                EvPostrender; EvChangeCenter (Some exCenter)] exGated
           = Some s'
           ∧ googleMapsIsActive_ s' = true
           ∧ activations (log s') = 1
           ∧ decisions (log s') = 3)
  ∧ (∃ s', run [EvChangeCenter (Some exCenter); EvChangeCenter None;
                EvPostrender; EvChangeCenter (Some exCenter); EvPostrender]
               exGated
           = Some s'
           ∧ googleMapsIsActive_ s' = false
           ∧ activations (log s') = 0
           ∧ decisions (log s') = 3).
Proof.
  assert (wf exGated) as Hwf by exact (wf_of_run _ _ _ _ _ _ exGated_run).
  assert (findTopMost exGated = Some 1) as Hw by (vm_compute; reflexivity).
  assert (gateOf exGated = Some GateCenter) as Hg by reflexivity.
  split; [exact Hwf|]. split; [exact Hw|]. split; [exact Hg|].
  split; [reflexivity|]. split; [reflexivity|].
  split; [|split; [|split]].
  - exact (first_activation_gate exGated 1
             [SigCenter (Some exCenter); SigPostrender]
             Hwf Hw (or_introl Hg) eq_refl).
  - exact (first_activation_gate exGated 1
             [SigPostrender; SigCenter (Some exCenter)]
             Hwf Hw (or_introl Hg) eq_refl).
  - exact (first_activation_gate exGated 1
             [SigPostrender; SigCenter (Some exCenter); SigPostrender;
              SigPostrender; SigCenter (Some exCenter)]
             Hwf Hw (or_introl Hg) eq_refl).
  - exact (first_activation_gate exGated 1
             [SigCenter (Some exCenter); SigCenter None; SigPostrender;
              SigCenter (Some exCenter); SigPostrender]
             Hwf Hw (or_introl Hg) eq_refl).
Defined.

(** C3 as stated fails when [postrender] comes first: after both signals
    the winner is there and the map is still inactive. *)
Lemma first_activation_gate_counterexample :
  ∃ s',
    run [EvPostrender; EvChangeCenter (Some exCenter)] exGated = Some s'
    ∧ findTopMost s' = Some 1
    ∧ center s' = Some exCenter
    ∧ googleMapsIsActive_ s' = false.
Proof.
  eexists. split; [vm_compute; reflexivity|].
  repeat split; vm_compute; reflexivity.
Qed.





(** * Further properties of the herald *)

Lemma sameMount_refl s : sameMount s s.
Proof. done. Qed.

Lemma sameMount_trans s1 s2 s3 :
  sameMount s1 s2 → sameMount s2 s3 → sameMount s1 s3.
Proof. unfold sameMount. intuition congruence. Qed.

Lemma mountOk_same s s' : sameMount s s' → mountOk s → mountOk s'.
Proof. intros (Ha & Ht & Hc & Hv). unfold mountOk. by rewrite Ha, Ht, Hc, Hv. Qed.

Lemma itemFrame_sameMount s s' : itemFrame s s' → sameMount s s'.
Proof.
  intros Hf. unfold sameMount.
  by rewrite (fr_active _ _ Hf), (fr_targetChildren _ _ Hf),
    (fr_controls _ _ Hf), (fr_viewHeraldActive _ _ Hf).
Qed.

Lemma activate_mountOk s s' :
  mountOk s → activateGoogleMaps_ s = Some s' → mountOk s'.
Proof.
  intros Hm. destruct (activationBlocked s) eqn:Hb.
  - rewrite (activate_blocked s Hb). by intros [= <-].
  - assert (googleMapsIsActive_ s = false) as Ha.
    { unfold activationBlocked in Hb. by destruct (googleMapsIsActive_ s). }
    unfold mountOk in Hm. rewrite Ha in Hm. destruct Hm as (Ht & Hc & Hv).
    destruct (activate_unblocked s Hb) as (ch & Hch & ->).
    { rewrite Ht. left. }
    intros [= <-]. rewrite Ht in Hch. simpl in Hch.
    injection Hch as <-.
    apply (mountOk_same (mounted [] s));
      [apply itemFrame_sameMount, itemFrame_forEach_activate|].
    unfold mountOk.
    change (googleMapsIsActive_ (mounted [] s)) with true.
    change (targetChildren (mounted [] s)) with [GmapEl].
    change (controls (mounted [] s)) with (controls s ++ [Ol3mapEl]).
    change (viewHeraldActive (mounted [] s)) with true.
    by rewrite Hc.
Qed.

Lemma deactivate_mountOk s s' :
  mountOk s → deactivateGoogleMaps_ s = Some s' → mountOk s'.
Proof.
  intros Hm. destruct (googleMapsIsActive_ s) eqn:Ha.
  - unfold mountOk in Hm. rewrite Ha in Hm. destruct Hm as (Ht & Hc & Hv).
    destruct (deactivate_active s Ha) as (ch & Hch & ->).
    { rewrite Ht. left. }
    intros [= <-]. rewrite Ht in Hch. simpl in Hch. injection Hch as <-.
    pose proof (itemFrame_sameMount _ _
                  (itemFrame_forEach_deactivate (vectorCache_ s)
                     (unmounted [] s))) as (_ & Ht' & Hc' & Hv').
    unfold mountOk.
    change (googleMapsIsActive_ (markActive false ?t)) with false.
    change (targetChildren (markActive false ?t)) with (targetChildren t).
    change (controls (markActive false ?t)) with (controls t).
    change (viewHeraldActive (markActive false ?t)) with (viewHeraldActive t).
    rewrite Ht', Hc', Hv'.
    change (targetChildren (unmounted [] s)) with [Ol3mapEl].
    change (controls (unmounted [] s)) with (delete 0 (controls s)).
    change (viewHeraldActive (unmounted [] s)) with false.
    by rewrite Hc.
  - rewrite (deactivate_inactive s Ha). by intros [= <-].
Qed.

Lemma toggle_mountOk s s' :
  mountOk s → toggleGoogleMaps_ s = Some s' → mountOk s'.
Proof.
  intros Hm. destruct (findTopMost s) as [w|] eqn:Hw.
  - rewrite (toggle_found s w Hw). by apply activate_mountOk.
  - rewrite (toggle_not_found s Hw). by apply deactivate_mountOk.
Qed.

Lemma watchVectorLayer_sameMount l s : sameMount s (watchVectorLayer_ l s).
Proof.
  destruct (getSource l s) as [src|] eqn:Hsrc.
  - rewrite (watchVectorLayer_eq l s) by by eexists.
    set (p := preparedVector l s).
    apply (sameMount_trans s p).
    { unfold p, preparedVector. cbv zeta. by destruct (l_gmStyle _). }
    apply (sameMount_trans p
             (activateVectorLayerCacheItem_ (newVectorItem l s) p));
      [apply itemFrame_sameMount, itemFrame_activateItem | done].
  - unfold watchVectorLayer_. by rewrite Hsrc.
Qed.

Lemma watchLayer_mountOk l s s' :
  mountOk s → watchLayer_ l s = Some s' → mountOk s'.
Proof.
  intros Hm. unfold watchLayer_. destruct (instanceofGoogle l s).
  - rewrite watchGoogleLayer_eq.
    destruct (watchedGoogle_eq l s) as (k & ls & n & ->).
    by apply toggle_mountOk.
  - destruct (_ && _); intros [= <-]; [|done].
    apply (mountOk_same s); [apply watchVectorLayer_sameMount | done].
Qed.

Lemma unwatchLayer_mountOk l s s' :
  wf s → mountOk s → unwatchLayer_ l s = Some s' → mountOk s'.
Proof.
  intros Hwf Hm. unfold unwatchLayer_. destruct (instanceofGoogle l s).
  - destruct (indexOf l (googleLayers_ s)) as [i|] eqn:Hi.
    + destruct (cache_lookup_aligned _ _ _ _ _ (wf_google _ Hwf) Hi)
        as (item & Hitem & _).
      rewrite (unwatchGoogleLayer_found l i item s Hi Hitem).
      by apply toggle_mountOk.
    + rewrite (unwatchGoogleLayer_absent l s Hi). by intros [= <-].
  - destruct (_ && _); [|by intros [= <-]].
    destruct (indexOf l (vectorLayers_ s)) as [i|] eqn:Hi.
    + destruct (cache_lookup_aligned _ _ _ _ _ (wf_vector _ Hwf) Hi)
        as (item & Hitem & _).
      rewrite (unwatchVectorLayer_found l i item s Hi Hitem).
      intros [= <-]. by apply (mountOk_same s).
    + rewrite (unwatchVectorLayer_absent l s Hi). by intros [= <-].
Qed.

Lemma handleVisible_itemFrame item s :
  itemFrame s (handleVectorLayerVisibleChange_ item s).
Proof.
  unfold handleVectorLayerVisibleChange_.
  destruct (getVisible _ _);
    [apply itemFrame_activateItem | apply itemFrame_deactivateItem].
Qed.

Lemma dispatch_mountOk ls s s' :
  mountOk s → dispatch ls s = Some s' → mountOk s'.
Proof.
  revert s. induction ls as [|x r IH]; intros s Hm; simpl.
  - by intros [= <-].
  - destruct (lk_handler x) as [|item]; simpl.
    + destruct (toggleGoogleMaps_ s) as [s1|] eqn:Ht; simpl; [|done].
      apply IH. by apply (toggle_mountOk s).
    + apply IH.
      apply (mountOk_same s); [|done].
      apply itemFrame_sameMount, handleVisible_itemFrame.
Qed.

Lemma step_mountOk e s s' :
  wf s → mountOk s → step e s = Some s' → mountOk s'.
Proof.
  intros Hwf Hm. destruct e as [l|l|l|l|l b|l q| |c]; simpl.
  - by apply watchLayer_mountOk.
  - by apply unwatchLayer_mountOk.
  - unfold addLayer, handleLayersAdd_. by apply watchLayer_mountOk.
  - unfold removeLayer, handleLayersRemove_.
    destruct (indexOf l (layers s)) as [i|]; [|by intros [= <-]].
    apply unwatchLayer_mountOk; [|done]. by apply (wf_preserved s).
  - unfold setVisible. destruct (decide _); [by intros [= <-]|].
    by apply dispatch_mountOk.
  - by intros [= <-].
  - unfold firePostrender, onPostrender.
    destruct (oncePostrender s); [|by intros [= <-]].
    by apply toggle_mountOk.
  - unfold changeCenter, onChangeCenter. cbv zeta.
    destruct (onceCenter (set_center c s)); [|by intros [= <-]].
    by apply toggle_mountOk.
Qed.

Lemma run_mountOk es s s' :
  wf s → mountOk s → run es s = Some s' → mountOk s'.
Proof.
  revert s. induction es as [|e r IH]; intros s Hwf Hm; simpl.
  - by intros [= <-].
  - destruct (step_ok e s Hwf) as (s1 & Hst & Hwf1 & _).
    rewrite Hst. simpl. apply IH; [done|]. by apply (step_mountOk e s).
Qed.

(** C8, as amended.  On every active state the herald reaches,
    [deactivateGoogleMaps_] makes its calls in this order: remove the
    OpenLayers viewport from the control stack of the Google Maps map
    (the code removes index 0, where the viewport sits, alone), detach
    the Google Maps div from the target, re-attach the OpenLayers
    viewport, deactivate the view herald, reset the viewport's position
    style, run the per-item deactivation for every vector cache item, and
    only then mark the herald inactive. *)
Theorem deactivation_order (objs : gmap nat Layer) (lyrs : list nat)
  (c : option Coordinate) (watchVector : bool) (es : list Event)
  (s : State) :
  run es (construct objs lyrs c watchVector) = Some s →
  googleMapsIsActive_ s = true →
  ∃ s',
    deactivateGoogleMaps_ s = Some s'
    ∧ log s' = log s ++ deactivationSteps (vectorCache_ s)
    ∧ controls s !! 0 = Some Ol3mapEl
    ∧ controls s' = []
    ∧ targetChildren s = [GmapEl]
    ∧ targetChildren s' = [Ol3mapEl]
    ∧ googleMapsIsActive_ s' = false
    ∧ ol3Position s' = "relative"%string
    ∧ viewHeraldActive s' = false.
Proof.
  intros Hrun Ha.
  assert (mountOk s) as Hm.
  { apply (run_mountOk es (construct objs lyrs c watchVector));
      [apply construct_wf | done | done]. }
  assert (wf s) as Hwf by exact (wf_of_run _ _ _ _ _ _ Hrun).
  pose proof Hm as Hm0. unfold mountOk in Hm0. rewrite Ha in Hm0.
  destruct Hm0 as (Ht & Hc & _).
  destruct (deactivate_steps s Ha) as (s' & Hd & Hl & Ha' & Hc' & _ & Hp & Hv).
  { rewrite Ht. left. }
  assert (mountOk s') as Hm' by exact (deactivate_mountOk s s' Hm Hd).
  unfold mountOk in Hm'. rewrite Ha' in Hm'. destruct Hm' as (Ht' & _).
  exists s'. split; [done|]. split; [done|].
  split; [by rewrite Hc|]. split; [by rewrite Hc', Hc|].
  repeat split; done.
Qed.

Lemma deactivation_order_witness :
  ∃ s', deactivateGoogleMaps_ exWithVector = Some s'
        ∧ log s' = log exWithVector
                   ++ deactivationSteps (vectorCache_ exWithVector)
        ∧ controls exWithVector !! 0 = Some Ol3mapEl
        ∧ controls s' = []
        ∧ googleMapsIsActive_ s' = false.
Proof.
  destruct (deactivation_order exObjects [] None true
              (exActiveTrace ++ [EvAdd 3]) exWithVector exWithVector_run
              eq_refl)
    as (s' & Hd & Hl & Hc & Hc' & _ & _ & Hf & _).
  exists s'. repeat split; assumption.
Defined.

(** X1. the surface mounted in the target is the Google Maps div exactly
    while the herald is active. *)
Theorem mount_follows_active (objs : gmap nat Layer) (lyrs : list nat)
  (c : option Coordinate) (watchVector : bool) (es : list Event) :
  ∃ s,
    run es (construct objs lyrs c watchVector) = Some s
    ∧ (googleMapsIsActive_ s = true →
       targetChildren s = [GmapEl] ∧ controls s = [Ol3mapEl]
       ∧ viewHeraldActive s = true)
    ∧ (googleMapsIsActive_ s = false →
       targetChildren s = [Ol3mapEl] ∧ controls s = []
       ∧ viewHeraldActive s = false).
Proof.
  assert (∀ es s, wf s → mountOk s →
            ∃ s', run es s = Some s' ∧ mountOk s') as Hrun.
  { clear. induction es as [|e r IH]; intros s Hwf Hm; simpl.
    - by exists s.
    - destruct (step_ok e s Hwf) as (s1 & Hst & Hwf1 & _).
      rewrite Hst. simpl. apply IH; [done|].
      by apply (step_mountOk e s). }
  destruct (Hrun es (construct objs lyrs c watchVector)) as (s & Hr & Hm).
  - apply construct_wf.
  - done.
  - exists s. split; [done|]. unfold mountOk in Hm.
    destruct (googleMapsIsActive_ s); split; done.
Qed.

(** X2. without a winner the toggle decision leaves the herald inactive,
    whatever it was before, with the OpenLayers viewport in the target. *)
Theorem no_winner_deactivates (s : State) :
  wf s →
  (∀ l, l ∈ layers s → ¬ qualifies s l) →
  ∃ s',
    toggleGoogleMaps_ s = Some s'
    ∧ googleMapsIsActive_ s' = false
    ∧ Ol3mapEl ∈ targetChildren s'
    ∧ gmapTypeId s' = gmapTypeId s ∧ gmapStyles s' = gmapStyles s
    ∧ (googleMapsIsActive_ s = false → s' = s).
Proof.
  intros Hwf Hno.
  assert (findTopMost s = None) as Hw.
  { apply findTopMost_None. intros x Hx.
    apply isCandidate_not_qualifies; [apply Hwf | auto]. }
  rewrite (toggle_not_found s Hw).
  destruct (deactivate_result s (wf_dom _ Hwf)) as (s' & Hd & Hi & Ha & Hd').
  exists s'. split; [done|]. split; [done|].
  split. { unfold domOk in Hd'. by rewrite Ha in Hd'. }
  assert (gmapTypeId s' = gmapTypeId s ∧ gmapStyles s' = gmapStyles s)
    as [H1 H2]; [|done].
  destruct (googleMapsIsActive_ s) eqn:Hact.
  - destruct (deactivate_active s Hact) as (ch & _ & Heq).
    { pose proof (wf_dom _ Hwf) as Hdom. unfold domOk in Hdom.
      by rewrite Hact in Hdom. }
    rewrite Heq in Hd. injection Hd as <-.
    pose proof (itemFrame_forEach_deactivate (vectorCache_ s)
                  (unmounted ch s)) as Hf.
    change (gmapTypeId (markActive false ?t)) with (gmapTypeId t).
    change (gmapStyles (markActive false ?t)) with (gmapStyles t).
    by rewrite (fr_gmapTypeId _ _ Hf), (fr_gmapStyles _ _ Hf).
  - by rewrite (Hi eq_refl).
Qed.

Lemma no_winner_deactivates_witness :
  ∃ s',
    toggleGoogleMaps_ (storeVisible 1 false (storeVisible 2 false exActive))
    = Some s'
    ∧ googleMapsIsActive_ s' = false
    ∧ (Ol3mapEl ∈ targetChildren s').
Proof.
  destruct (no_winner_deactivates
              (storeVisible 1 false (storeVisible 2 false exActive)))
    as (s' & Ht & Ha & Hin & _).
  - apply (wf_attr (storeVisible 2 false exActive));
      [|apply attrFrame_storeVisible|done..].
    apply (wf_attr exActive);
      [apply exActive_wf|apply attrFrame_storeVisible|done..].
  - intros l Hl Hq. destruct Hq as (_ & Hv & _).
    change (layers (storeVisible 1 false (storeVisible 2 false exActive)))
      with [1; 2] in Hl.
    apply elem_of_cons in Hl as [->|Hl]; [vm_compute in Hv; discriminate|].
    apply list_elem_of_singleton in Hl as ->.
    vm_compute in Hv. discriminate.
  - by exists s'.
Defined.

Lemma everyUntilFound_app_hit hit (pre post : list nat) found found' :
  (∃ x, x ∈ pre ∧ hit x = true) →
  everyUntilFound hit (pre ++ post) found = everyUntilFound hit pre found'.
Proof.
  induction pre as [|y pre IH]; intros (x & Hx & Hhit); simpl.
  - by apply elem_of_nil in Hx.
  - destruct (hit y) eqn:Hy; [done|]. apply IH. exists x. split; [|done].
    apply elem_of_cons in Hx as [->|Hx]; [congruence | done].
Qed.

Lemma everyUntilFound_reaches hit (pre : list nat) l post :
  (∀ x, x ∈ pre → hit x = true → x = l) → hit l = true →
  everyUntilFound hit (pre ++ l :: post) None = Some l.
Proof.
  intros Hpre Hl. induction pre as [|y pre IH]; simpl.
  - by rewrite Hl.
  - destruct (hit y) eqn:Hy.
    + f_equal. apply Hpre; [left | done].
    + apply IH. intros x Hx. apply Hpre. by right.
Qed.

(** Once [watchGoogleLayer_] has pushed [l], the candidates are those of
    before, and [l] if it is a visible Google layer. *)
Lemma isCandidate_watchedGoogle l arr s x :
  isCandidate (watchedGoogle l (set_layers arr s)) x
  = isCandidate s x
    || (bool_decide (x = l) && instanceofGoogle l s && getVisible l s).
Proof.
  destruct (watchedGoogle_eq l (set_layers arr s)) as (k & ls & n & ->).
  unfold isCandidate.
  match goal with |- context [googleLayers_ ?t] =>
    change (googleLayers_ t) with (googleLayers_ s ++ [l]);
    change (instanceofGoogle x t) with (instanceofGoogle x s);
    change (getVisible x t) with (getVisible x s)
  end.
  assert (isDefined (indexOf x (googleLayers_ s ++ [l]))
          = isDefined (indexOf x (googleLayers_ s)) || bool_decide (x = l))
    as ->.
  { apply eq_true_iff_eq.
    rewrite orb_true_iff, !isDefined_indexOf, bool_decide_eq_true,
      elem_of_app, list_elem_of_singleton. done. }
  destruct (bool_decide (x = l)) eqn:Hx.
  - apply bool_decide_eq_true in Hx as ->.
    destruct (instanceofGoogle l s), (getVisible l s),
      (isDefined (indexOf l (googleLayers_ s))); done.
  - by rewrite !orb_false_r.
Qed.

(** X3. [handleLayersAdd_] after an insertion anywhere in the layer
    collection: a visible Google layer is tracked and the toggle decision
    runs, so that the Google Maps map has the map type and the styles of
    the top-most candidate of the new collection.  That is the inserted
    layer when no layer above the insertion index qualifies, in
    particular after [push]; it is the winner of before when that one
    lies above the insertion index. *)
Theorem added_google_layer_wins (s : State) (l i : nat) :
  wf s → instanceofGoogle l s = true → getVisible l s = true →
  addLayer l s = insertLayerAt (length (layers s)) l s
  ∧ ∃ s' w,
      insertLayerAt i l s = Some s'
      ∧ layers s' = take i (layers s) ++ l :: drop i (layers s)
      ∧ findTopMost s' = Some w
      ∧ gmapTypeId s' = Some (getMapTypeId w s)
      ∧ gmapStyles s' = getStyles w s
      ∧ (ol3mapIsRenderered_ s = true → is_Some (center s) →
         googleMapsIsActive_ s' = true)
      ∧ ((∀ x, x ∈ drop i (layers s) → ¬ qualifies s x) → w = l)
      ∧ (∀ v, findTopMost s = Some v → v ∈ drop i (layers s) →
              l ∉ drop i (layers s) → w = v).
Proof.
  intros Hwf Hg Hv. split.
  { unfold addLayer, insertLayerAt.
    by rewrite take_ge, drop_ge by lia. }
  unfold insertLayerAt, handleLayersAdd_, watchLayer_.
  set (arr := take i (layers s) ++ l :: drop i (layers s)).
  change (instanceofGoogle l (set_layers arr s)) with (instanceofGoogle l s).
  rewrite Hg, watchGoogleLayer_eq.
  set (t := watchedGoogle l (set_layers arr s)).
  assert (layers t = arr ∧ domOk t
          ∧ (∀ x, getMapTypeId x t = getMapTypeId x s)
          ∧ (∀ x, getStyles x t = getStyles x s)
          ∧ ol3mapIsRenderered_ t = ol3mapIsRenderered_ s
          ∧ center t = center s) as (Hl & Hd & Hty & Hsty & Hr & Hc).
  { unfold t.
    destruct (watchedGoogle_eq l (set_layers arr s)) as (k & ls & n & ->).
    repeat split. exact (wf_dom _ Hwf). }
  assert (isCandidate t l = true) as Hcl.
  { unfold t. rewrite isCandidate_watchedGoogle, Hg, Hv.
    rewrite bool_decide_eq_true_2 by done. apply orb_true_r. }
  assert (findTopMost t
          = everyUntilFound (isCandidate t)
              (reverse (drop i (layers s)) ++ l :: reverse (take i (layers s)))
              None) as Hscan.
  { unfold findTopMost. rewrite Hl. unfold arr.
    by rewrite reverse_app, reverse_cons, <- app_assoc. }
  destruct (findTopMost t) as [w|] eqn:Hw.
  2:{ symmetry in Hscan. rewrite everyUntilFound_None in Hscan.
      rewrite (Hscan l) in Hcl; [done|].
      apply elem_of_app. right. left. }
  destruct (toggle_winner t w Hd Hw)
    as (s' & Ht & _ & Hid & Hst & Hact & _ & _).
  pose proof (toggle_frame _ _ Ht) as Hf.
  exists s', w. split; [done|].
  split; [by rewrite (tf_layers _ _ Hf)|].
  split; [by rewrite (toggleFrame_findTopMost _ _ Hf)|].
  split; [by rewrite Hid, Hty|]. split; [by rewrite Hst, Hsty|].
  split; [by rewrite <- Hr, <- Hc|].
  split.
  - intros Hnone.
    rewrite (everyUntilFound_reaches (isCandidate t)) in Hscan;
      [congruence | | done].
    intros x Hx Hhit. rewrite elem_of_reverse in Hx.
    unfold t in Hhit. rewrite isCandidate_watchedGoogle in Hhit.
    apply orb_true_iff in Hhit as [Hhit|Hhit].
    + destruct (Hnone x Hx).
      by apply (isCandidate_qualifies s x (wf_google _ Hwf)).
    + apply andb_true_iff in Hhit as [Hhit _].
      apply andb_true_iff in Hhit as [Hhit _].
      by apply bool_decide_eq_true in Hhit.
  - intros v Hv0 Hin Hnot.
    assert (∀ x, x ∈ reverse (drop i (layers s)) →
                 isCandidate t x = isCandidate s x) as Hext.
    { intros x Hx. rewrite elem_of_reverse in Hx.
      unfold t. rewrite isCandidate_watchedGoogle.
      rewrite bool_decide_eq_false_2; [by rewrite orb_false_r|].
      by intros ->. }
    assert (isCandidate s v = true) as Hcv.
    { by apply findTopMost_Some in Hv0 as (? & ? & _ & ? & _). }
    rewrite (everyUntilFound_app_hit _ _ _ None None) in Hscan.
    2:{ exists v. split; [by rewrite elem_of_reverse|].
        rewrite Hext; [done | by rewrite elem_of_reverse]. }
    rewrite (everyUntilFound_ext _ _ _ _ Hext) in Hscan.
    unfold findTopMost in Hv0.
    rewrite <- (take_drop i (layers s)), reverse_app in Hv0 at 1.
    rewrite (everyUntilFound_app_hit _ _ _ None None) in Hv0.
    2:{ exists v. split; [by rewrite elem_of_reverse | done]. }
    congruence.
Qed.

Lemma added_google_layer_wins_witness :
  (∃ s', addLayer 2 exGated = Some s'
         ∧ layers s' = [1; 2]
         ∧ findTopMost s' = Some 2
         ∧ gmapTypeId s' = Some "SATELLITE"%string
         ∧ gmapStyles s' = Some ["night"%string])
  ∧ (∃ s', insertLayerAt 0 2 exGated = Some s'
           ∧ layers s' = [2; 1]
           ∧ findTopMost s' = Some 1
           ∧ gmapTypeId s' = Some "ROADMAP"%string
           ∧ gmapStyles s' = None).
Proof.
  assert (wf exGated) as Hwf by exact (wf_of_run _ _ _ _ _ _ exGated_run).
  assert (instanceofGoogle 2 exGated = true) as Hg by reflexivity.
  assert (getVisible 2 exGated = true) as Hv by reflexivity.
  split.
  - destruct (added_google_layer_wins exGated 2 1 Hwf Hg Hv)
      as (Hpush & s' & w & Ha & Hl & Hw & Hid & Hst & _ & Htop & _).
    rewrite Hpush. exists s'. split; [exact Ha|]. split; [exact Hl|].
    assert (w = 2) as ->.
    { apply Htop. intros x Hx. by apply elem_of_nil in Hx. }
    split; [exact Hw|]. split; [exact Hid | exact Hst].
  - destruct (added_google_layer_wins exGated 2 0 Hwf Hg Hv)
      as (_ & s' & w & Ha & Hl & Hw & Hid & Hst & _ & _ & Hkeep).
    exists s'. split; [exact Ha|]. split; [exact Hl|].
    assert (w = 1) as ->.
    { apply Hkeep.
      - vm_compute. reflexivity.
      - left.
      - intros Hin. apply list_elem_of_singleton in Hin. discriminate Hin. }
    split; [exact Hw|]. split; [exact Hid | exact Hst].
Defined.

(** X4. layers the herald does not support are inert: watching or
    unwatching a layer that is neither a Google layer nor a vector layer,
    or a vector layer while vector watching is off, returns the state
    unchanged; so does watching a vector layer that has no source. *)
Theorem unsupported_layers_are_ignored (s : State) (l : nat) :
  (instanceofGoogle l s = false →
   instanceofVector l s = false ∨ watchVector_ s = false →
   watchLayer_ l s = Some s ∧ unwatchLayer_ l s = Some s
   ∧ addLayer l s = Some (set_layers (layers s ++ [l]) s))
  ∧ (instanceofGoogle l s = false → getSource l s = None →
     watchLayer_ l s = Some s).
Proof.
  split.
  - intros Hg Hor. unfold addLayer, handleLayersAdd_, watchLayer_,
      unwatchLayer_.
    change (instanceofGoogle l (set_layers (layers s ++ [l]) s))
      with (instanceofGoogle l s).
    change (instanceofVector l (set_layers (layers s ++ [l]) s))
      with (instanceofVector l s).
    change (watchVector_ (set_layers (layers s ++ [l]) s))
      with (watchVector_ s).
    rewrite Hg. destruct Hor as [-> | ->]; by rewrite ?andb_false_r.
  - intros Hg Hsrc. unfold watchLayer_, watchVectorLayer_.
    rewrite Hg, Hsrc. by destruct (_ && _).
Qed.

Lemma unsupported_layers_are_ignored_witness :
  watchLayer_ 9 exActive = Some exActive
  ∧ unwatchLayer_ 9 exActive = Some exActive
  ∧ watchLayer_ 4 exNoSource = Some exNoSource.
Proof.
  destruct (unsupported_layers_are_ignored exActive 9) as [H _].
  destruct (unsupported_layers_are_ignored exNoSource 4) as [_ H'].
  destruct H as (H1 & H2 & _); [reflexivity | by left |].
  split; [exact H1|]. split; [exact H2|]. by apply H'.
Defined.

Lemma set_log_same s : set_log (log s) s = s.
Proof. by destruct s. Qed.

Lemma applyWinner_again w s :
  gmapTypeId s = Some (getMapTypeId w s) → gmapStyles s = getStyles w s →
  set_log (log s) (applyWinner w s) = s.
Proof.
  intros H1 H2. unfold applyWinner, setOptionsStyles, setMapTypeId, emit.
  destruct s. simpl in *. by rewrite <- H1, <- H2.
Qed.

(** X5. the toggle decision is idempotent up to the log: run again right
    after itself it changes nothing but the record of calls made. *)
Theorem toggle_twice (s : State) :
  wf s →
  ∃ s1 s2,
    toggleGoogleMaps_ s = Some s1 ∧ toggleGoogleMaps_ s1 = Some s2
    ∧ set_log (log s1) s2 = s1.
Proof.
  intros Hwf. destruct (toggle_wf s Hwf) as (s1 & Ht & Hwf1 & Hf).
  exists s1. pose proof (toggleFrame_findTopMost _ _ Hf) as Hsame.
  destruct (findTopMost s) as [w|] eqn:Hw.
  - destruct (toggle_winner s w (wf_dom _ Hwf) Hw)
      as (s1' & Ht' & Hact & Hid & Hst & _ & _ & _).
    assert (s1' = s1) as -> by congruence.
    destruct (toggleFrame_attrs _ _ w Hf) as (_ & _ & _ & Hm & Hs & _).
    exists (applyWinner w s1). split; [done|]. split.
    + rewrite (toggle_found s1 w Hsame). apply activate_blocked.
      unfold activationBlocked.
      change (googleMapsIsActive_ (applyWinner w s1))
        with (googleMapsIsActive_ s1).
      change (ol3mapIsRenderered_ (applyWinner w s1))
        with (ol3mapIsRenderered_ s1).
      change (center (applyWinner w s1)) with (center s1).
      destruct (googleMapsIsActive_ s1) eqn:Ha1; [done|].
      destruct (activationBlocked (applyWinner w s)) eqn:Hb.
      * rewrite (activate_blocked _ Hb) in Hact. injection Hact as <-.
        unfold activationBlocked in Hb. by rewrite Ha1 in Hb.
      * destruct (activate_result (applyWinner w s) (wf_dom _ Hwf))
          as (s1'' & Ha'' & _ & Hu & _).
        rewrite Hact in Ha''. injection Ha'' as <-.
        rewrite (Hu Hb) in Ha1. done.
    + apply applyWinner_again; by rewrite ?Hm, ?Hs.
  - exists s1. split; [done|]. split; [|apply set_log_same].
    rewrite (toggle_not_found s1 Hsame). apply deactivate_inactive.
    rewrite (toggle_not_found s Hw) in Ht.
    destruct (deactivate_result s (wf_dom _ Hwf)) as (s1' & Hd & _ & Ha & _).
    congruence.
Qed.

Lemma toggle_twice_witness :
  ∃ s1 s2,
    toggleGoogleMaps_ exIdle = Some s1 ∧ toggleGoogleMaps_ s1 = Some s2
    ∧ set_log (log s1) s2 = s1.
Proof. exact (toggle_twice exIdle exIdle_wf). Defined.

(** ** What the global activation and deactivation do to the vector cache *)

Lemma getOpacity_setOpacity_ne l l' q s :
  l ≠ l' → getOpacity l' (setOpacity l q s) = getOpacity l' s.
Proof.
  intros Hne. unfold getOpacity, setOpacity.
  rewrite getLayer_emit, getLayer_storeOpacity. by rewrite decide_False.
Qed.

Lemma heraldActive_heraldActivate_ne h h' s :
  h ≠ h' → heraldActive h' (heraldActivate h s) = heraldActive h' s.
Proof.
  intros Hne. unfold heraldActive, heraldActivate. simpl.
  by rewrite lookup_insert_ne.
Qed.

Lemma heraldActive_heraldDeactivate_ne h h' s :
  h ≠ h' → heraldActive h' (heraldDeactivate h s) = heraldActive h' s.
Proof.
  intros Hne. unfold heraldActive, heraldDeactivate. simpl.
  by rewrite lookup_insert_ne.
Qed.

Lemma getOpacity_heraldActivate h l s :
  getOpacity l (heraldActivate h s) = getOpacity l s.
Proof. reflexivity. Qed.

Lemma getOpacity_heraldDeactivate h l s :
  getOpacity l (heraldDeactivate h s) = getOpacity l s.
Proof. reflexivity. Qed.

(** One per-item activation: writes go to visible layers only, and only
    ever write opacity 0 and switch source heralds on. *)
Lemma activateItem_effects item s :
  let s' := activateVectorLayerCacheItem_ item s in
  (∀ l, getOpacity l s = 0%Q → getOpacity l s' = 0%Q)
  ∧ (∀ h, heraldActive h s = true → heraldActive h s' = true)
  ∧ (∀ l, getVisible l s = false → getOpacity l s' = getOpacity l s).
Proof.
  cbv zeta.
  destruct (decide (getVisible (v_layer item) s = true
                    ∧ googleMapsIsActive_ s = true)) as [[Hv Ha]|Hn].
  - rewrite (activateItem_on item s Hv Ha). split; [|split].
    + intros l Hl. destruct (decide (v_layer item = l)) as [<-|Hne].
      * apply getOpacity_setOpacity.
      * by rewrite getOpacity_setOpacity_ne.
    + intros h Hh. rewrite heraldActive_setOpacity.
      destruct (decide (v_herald item = h)) as [<-|Hne].
      * apply heraldActive_heraldActivate.
      * by rewrite heraldActive_heraldActivate_ne.
    + intros l Hl. rewrite getOpacity_setOpacity_ne; [done|].
      intros <-. congruence.
  - by rewrite (activateItem_off item s Hn).
Qed.

Lemma forEach_activate_effects items s :
  googleMapsIsActive_ s = true →
  let s' := forEach activateVectorLayerCacheItem_ items s in
  (∀ l, getOpacity l s = 0%Q → getOpacity l s' = 0%Q)
  ∧ (∀ h, heraldActive h s = true → heraldActive h s' = true)
  ∧ (∀ l, getVisible l s = false → getOpacity l s' = getOpacity l s)
  ∧ (∀ item, item ∈ items → getVisible (v_layer item) s = true →
       getOpacity (v_layer item) s' = 0%Q
       ∧ heraldActive (v_herald item) s' = true).
Proof.
  revert s. induction items as [|x r IH]; intros s Ha; cbv zeta.
  - split; [done|]. split; [done|]. split; [done|].
    intros item Hin. by apply elem_of_nil in Hin.
  - simpl. set (s1 := activateVectorLayerCacheItem_ x s).
    pose proof (itemFrame_activateItem x s) as Hf. fold s1 in Hf.
    destruct (activateItem_effects x s) as (Z1 & A1 & V1). fold s1 in Z1, A1, V1.
    assert (googleMapsIsActive_ s1 = true) as Ha1
      by by rewrite (fr_active _ _ Hf).
    destruct (IH s1 Ha1) as (Z & A & V & I). cbv zeta in Z, A, V, I.
    assert (∀ l, getVisible l s1 = getVisible l s) as Hvis.
    { intros l. by destruct (itemFrame_kind _ _ l Hf) as (_ & _ & -> & _). }
    split; [auto|]. split; [auto|]. split.
    { intros l Hl. rewrite V by by rewrite Hvis. auto. }
    intros item Hin Hv. apply elem_of_cons in Hin as [->|Hin].
    + unfold s1 in Z, A. split.
      * apply Z. rewrite (activateItem_on x s Hv Ha).
        apply getOpacity_setOpacity.
      * apply A. rewrite (activateItem_on x s Hv Ha).
        rewrite heraldActive_setOpacity. apply heraldActive_heraldActivate.
    + apply I; [done|]. by rewrite Hvis.
Qed.

(** X6. when the activation goes through, every cached vector layer that
    is visible becomes fully transparent with its source herald active,
    and no hidden layer has its opacity touched. *)
Theorem activation_hides_visible_vector_layers (s : State) :
  googleMapsIsActive_ s = false → ol3mapIsRenderered_ s = true →
  is_Some (center s) → Ol3mapEl ∈ targetChildren s →
  ∃ s',
    activateGoogleMaps_ s = Some s'
    ∧ googleMapsIsActive_ s' = true
    ∧ (∀ item, item ∈ vectorCache_ s → getVisible (v_layer item) s = true →
         getOpacity (v_layer item) s' = 0%Q
         ∧ heraldActive (v_herald item) s' = true)
    ∧ (∀ l, getVisible l s = false → getOpacity l s' = getOpacity l s).
Proof.
  intros Ha Hr [c Hc] Hin.
  destruct (activate_unblocked s) as (ch & _ & ->); [|done|].
  { unfold activationBlocked. by rewrite Ha, Hr, Hc. }
  eexists. split; [done|].
  destruct (forEach_activate_effects (vectorCache_ s) (mounted ch s))
    as (_ & _ & V & I); [done|]. cbv zeta in V, I.
  split; [by rewrite (fr_active _ _ (itemFrame_forEach_activate _ _))|].
  split; [exact I | exact V].
Qed.

Lemma activation_hides_visible_vector_layers_witness :
  getOpacity 3 exIdleVector = (8 # 10)%Q
  ∧ ∃ s',
      activateGoogleMaps_ exIdleVector = Some s'
      ∧ googleMapsIsActive_ s' = true
      ∧ getOpacity 3 s' = 0%Q.
Proof.
  split; [reflexivity|].
  destruct (activation_hides_visible_vector_layers exIdleVector)
    as (s' & Ha & Hact & I & _).
  - reflexivity.
  - reflexivity.
  - vm_compute. by eexists.
  - vm_compute. left.
  - exists s'. split; [exact Ha|]. split; [exact Hact|].
    destruct (I (mkVectorLayerCache 2 3 3 [4] (8 # 10)%Q)) as [Ho _].
    + vm_compute. left.
    + vm_compute. reflexivity.
    + exact Ho.
Defined.

Lemma deactivateItem_effects item s :
  let s' := deactivateVectorLayerCacheItem_ item s in
  getOpacity (v_layer item) s' = v_opacity item
  ∧ heraldActive (v_herald item) s' = false
  ∧ (∀ l, l ≠ v_layer item → getOpacity l s' = getOpacity l s)
  ∧ (∀ h, heraldActive h s = false → heraldActive h s' = false).
Proof.
  cbv zeta. unfold deactivateVectorLayerCacheItem_. split; [|split; [|split]].
  - apply getOpacity_setOpacity.
  - rewrite heraldActive_setOpacity. apply heraldActive_heraldDeactivate.
  - intros l Hne. by rewrite getOpacity_setOpacity_ne.
  - intros h Hh. rewrite heraldActive_setOpacity.
    destruct (decide (v_herald item = h)) as [<-|Hne].
    + apply heraldActive_heraldDeactivate.
    + by rewrite heraldActive_heraldDeactivate_ne.
Qed.

Lemma forEach_deactivate_effects items s :
  NoDup (v_layer <$> items) →
  let s' := forEach deactivateVectorLayerCacheItem_ items s in
  (∀ item, item ∈ items →
     getOpacity (v_layer item) s' = v_opacity item
     ∧ heraldActive (v_herald item) s' = false)
  ∧ (∀ l, l ∉ v_layer <$> items → getOpacity l s' = getOpacity l s)
  ∧ (∀ h, heraldActive h s = false → heraldActive h s' = false).
Proof.
  revert s. induction items as [|x r IH]; intros s Hnd; cbv zeta.
  - split; [|done]. intros item Hin. by apply elem_of_nil in Hin.
  - simpl. set (s1 := deactivateVectorLayerCacheItem_ x s).
    destruct (deactivateItem_effects x s) as (O1 & H1 & N1 & F1).
    fold s1 in O1, H1, N1, F1.
    rewrite fmap_cons in Hnd. apply NoDup_cons in Hnd as [Hx Hnd].
    destruct (IH s1 Hnd) as (I & N & F). cbv zeta in I, N, F.
    split; [|split].
    + intros item Hin. apply elem_of_cons in Hin as [->|Hin].
      * split; [by rewrite N | by apply F].
      * by apply I.
    + intros l Hl. try rewrite fmap_cons in Hl.
      apply not_elem_of_cons in Hl as [Hne Hl]. rewrite N by done.
      by apply N1.
    + intros h Hh. apply F. by apply F1.
Qed.

(** X7. the deactivation gives every cached vector layer its saved opacity
    back and switches every source herald off; layers outside the cache
    keep their opacity. *)
Theorem deactivation_restores_vector_layers (s : State) :
  googleMapsIsActive_ s = true → GmapEl ∈ targetChildren s →
  NoDup (v_layer <$> vectorCache_ s) →
  ∃ s',
    deactivateGoogleMaps_ s = Some s'
    ∧ googleMapsIsActive_ s' = false
    ∧ (∀ item, item ∈ vectorCache_ s →
         getOpacity (v_layer item) s' = v_opacity item
         ∧ heraldActive (v_herald item) s' = false)
    ∧ (∀ l, l ∉ v_layer <$> vectorCache_ s →
         getOpacity l s' = getOpacity l s).
Proof.
  intros Ha Hin Hnd. destruct (deactivate_active s Ha Hin) as (ch & _ & ->).
  eexists. split; [done|]. split; [done|].
  destruct (forEach_deactivate_effects (vectorCache_ s) (unmounted ch s) Hnd)
    as (I & N & _). cbv zeta in I, N.
  split; [exact I | exact N].
Qed.

Lemma deactivation_restores_vector_layers_witness :
  getOpacity 3 exWithVector = 0%Q
  ∧ ∃ s',
      deactivateGoogleMaps_ exWithVector = Some s'
      ∧ googleMapsIsActive_ s' = false
      ∧ getOpacity 3 s' = (8 # 10)%Q.
Proof.
  split; [reflexivity|].
  destruct (deactivation_restores_vector_layers exWithVector)
    as (s' & Hd & Ha & I & _).
  - reflexivity.
  - vm_compute. left.
  - vm_compute. apply NoDup_singleton.
  - exists s'. split; [exact Hd|]. split; [exact Ha|].
    destruct (I (mkVectorLayerCache 2 3 3 [4] (8 # 10)%Q)) as [Ho _].
    + vm_compute. left.
    + exact Ho.
Defined.

Lemma NoDup_fmap_eq {A B} (f : A → B) (l : list A) x y :
  NoDup (f <$> l) → x ∈ l → y ∈ l → f x = f y → x = y.
Proof.
  induction l as [|z r IH]; simpl; intros Hnd Hx Hy Hf.
  - by apply elem_of_nil in Hx.
  - apply NoDup_cons in Hnd as [Hz Hnd].
    apply elem_of_cons in Hx as [->|Hx];
      apply elem_of_cons in Hy as [->|Hy]; try done.
    + exfalso. apply Hz. rewrite Hf. by apply list_elem_of_fmap_2.
    + exfalso. apply Hz. rewrite <- Hf. by apply list_elem_of_fmap_2.
    + by apply IH.
Qed.

Lemma filter_all {A} (P : A → Prop) `{∀ x, Decision (P x)} (l : list A) :
  (∀ x, x ∈ l → P x) → filter P l = l.
Proof.
  induction l as [|z r IH]; intros Hall; [done|].
  rewrite filter_cons, decide_True by (apply Hall; left).
  f_equal. apply IH. intros x Hx. apply Hall. by right.
Qed.

Lemma filter_none {A} (P : A → Prop) `{∀ x, Decision (P x)} (l : list A) :
  (∀ x, x ∈ l → ¬ P x) → filter P l = [].
Proof.
  induction l as [|z r IH]; intros Hall; [done|].
  rewrite filter_cons, decide_False by (apply Hall; left).
  apply IH. intros x Hx. apply Hall. by right.
Qed.

Lemma filter_comm {A} (P Q : A → Prop) `{∀ x, Decision (P x)}
  `{∀ x, Decision (Q x)} (l : list A) :
  filter P (filter Q l) = filter Q (filter P l).
Proof.
  induction l as [|z r IH]; [done|].
  rewrite !filter_cons.
  destruct (decide (Q z)), (decide (P z));
    rewrite ?filter_cons, ?decide_True, ?decide_False by done;
    by rewrite IH.
Qed.

(** Removing the keys of one block of listeners removes that block and
    nothing else. *)
Lemma unlisten_block (L A B C : list Listener) (P : Listener → Prop)
  `{∀ x, Decision (P x)} (ks : list nat) :
  NoDup (lk_key <$> L) →
  filter P L = A ++ B ++ C →
  lk_key <$> B = ks →
  filter P (filter (λ x, lk_key x ∉ ks) L) = A ++ C.
Proof.
  intros Hnd HP <-.
  rewrite filter_comm, HP, !filter_app.
  assert (NoDup (filter P L)) as HndP.
  { apply NoDup_filter. by apply NoDup_fmap_1 in Hnd. }
  rewrite HP in HndP.
  apply NoDup_app in HndP as (_ & HAB & HndBC).
  apply NoDup_app in HndBC as (_ & HBC & _).
  assert (∀ x, x ∈ A ++ B ++ C → x ∈ L) as Hsub.
  { intros x Hx. rewrite <- HP in Hx. by apply list_elem_of_filter in Hx as [_ ?]. }
  assert (∀ x, x ∈ A ++ C → x ∉ B) as Hdis.
  { intros x Hx HxB. apply elem_of_app in Hx as [Hx|Hx].
    - apply (HAB x Hx). apply elem_of_app. by left.
    - by apply (HBC x HxB). }
  assert (∀ x, x ∈ A ++ C → lk_key x ∉ lk_key <$> B) as Hkeys.
  { intros x Hx Hk. apply list_elem_of_fmap in Hk as (y & Hk & Hy).
    assert (x = y) as ->.
    { apply (NoDup_fmap_eq lk_key L); try done.
      - apply Hsub. apply elem_of_app in Hx as [Hx|Hx];
          apply elem_of_app; [by left | right].
        apply elem_of_app. by right.
      - apply Hsub. apply elem_of_app. right. apply elem_of_app. by left. }
    by apply (Hdis y). }
  rewrite (filter_all _ A), (filter_none _ B), (filter_all _ C); try done.
  - intros x Hx. apply Hkeys. apply elem_of_app. by right.
  - intros x Hx Hn. apply Hn. by apply list_elem_of_fmap_2.
  - intros x Hx. apply Hkeys. apply elem_of_app. by left.
Qed.

(** Removing the keys of listeners of one class leaves the other class
    alone. *)
Lemma unlisten_other (L B : list Listener) (P P' : Listener → Prop)
  `{∀ x, Decision (P x)} `{∀ x, Decision (P' x)} (ks : list nat) :
  NoDup (lk_key <$> L) →
  (∀ x, x ∈ B → x ∈ L ∧ P x) → (∀ x, P x → P' x → False) →
  lk_key <$> B = ks →
  filter P' (filter (λ x, lk_key x ∉ ks) L) = filter P' L.
Proof.
  intros Hnd HB Hex <-.
  rewrite filter_comm. apply filter_all.
  intros x Hx Hk. apply list_elem_of_filter in Hx as [HP' Hx].
  apply list_elem_of_fmap in Hk as (y & Hk & Hy).
  destruct (HB y Hy) as [HyL HyP].
  assert (x = y) as -> by by apply (NoDup_fmap_eq lk_key L).
  by apply (Hex y).
Qed.

Lemma listenersOk_same s s' :
  listeners s' = listeners s → googleCache_ s' = googleCache_ s →
  vectorCache_ s' = vectorCache_ s → nextId s' = nextId s →
  listenersOk s → listenersOk s'.
Proof.
  intros HL Hg Hv Hn [? ? ? ? ? ?].
  constructor; rewrite ?HL, ?Hg, ?Hv, ?Hn; done.
Qed.

Lemma toggle_listenersOk s s' :
  toggleGoogleMaps_ s = Some s' → listenersOk s → listenersOk s'.
Proof.
  intros Ht. pose proof (toggle_frame _ _ Ht) as Hf.
  apply listenersOk_same;
    [apply (tf_listeners _ _ Hf) | apply (tf_googleCache _ _ Hf)
    | apply (tf_vectorCache _ _ Hf) | apply (tf_nextId _ _ Hf)].
Qed.

Lemma itemFrame_listenersOk s s' :
  itemFrame s s' → listenersOk s → listenersOk s'.
Proof.
  intros Hf.
  apply listenersOk_same;
    [apply (fr_listeners _ _ Hf) | apply (fr_googleCache _ _ Hf)
    | apply (fr_vectorCache _ _ Hf) | apply (fr_nextId _ _ Hf)].
Qed.

Lemma fresh_key_not_in (L : list Listener) n :
  (∀ x, x ∈ L → lk_key x < n) → n ∉ lk_key <$> L.
Proof.
  intros Hf Hin. apply list_elem_of_fmap in Hin as (x & -> & Hx).
  specialize (Hf x Hx). lia.
Qed.

(** A layer that is not tracked has no toggle listener. *)
Lemma listenersOk_findListener l s :
  wf s → listenersOk s → l ∉ googleLayers_ s →
  findListener l HToggle s = None.
Proof.
  intros Hwf Hok Hnot. apply findListener_None. intros x Hx Hl Hh.
  assert (x ∈ googleCache_ s ≫= googleListeners) as Hin.
  { rewrite <- (lo_toggle _ Hok). apply list_elem_of_filter.
    split; [|done]. unfold isToggle. by rewrite Hh. }
  apply list_elem_of_bind in Hin as (g & Hxg & Hg).
  unfold googleListeners in Hxg.
  apply list_elem_of_fmap in Hxg as (k & -> & _). simpl in Hl.
  apply Hnot. rewrite <- (wf_google _ Hwf), <- Hl.
  apply list_elem_of_fmap. by exists g.
Qed.

(** Registering one more listener under a fresh key. *)
Lemma listenersOk_push_google l s :
  findListener l HToggle s = None →
  listenersOk s → listenersOk (watchedGoogle l s).
Proof.
  intros Hnew. rewrite (watchedGoogle_fresh l s Hnew).
  intros [Ht Hv Hnd Hfr Hg1 Hv1]. constructor.
  - change (filter (λ x, isToggle x = true)
              (listeners s ++ [mkListener (nextId s) l HToggle])
            = (googleCache_ s ++ [mkGoogleLayerCache l [nextId s]])
              ≫= googleListeners).
    by rewrite filter_app, bind_app, Ht.
  - change (filter (λ x, isToggle x = false)
              (listeners s ++ [mkListener (nextId s) l HToggle])
            = vectorCache_ s ≫= vectorListeners).
    rewrite filter_app, Hv. apply app_nil_r.
  - change (NoDup (lk_key <$> listeners s ++ [mkListener (nextId s) l HToggle])).
    rewrite fmap_app. apply NoDup_app. split; [done|]. split.
    + intros k Hk Hk'. apply list_elem_of_singleton in Hk' as ->.
      by apply (fresh_key_not_in (listeners s) (nextId s)).
    + apply NoDup_singleton.
  - intros x Hx.
    change (x ∈ listeners s ++ [mkListener (nextId s) l HToggle]) in Hx.
    change (lk_key x < S (nextId s)).
    apply elem_of_app in Hx as [Hx|Hx]; [specialize (Hfr x Hx); lia|].
    apply list_elem_of_singleton in Hx as ->. simpl. lia.
  - intros g Hin.
    change (g ∈ googleCache_ s ++ [mkGoogleLayerCache l [nextId s]]) in Hin.
    apply elem_of_app in Hin as [Hin|Hin]; [auto|].
    by apply list_elem_of_singleton in Hin as ->.
  - exact Hv1.
Qed.

Lemma preparedVector_listeners l s :
  listeners (preparedVector l s)
  = listeners s
    ++ [mkListener (S (S (nextId s))) l (HVectorVisible (newVectorItem l s))]
  ∧ nextId (preparedVector l s) = S (S (S (nextId s)))
  ∧ googleCache_ (preparedVector l s) = googleCache_ s.
Proof. unfold preparedVector. cbv zeta. by destruct (l_gmStyle _). Qed.

Lemma listeners_set_vectorCache v t :
  listeners (set_vectorCache_ v t) = listeners t.
Proof. reflexivity. Qed.

Lemma nextId_set_vectorCache v t :
  nextId (set_vectorCache_ v t) = nextId t.
Proof. reflexivity. Qed.

Lemma watchVectorLayer_listeners l s :
  is_Some (getSource l s) →
  listeners (watchVectorLayer_ l s)
  = listeners s
    ++ [mkListener (S (S (nextId s))) l (HVectorVisible (newVectorItem l s))]
  ∧ nextId (watchVectorLayer_ l s) = S (S (S (nextId s))).
Proof.
  intros Hsrc. rewrite (watchVectorLayer_eq l s Hsrc).
  pose proof (itemFrame_activateItem (newVectorItem l s) (preparedVector l s))
    as Hf.
  destruct (preparedVector_listeners l s) as (HL & Hn & _).
  split.
  - by rewrite listeners_set_vectorCache, (fr_listeners _ _ Hf).
  - by rewrite nextId_set_vectorCache, (fr_nextId _ _ Hf).
Qed.

Lemma listenersOk_push_vector l s :
  listenersOk s → listenersOk (watchVectorLayer_ l s).
Proof.
  intros Hok. destruct (getSource l s) as [src|] eqn:Hsrc;
    [|unfold watchVectorLayer_; by rewrite Hsrc].
  assert (is_Some (getSource l s)) as Hs by by eexists.
  destruct (watchVectorLayer_listeners l s Hs) as (HL & Hn).
  destruct (watchVectorLayer_arrays l s Hs) as (_ & Hvc & _ & Hgc & _).
  destruct Hok as [Ht Hv Hnd Hfr Hg1 Hv1].
  constructor; rewrite ?HL, ?Hn, ?Hvc, ?Hgc.
  - rewrite filter_app, Ht. apply app_nil_r.
  - by rewrite filter_app, bind_app, Hv.
  - rewrite fmap_app. apply NoDup_app. split; [done|]. split.
    + intros k Hk Hk'. apply list_elem_of_singleton in Hk'.
      apply list_elem_of_fmap in Hk as (x & -> & Hx).
      specialize (Hfr x Hx). simpl in Hk'. lia.
    + apply NoDup_singleton.
  - intros x Hx.
    apply elem_of_app in Hx as [Hx|Hx]; [specialize (Hfr x Hx); lia|].
    apply list_elem_of_singleton in Hx as ->. simpl. lia.
  - exact Hg1.
  - intros v Hin. apply elem_of_app in Hin as [Hin|Hin]; [auto|].
    by apply list_elem_of_singleton in Hin as ->.
Qed.

Lemma cache_split {A} (cache : list A) i item :
  cache !! i = Some item →
  cache = take i cache ++ item :: drop (S i) cache
  ∧ delete i cache = take i cache ++ drop (S i) cache.
Proof.
  intros Hi. split; [by rewrite take_drop_middle | apply delete_take_drop].
Qed.

Lemma googleListeners_keys g :
  lk_key <$> googleListeners g = g_listenerKeys g.
Proof.
  unfold googleListeners. rewrite <- list_fmap_compose.
  by rewrite list_fmap_id.
Qed.

Lemma vectorListeners_keys v :
  lk_key <$> vectorListeners v = v_listenerKeys v.
Proof.
  unfold vectorListeners. rewrite <- list_fmap_compose.
  by rewrite list_fmap_id.
Qed.

Lemma listenersOk_unwatchedGoogle i item s :
  googleCache_ s !! i = Some item →
  listenersOk s → listenersOk (unwatchedGoogle i item s).
Proof.
  intros Hi [Ht Hv Hnd Hfr Hg1 Hv1].
  destruct (cache_split _ _ _ Hi) as [Hsplit Hdel].
  set (ks := g_listenerKeys item).
  assert (filter (λ x, isToggle x = true) (listeners s)
          = (take i (googleCache_ s) ≫= googleListeners)
            ++ googleListeners item
            ++ (drop (S i) (googleCache_ s) ≫= googleListeners)) as Ht'.
  { rewrite Ht. rewrite Hsplit at 1. by rewrite bind_app, bind_cons. }
  constructor.
  - change (filter (λ x, isToggle x = true)
              (filter (λ x, lk_key x ∉ ks) (listeners s))
            = delete i (googleCache_ s) ≫= googleListeners).
    rewrite Hdel, bind_app.
    apply (unlisten_block (listeners s) _ (googleListeners item) _
             (λ x, isToggle x = true) ks Hnd Ht').
    apply googleListeners_keys.
  - change (filter (λ x, isToggle x = false)
              (filter (λ x, lk_key x ∉ ks) (listeners s))
            = vectorCache_ s ≫= vectorListeners).
    rewrite <- Hv.
    apply (unlisten_other (listeners s) (googleListeners item)
             (λ x, isToggle x = true) (λ x, isToggle x = false) ks Hnd).
    + intros x Hx.
      assert (x ∈ filter (λ x, isToggle x = true) (listeners s)) as Hf.
      { rewrite Ht'. apply elem_of_app. right. apply elem_of_app. by left. }
      by apply list_elem_of_filter in Hf as [? ?].
    + intros x H1 H2. congruence.
    + apply googleListeners_keys.
  - change (NoDup (lk_key <$> filter (λ x, lk_key x ∉ ks) (listeners s))).
    apply (sublist_NoDup _ (lk_key <$> listeners s) Hnd).
    apply fmap_sublist, sublist_filter.
  - intros x Hx.
    change (x ∈ filter (λ x, lk_key x ∉ ks) (listeners s)) in Hx.
    change (lk_key x < nextId s).
    apply list_elem_of_filter in Hx as [_ Hx]. auto.
  - intros g Hin. change (g ∈ delete i (googleCache_ s)) in Hin.
    apply Hg1. by apply list_elem_of_delete_inv in Hin.
  - exact Hv1.
Qed.

Lemma unwatchedVector_listeners l i item s :
  listeners (unwatchedVector l i item s)
  = filter (λ x, lk_key x ∉ v_listenerKeys item) (listeners s)
  ∧ nextId (unwatchedVector l i item s) = nextId s.
Proof. split; reflexivity. Qed.

Lemma listenersOk_unwatchedVector l i item s :
  vectorCache_ s !! i = Some item →
  listenersOk s → listenersOk (unwatchedVector l i item s).
Proof.
  intros Hi [Ht Hv Hnd Hfr Hg1 Hv1].
  destruct (cache_split _ _ _ Hi) as [Hsplit Hdel].
  destruct (unwatchedVector_listeners l i item s) as [HL Hn].
  destruct (unwatchedVector_arrays l i item s) as (_ & Hvc & _ & Hgc & _).
  set (ks := v_listenerKeys item) in *.
  assert (filter (λ x, isToggle x = false) (listeners s)
          = (take i (vectorCache_ s) ≫= vectorListeners)
            ++ vectorListeners item
            ++ (drop (S i) (vectorCache_ s) ≫= vectorListeners)) as Hv'.
  { rewrite Hv. rewrite Hsplit at 1. by rewrite bind_app, bind_cons. }
  constructor; rewrite ?HL, ?Hn, ?Hvc, ?Hgc.
  - rewrite <- Ht.
    apply (unlisten_other (listeners s) (vectorListeners item)
             (λ x, isToggle x = false) (λ x, isToggle x = true) ks Hnd).
    + intros x Hx.
      assert (x ∈ filter (λ x, isToggle x = false) (listeners s)) as Hf.
      { rewrite Hv'. apply elem_of_app. right. apply elem_of_app. by left. }
      by apply list_elem_of_filter in Hf as [? ?].
    + intros x H1 H2. congruence.
    + apply vectorListeners_keys.
  - rewrite Hdel, bind_app.
    apply (unlisten_block (listeners s) _ (vectorListeners item) _
             (λ x, isToggle x = false) ks Hnd Hv').
    apply vectorListeners_keys.
  - apply (sublist_NoDup _ (lk_key <$> listeners s) Hnd).
    apply fmap_sublist, sublist_filter.
  - intros x Hx. apply list_elem_of_filter in Hx as [_ Hx]. auto.
  - exact Hg1.
  - intros v Hin. apply Hv1. by apply list_elem_of_delete_inv in Hin.
Qed.

Lemma watchLayer_listenersOk l s s' :
  wf s → (instanceofGoogle l s = true → l ∉ googleLayers_ s) →
  watchLayer_ l s = Some s' → listenersOk s → listenersOk s'.
Proof.
  intros Hwf Hnew. unfold watchLayer_. destruct (instanceofGoogle l s).
  - rewrite watchGoogleLayer_eq. intros Ht Hok.
    apply (toggle_listenersOk _ _ Ht).
    apply listenersOk_push_google; [|done].
    apply listenersOk_findListener; auto.
  - destruct (_ && _); intros [= <-]; [|done].
    apply listenersOk_push_vector.
Qed.

Lemma watchesAnew_watch l s :
  negb (instanceofGoogle l s && isDefined (indexOf l (googleLayers_ s)))
  = true →
  instanceofGoogle l s = true → l ∉ googleLayers_ s.
Proof.
  intros H Hg. rewrite Hg in H. simpl in H.
  apply negb_true_iff in H. intros Hin.
  apply isDefined_indexOf in Hin. congruence.
Qed.

Lemma unwatchLayer_listenersOk l s s' :
  wf s → unwatchLayer_ l s = Some s' → listenersOk s → listenersOk s'.
Proof.
  intros Hwf. unfold unwatchLayer_. destruct (instanceofGoogle l s).
  - destruct (indexOf l (googleLayers_ s)) as [i|] eqn:Hi.
    + destruct (cache_lookup_aligned _ _ _ _ _ (wf_google _ Hwf) Hi)
        as (item & Hitem & _).
      rewrite (unwatchGoogleLayer_found l i item s Hi Hitem).
      intros Ht Hok. apply (toggle_listenersOk _ _ Ht).
      by apply listenersOk_unwatchedGoogle.
    + rewrite (unwatchGoogleLayer_absent l s Hi). by intros [= <-].
  - destruct (_ && _); [|by intros [= <-]].
    destruct (indexOf l (vectorLayers_ s)) as [i|] eqn:Hi.
    + destruct (cache_lookup_aligned _ _ _ _ _ (wf_vector _ Hwf) Hi)
        as (item & Hitem & _).
      rewrite (unwatchVectorLayer_found l i item s Hi Hitem).
      intros [= <-]. by apply listenersOk_unwatchedVector.
    + rewrite (unwatchVectorLayer_absent l s Hi). by intros [= <-].
Qed.

Lemma dispatch_listenersOk ls s s' :
  dispatch ls s = Some s' → listenersOk s → listenersOk s'.
Proof.
  revert s. induction ls as [|x r IH]; intros s; simpl.
  - by intros [= <-].
  - destruct (lk_handler x) as [|item]; simpl.
    + destruct (toggleGoogleMaps_ s) as [s1|] eqn:Ht; simpl; [|done].
      intros Hd Hok. apply (IH s1 Hd). by apply (toggle_listenersOk s).
    + intros Hd Hok. apply (IH _ Hd).
      apply (itemFrame_listenersOk s); [apply handleVisible_itemFrame|done].
Qed.

Lemma step_listenersOk e s s' :
  wf s → watchesAnew e s = true →
  step e s = Some s' → listenersOk s → listenersOk s'.
Proof.
  intros Hwf Hnew. destruct e as [l|l|l|l|l b|l q| |c]; simpl.
  - apply watchLayer_listenersOk; [done|]. by apply watchesAnew_watch.
  - by apply unwatchLayer_listenersOk.
  - unfold addLayer, handleLayersAdd_. intros Hw Hok.
    refine (watchLayer_listenersOk l _ _ _ _ Hw _).
    + by apply (wf_preserved s).
    + by apply watchesAnew_watch.
    + revert Hok. by apply listenersOk_same.
  - unfold removeLayer, handleLayersRemove_.
    destruct (indexOf l (layers s)) as [i|]; [|by intros [= <-]].
    intros Hw Hok. refine (unwatchLayer_listenersOk l _ _ _ Hw _).
    + by apply (wf_preserved s).
    + revert Hok. by apply listenersOk_same.
  - unfold setVisible. destruct (decide _); [by intros [= <-]|].
    intros Hd Hok. apply (dispatch_listenersOk _ _ _ Hd). revert Hok.
    by apply listenersOk_same.
  - intros [= <-]. by apply listenersOk_same.
  - unfold firePostrender, onPostrender.
    destruct (oncePostrender s); [|by intros [= <-]].
    intros Ht Hok. apply (toggle_listenersOk _ _ Ht). revert Hok.
    by apply listenersOk_same.
  - unfold changeCenter, onChangeCenter. cbv zeta.
    destruct (onceCenter (set_center c s)).
    + intros Ht Hok. apply (toggle_listenersOk _ _ Ht). revert Hok.
      by apply listenersOk_same.
    + intros [= <-]. by apply listenersOk_same.
Qed.

Lemma construct_listenersOk objs lyrs c wv :
  listenersOk (construct objs lyrs c wv).
Proof.
  constructor; try done.
  - apply NoDup_nil_2.
  - intros x Hx. by apply elem_of_nil in Hx.
  - intros x Hx. by apply elem_of_nil in Hx.
  - intros x Hx. by apply elem_of_nil in Hx.
Qed.

(** Everything the proofs keep along a run that watches no Google layer
    while it is tracked. *)
Lemma run_invariants es s :
  wf s → listenersOk s → mountOk s → watchesOnce es s = true →
  ∃ s', run es s = Some s' ∧ wf s' ∧ listenersOk s' ∧ mountOk s'.
Proof.
  revert s. induction es as [|e r IH]; intros s Hwf Hok Hm Honce; simpl.
  - by exists s.
  - destruct (step_ok e s Hwf) as (s1 & Hst & Hwf1 & _).
    simpl in Honce. rewrite Hst in Honce.
    apply andb_true_iff in Honce as [Hnew Honce].
    rewrite Hst. simpl. apply IH; [done| | |done].
    + by apply (step_listenersOk e s).
    + by apply (step_mountOk e s).
Qed.

Lemma length_filter_split (L : list Listener) :
  length L
  = length (filter (λ x, isToggle x = true) L)
    + length (filter (λ x, isToggle x = false) L).
Proof.
  induction L as [|x r IH]; [done|].
  rewrite !filter_cons. destruct (isToggle x) eqn:Hx.
  - rewrite decide_True, decide_False by done. simpl. lia.
  - rewrite decide_False, decide_True by done. simpl. lia.
Qed.

Lemma length_bind_one {A B} (f : A → list B) (l : list A) :
  (∀ x, x ∈ l → length (f x) = 1) → length (l ≫= f) = length l.
Proof.
  induction l as [|x r IH]; intros H1; [done|].
  rewrite bind_cons, length_app, (H1 x) by left. simpl. f_equal.
  apply IH. intros y Hy. apply H1. by right.
Qed.

Lemma listenersOk_google s g :
  listenersOk s → g ∈ googleCache_ s →
  ∃ k, g_listenerKeys g = [k]
       ∧ mkListener k (g_layer g) HToggle ∈ listeners s.
Proof.
  intros Hok Hin. pose proof (lo_gone _ Hok g Hin) as H1.
  destruct (g_listenerKeys g) as [|k [|]] eqn:Hk; try done.
  exists k. split; [done|].
  apply (list_elem_of_filter (λ x, isToggle x = true)).
  rewrite (lo_toggle _ Hok). apply list_elem_of_bind. exists g.
  split; [|done]. unfold googleListeners. rewrite Hk. left.
Qed.

Lemma listenersOk_vector s v :
  listenersOk s → v ∈ vectorCache_ s →
  ∃ k, v_listenerKeys v = [k]
       ∧ mkListener k (v_layer v) (HVectorVisible v) ∈ listeners s.
Proof.
  intros Hok Hin. pose proof (lo_vone _ Hok v Hin) as H1.
  destruct (v_listenerKeys v) as [|k [|]] eqn:Hk; try done.
  exists k. split; [done|].
  apply (list_elem_of_filter (λ x, isToggle x = false)).
  rewrite (lo_vector _ Hok). apply list_elem_of_bind. exists v.
  split; [|done]. unfold vectorListeners. rewrite Hk. left.
Qed.

(** X8. subscriptions neither leak nor dangle, as long as no Google
    layer is watched again while it is tracked (a second [layer.on] with
    the toggle function would hand out the key of the first listener).
    After any such sequence of events on a fresh herald the registry of
    [change:visible] listeners holds exactly one listener per cache item,
    under pairwise distinct keys: each Google cache item owns the key of
    a toggle listener on its layer, each vector cache item the key of a
    listener bound to itself, and once nothing is tracked no listener is
    left. *)
Theorem listeners_match_caches (objs : gmap nat Layer) (lyrs : list nat)
  (c : option Coordinate) (watchVector : bool) (es : list Event) :
  watchesOnce es (construct objs lyrs c watchVector) = true →
  ∃ s,
    run es (construct objs lyrs c watchVector) = Some s
    ∧ length (listeners s)
      = length (googleCache_ s) + length (vectorCache_ s)
    ∧ NoDup (lk_key <$> listeners s)
    ∧ (∀ g, g ∈ googleCache_ s →
         ∃ k, g_listenerKeys g = [k]
              ∧ mkListener k (g_layer g) HToggle ∈ listeners s)
    ∧ (∀ v, v ∈ vectorCache_ s →
         ∃ k, v_listenerKeys v = [k]
              ∧ mkListener k (v_layer v) (HVectorVisible v) ∈ listeners s)
    ∧ (googleLayers_ s = [] → vectorLayers_ s = [] → listeners s = []).
Proof.
  intros Honce.
  destruct (run_invariants es (construct objs lyrs c watchVector))
    as (s & Hr & Hwf & Hok & _).
  - apply construct_wf.
  - apply construct_listenersOk.
  - done.
  - exact Honce.
  - exists s. split; [done|].
    assert (length (listeners s)
            = length (googleCache_ s) + length (vectorCache_ s)) as Hlen.
    { rewrite (length_filter_split (listeners s)).
      rewrite (lo_toggle _ Hok), (lo_vector _ Hok).
      rewrite !length_bind_one; [done| |].
      - intros v Hv. unfold vectorListeners. rewrite length_fmap.
        by apply (lo_vone _ Hok).
      - intros g Hg. unfold googleListeners. rewrite length_fmap.
        by apply (lo_gone _ Hok). }
    split; [done|]. split; [apply Hok|].
    split; [intros g; by apply listenersOk_google|].
    split; [intros v; by apply listenersOk_vector|].
    intros Hg Hv. rewrite <- (wf_google _ Hwf) in Hg.
    rewrite <- (wf_vector _ Hwf) in Hv.
    apply fmap_nil_inv in Hg, Hv. rewrite Hg, Hv in Hlen.
    by apply nil_length_inv.
Qed.

Lemma listeners_match_caches_witness :
  ∃ s,
    run (exActiveTrace ++ [EvAdd 3; EvRemove 1]) exInitial = Some s
    ∧ googleLayers_ s = [2] ∧ vectorLayers_ s = [3]
    ∧ length (listeners s) = 2
    ∧ NoDup (lk_key <$> listeners s).
Proof.
  destruct (listeners_match_caches exObjects [] None true
              (exActiveTrace ++ [EvAdd 3; EvRemove 1]))
    as (s & Hr & Hlen & Hnd & _).
  - vm_compute. reflexivity.
  - exists s. split; [exact Hr|].
    assert (googleLayers_ s = [2] ∧ vectorLayers_ s = [3]
            ∧ length (googleCache_ s) + length (vectorCache_ s) = 2)
      as (Hg & Hv & Hn).
    { vm_compute in Hr. injection Hr as <-. repeat split. }
    split; [exact Hg|]. split; [exact Hv|].
    split; [by rewrite Hlen | exact Hnd].
Defined.

(** ** Watching and unwatching are inverse on the bookkeeping *)

Lemma indexOf_snoc x (arr : list nat) :
  x ∉ arr → indexOf x (arr ++ [x]) = Some (length arr).
Proof.
  intros Hnot. apply indexOf_None in Hnot.
  induction arr as [|y r IH]; simpl.
  - by rewrite decide_True.
  - simpl in Hnot. destruct (decide (y = x)); [done|].
    destruct (indexOf x r); [done|]. by rewrite IH.
Qed.

Lemma delete_snoc {A} (l : list A) x : delete (length l) (l ++ [x]) = l.
Proof. rewrite delete_middle. apply app_nil_r. Qed.

Lemma lookup_snoc {A} (l : list A) x : (l ++ [x]) !! length l = Some x.
Proof. by rewrite lookup_app_r, Nat.sub_diag by lia. Qed.

Lemma unlisten_last (L : list Listener) x :
  (∀ y, y ∈ L → lk_key y < lk_key x) →
  filter (λ y, lk_key y ∉ [lk_key x]) (L ++ [x]) = L.
Proof.
  intros Hfr. rewrite filter_app, filter_all, filter_none.
  - apply app_nil_r.
  - intros y Hy Hn. apply list_elem_of_singleton in Hy as ->.
    apply Hn. left.
  - intros y Hy Hn. apply list_elem_of_singleton in Hn.
    specialize (Hfr y Hy). lia.
Qed.

Lemma watch_unwatch_google l s :
  wf s → listenersOk s → instanceofGoogle l s = true →
  l ∉ googleLayers_ s →
  ∃ s1 s2,
    watchLayer_ l s = Some s1 ∧ unwatchLayer_ l s1 = Some s2
    ∧ googleLayers_ s1 = googleLayers_ s ++ [l]
    ∧ googleLayers_ s2 = googleLayers_ s
    ∧ googleCache_ s2 = googleCache_ s
    ∧ vectorLayers_ s2 = vectorLayers_ s
    ∧ vectorCache_ s2 = vectorCache_ s
    ∧ listeners s2 = listeners s.
Proof.
  intros Hwf Hok Hg Hnot.
  destruct (watchGoogleLayer_ok l s Hwf Hg) as (s1 & Hw & Hwf1 & Hf1).
  exists s1. pose proof Hw as Ht. rewrite watchGoogleLayer_eq in Ht.
  rewrite (watchedGoogle_fresh l s (listenersOk_findListener l s Hwf Hok Hnot))
    in Ht.
  pose proof (toggle_frame _ _ Ht) as Hfr.
  assert (googleLayers_ s1 = googleLayers_ s ++ [l]) as Hgl
    by apply (tf_googleLayers _ _ Hfr).
  assert (googleCache_ s1
          = googleCache_ s ++ [mkGoogleLayerCache l [nextId s]]) as Hgc
    by apply (tf_googleCache _ _ Hfr).
  assert (listeners s1 = listeners s ++ [mkListener (nextId s) l HToggle])
    as HL by apply (tf_listeners _ _ Hfr).
  assert (indexOf l (googleLayers_ s1) = Some (length (googleLayers_ s)))
    as Hi by (rewrite Hgl; by apply indexOf_snoc).
  assert (googleCache_ s1 !! length (googleLayers_ s)
          = Some (mkGoogleLayerCache l [nextId s])) as Hitem.
  { rewrite Hgc, <- (wf_google _ Hwf), length_fmap. apply lookup_snoc. }
  destruct (unwatchGoogleLayer_ok l s1 Hwf1) as (s2 & Hu & _ & _).
  exists s2. pose proof Hu as Ht2.
  rewrite (unwatchGoogleLayer_found l _ _ s1 Hi Hitem) in Ht2.
  pose proof (toggle_frame _ _ Ht2) as Hfr2.
  split. { unfold watchLayer_. by rewrite Hg. }
  split.
  { unfold unwatchLayer_.
    destruct (attrFrame_attrs _ _ l Hf1) as (-> & _). by rewrite Hg. }
  split; [done|].
  rewrite (tf_googleLayers _ _ Hfr2), (tf_googleCache _ _ Hfr2),
    (tf_vectorLayers _ _ Hfr2), (tf_vectorCache _ _ Hfr2),
    (tf_listeners _ _ Hfr2).
  change (googleLayers_ (unwatchedGoogle ?i ?g s1))
    with (delete i (googleLayers_ s1)).
  change (googleCache_ (unwatchedGoogle ?i ?g s1))
    with (delete i (googleCache_ s1)).
  change (vectorLayers_ (unwatchedGoogle ?i ?g s1)) with (vectorLayers_ s1).
  change (vectorCache_ (unwatchedGoogle ?i ?g s1)) with (vectorCache_ s1).
  change (listeners (unwatchedGoogle ?i ?g s1))
    with (filter (λ x, lk_key x ∉ g_listenerKeys g) (listeners s1)).
  assert (length (googleLayers_ s) = length (googleCache_ s)) as Hlen
    by (by rewrite <- (wf_google _ Hwf), length_fmap).
  rewrite Hgl, delete_snoc, Hgc, Hlen, delete_snoc.
  rewrite (tf_vectorLayers _ _ Hfr), (tf_vectorCache _ _ Hfr), HL.
  repeat split; try done.
  apply (unlisten_last (listeners s) (mkListener (nextId s) l HToggle)).
  apply (lo_fresh _ Hok).
Qed.

Lemma watch_unwatch_vector l s :
  wf s → listenersOk s →
  instanceofGoogle l s = false → instanceofVector l s = true →
  watchVector_ s = true → is_Some (getSource l s) →
  l ∉ vectorLayers_ s →
  ∃ s1 s2,
    watchLayer_ l s = Some s1 ∧ unwatchLayer_ l s1 = Some s2
    ∧ vectorLayers_ s1 = vectorLayers_ s ++ [l]
    ∧ googleLayers_ s2 = googleLayers_ s
    ∧ googleCache_ s2 = googleCache_ s
    ∧ vectorLayers_ s2 = vectorLayers_ s
    ∧ vectorCache_ s2 = vectorCache_ s
    ∧ listeners s2 = listeners s
    ∧ getOpacity l s2 = getOpacity l s
    ∧ heraldActive (v_herald (newVectorItem l s)) s2 = false.
Proof.
  intros Hwf Hok Hg Hv Hw Hsrc Hnot.
  set (s1 := watchVectorLayer_ l s). set (item := newVectorItem l s).
  destruct (watchVectorLayer_arrays l s Hsrc)
    as (Hvl & Hvc & Hgl & Hgc & _). fold s1 item in Hvl, Hvc, Hgl, Hgc.
  destruct (watchVectorLayer_listeners l s Hsrc) as (HL & _).
  fold s1 item in HL.
  pose proof (watchVectorLayer_attrFrame l s) as Hf. fold s1 in Hf.
  assert (length (vectorLayers_ s) = length (vectorCache_ s)) as Hlen
    by (by rewrite <- (wf_vector _ Hwf), length_fmap).
  assert (indexOf l (vectorLayers_ s1) = Some (length (vectorLayers_ s)))
    as Hi by (rewrite Hvl; by apply indexOf_snoc).
  assert (vectorCache_ s1 !! length (vectorLayers_ s) = Some item) as Hitem
    by (rewrite Hvc, Hlen; apply lookup_snoc).
  exists s1, (unwatchedVector l (length (vectorLayers_ s)) item s1).
  split. { unfold watchLayer_. by rewrite Hg, Hv, Hw. }
  split.
  { unfold unwatchLayer_.
    destruct (attrFrame_attrs _ _ l Hf) as (-> & -> & _).
    rewrite (af_watchVector _ _ Hf), Hg, Hv, Hw. simpl.
    by apply unwatchVectorLayer_found. }
  split; [done|].
  destruct (unwatchedVector_arrays l (length (vectorLayers_ s)) item s1)
    as (-> & -> & -> & -> & _).
  destruct (unwatchedVector_listeners l (length (vectorLayers_ s)) item s1)
    as (-> & _).
  rewrite Hvl, delete_snoc, Hvc, Hlen, delete_snoc, HL.
  split; [done|]. split; [done|]. split; [done|]. split; [done|].
  split.
  { apply (unlisten_last (listeners s)
             (mkListener (S (S (nextId s))) l (HVectorVisible item))).
    intros y Hy. pose proof (lo_fresh _ Hok y Hy). simpl. lia. }
  split; [apply getOpacity_unwatchedVector|].
  unfold unwatchedVector. cbv zeta.
  rewrite heraldActive_set_vectorCache, heraldActive_setOpacity.
  apply heraldActive_heraldDeactivate.
Qed.

(** X9. unwatching undoes watching.  For a layer that is not tracked,
    [watchLayer_] followed by [unwatchLayer_] gives back the tracked
    arrays, both caches and the listener registry as they were, and a
    layer that is not a Google layer has the opacity it had before, also
    when the herald made it transparent in between. *)
Theorem watch_unwatch_roundtrip (s : State) (l : nat) :
  wf s → listenersOk s →
  l ∉ googleLayers_ s → l ∉ vectorLayers_ s →
  ∃ s1 s2,
    watchLayer_ l s = Some s1 ∧ unwatchLayer_ l s1 = Some s2
    ∧ googleLayers_ s2 = googleLayers_ s
    ∧ googleCache_ s2 = googleCache_ s
    ∧ vectorLayers_ s2 = vectorLayers_ s
    ∧ vectorCache_ s2 = vectorCache_ s
    ∧ listeners s2 = listeners s
    ∧ (instanceofGoogle l s = false → getOpacity l s2 = getOpacity l s).
Proof.
  intros Hwf Hok Hng Hnv.
  destruct (instanceofGoogle l s) eqn:Hg.
  - destruct (watch_unwatch_google l s Hwf Hok Hg Hng)
      as (s1 & s2 & H1 & H2 & _ & H3 & H4 & H5 & H6 & H7).
    exists s1, s2. repeat split; done.
  - destruct (instanceofVector l s && watchVector_ s) eqn:Hvw.
    + apply andb_true_iff in Hvw as [Hv Hw].
      destruct (getSource l s) as [src|] eqn:Hsrc.
      * destruct (watch_unwatch_vector l s Hwf Hok Hg Hv Hw) as
          (s1 & s2 & H1 & H2 & _ & H3 & H4 & H5 & H6 & H7 & H8 & _);
          [by eexists | done |].
        exists s1, s2. repeat split; done.
      * exists s, s. split.
        { unfold watchLayer_, watchVectorLayer_.
          by rewrite Hg, Hv, Hw, Hsrc. }
        split; [|done]. unfold unwatchLayer_. rewrite Hg, Hv, Hw. simpl.
        by apply unwatchVectorLayer_absent, indexOf_None.
    + exists s, s. unfold watchLayer_, unwatchLayer_. by rewrite Hg, Hvw.
Qed.

Lemma invariants_of_run es objs lyrs c wv s :
  watchesOnce es (construct objs lyrs c wv) = true →
  run es (construct objs lyrs c wv) = Some s →
  wf s ∧ listenersOk s ∧ mountOk s.
Proof.
  intros Honce H.
  destruct (run_invariants es (construct objs lyrs c wv))
    as (s' & Hr & Hwf & Hok & Hm);
    [apply construct_wf | apply construct_listenersOk | done | done |].
  assert (s' = s) as -> by congruence. done.
Qed.

Lemma watch_unwatch_roundtrip_witness :
  ∃ s1 s2,
    watchLayer_ 3 exActive = Some s1 ∧ unwatchLayer_ 3 s1 = Some s2
    ∧ vectorLayers_ s1 = [3]
    ∧ vectorLayers_ s2 = [] ∧ vectorCache_ s2 = []
    ∧ listeners s2 = listeners exActive
    ∧ getOpacity 3 s1 = 0%Q
    ∧ getOpacity 3 s2 = (8 # 10)%Q.
Proof.
  assert (watchesOnce exActiveTrace exInitial = true) as Honce
    by (vm_compute; reflexivity).
  destruct (invariants_of_run _ _ _ _ _ _ Honce exActive_run)
    as (Hwf & Hok & _).
  destruct (watch_unwatch_roundtrip exActive 3 Hwf Hok)
    as (s1 & s2 & Hw & Hu & _ & _ & Hvl & Hvc & HL & Ho).
  - apply indexOf_None. vm_compute. reflexivity.
  - apply indexOf_None. vm_compute. reflexivity.
  - exists s1, s2. split; [exact Hw|]. split; [exact Hu|].
    vm_compute in Hw. injection Hw as <-.
    split; [reflexivity|]. split; [exact Hvl|]. split; [exact Hvc|].
    split; [exact HL|]. split; [reflexivity|]. by apply Ho.
Defined.

Lemma sameShown_refl s : sameShown s s.
Proof. done. Qed.

Lemma sameShown_trans s1 s2 s3 :
  sameShown s1 s2 → sameShown s2 s3 → sameShown s1 s3.
Proof.
  intros (Ha & Ht & Hs & Hl & Hg & Hx) (Ha' & Ht' & Hs' & Hl' & Hg' & Hx').
  unfold sameShown. rewrite Ha', Ht', Hs', Hl', Hg'.
  repeat (split; [done|]). intros l.
  destruct (Hx l) as (<- & <- & <- & <-). apply Hx'.
Qed.

Lemma sameShown_getLayer s s' :
  googleMapsIsActive_ s' = googleMapsIsActive_ s →
  gmapTypeId s' = gmapTypeId s → gmapStyles s' = gmapStyles s →
  layers s' = layers s → googleLayers_ s' = googleLayers_ s →
  (∀ l, getLayer l s' = getLayer l s) →
  sameShown s s'.
Proof.
  intros Ha Ht Hs Hl Hg Hx. repeat (split; [done|]). intros l.
  unfold instanceofGoogle, getVisible, getMapTypeId, getStyles.
  by rewrite Hx.
Qed.

Lemma itemFrame_sameShown s s' : itemFrame s s' → sameShown s s'.
Proof.
  intros Hf. unfold sameShown.
  rewrite (fr_active _ _ Hf), (fr_gmapTypeId _ _ Hf), (fr_gmapStyles _ _ Hf),
    (fr_layers _ _ Hf), (fr_googleLayers _ _ Hf).
  repeat (split; [done|]). intros l.
  destruct (itemFrame_kind s s' l Hf) as (H1 & _ & H2 & H3 & H4 & _).
  done.
Qed.

Lemma sameShown_findTopMost s s' :
  sameShown s s' → findTopMost s' = findTopMost s.
Proof.
  intros (_ & _ & _ & Hl & Hg & Hx). unfold findTopMost. rewrite Hl.
  apply everyUntilFound_ext. intros x _. unfold isCandidate.
  destruct (Hx x) as (-> & -> & _). by rewrite Hg.
Qed.

Lemma showsTopMost_same s s' :
  sameShown s s' → showsTopMost s → showsTopMost s'.
Proof.
  intros Hs Hsh Ha. pose proof (sameShown_findTopMost _ _ Hs) as Hft.
  destruct Hs as (Ha' & Ht & Hst & _ & _ & Hx).
  rewrite Ha' in Ha. destruct (Hsh Ha) as (w & Hw & Hty & Hsty).
  exists w. destruct (Hx w) as (_ & _ & -> & ->).
  rewrite Hft, Ht, Hst. done.
Qed.

Lemma toggle_shows s s' :
  domOk s → toggleGoogleMaps_ s = Some s' → showsTopMost s' ∧ domOk s'.
Proof.
  intros Hd Ht. pose proof (toggle_frame s s' Ht) as Hf.
  destruct (findTopMost s) as [w|] eqn:Hw.
  - destruct (toggle_winner s w Hd Hw)
      as (s'' & Ht' & _ & Hty & Hst & _ & _ & Hd').
    assert (s'' = s') as -> by congruence. split; [|done].
    intros _. exists w.
    destruct (toggleFrame_attrs s s' w Hf) as (_ & _ & _ & -> & -> & _).
    by rewrite (toggleFrame_findTopMost _ _ Hf).
  - rewrite (toggle_not_found s Hw) in Ht.
    destruct (deactivate_result s Hd) as (s'' & Hde & _ & Hoff & Hd').
    assert (s'' = s') as -> by congruence. split; [|done].
    intros Ha. congruence.
Qed.

Lemma itemFrame_domOk s s' : itemFrame s s' → domOk s → domOk s'.
Proof.
  intros Hf. unfold domOk.
  by rewrite (fr_active _ _ Hf), (fr_targetChildren _ _ Hf).
Qed.

Lemma dispatch_shows ls s s' :
  domOk s →
  showsTopMost s ∨ (∃ x, x ∈ ls ∧ lk_handler x = HToggle) →
  dispatch ls s = Some s' → showsTopMost s'.
Proof.
  revert s. induction ls as [|x r IH]; intros s Hd Hor; simpl.
  - intros [= <-]. destruct Hor as [|(x & Hx & _)]; [done|].
    by apply elem_of_nil in Hx.
  - destruct (lk_handler x) as [|item] eqn:Hh; simpl.
    + destruct (toggleGoogleMaps_ s) as [s1|] eqn:Ht; simpl; [|done].
      destruct (toggle_shows s s1 Hd Ht) as [Hsh Hd1].
      apply IH; [done | by left].
    + pose proof (handleVisible_itemFrame item s) as Hf.
      apply IH; [by apply (itemFrame_domOk s)|].
      destruct Hor as [Hsh|(y & Hy & Hty)].
      * left. apply (showsTopMost_same s); [|done].
        by apply itemFrame_sameShown.
      * right. exists y. split; [|done].
        apply elem_of_cons in Hy as [->|Hy]; [congruence | done].
Qed.

Lemma everyUntilFound_skip hit (pre : list nat) x post found :
  hit x = false →
  everyUntilFound hit (pre ++ x :: post) found
  = everyUntilFound hit (pre ++ post) found.
Proof.
  intros Hx. induction pre as [|y pre IH]; simpl.
  - by rewrite Hx.
  - by rewrite IH.
Qed.

Lemma findTopMost_push l s :
  isCandidate s l = false →
  findTopMost (set_layers (layers s ++ [l]) s) = findTopMost s.
Proof.
  intros Hl. unfold findTopMost.
  change (layers (set_layers ?x s)) with x. rewrite reverse_snoc.
  change (isCandidate (set_layers (layers s ++ [l]) s)) with (isCandidate s).
  simpl. by rewrite Hl.
Qed.

Lemma findTopMost_delete l i s :
  layers s !! i = Some l → isCandidate s l = false →
  findTopMost (set_layers (delete i (layers s)) s) = findTopMost s.
Proof.
  intros Hi Hl. unfold findTopMost.
  change (layers (set_layers ?x s)) with x.
  change (isCandidate (set_layers (delete i (layers s)) s))
    with (isCandidate s).
  rewrite delete_take_drop.
  rewrite <- (take_drop_middle (layers s) i l Hi) at 3.
  rewrite !reverse_app, reverse_cons, <- app_assoc. simpl.
  symmetry. by apply everyUntilFound_skip.
Qed.

Lemma showsTopMost_layers s arr :
  findTopMost (set_layers arr s) = findTopMost s →
  showsTopMost s → showsTopMost (set_layers arr s).
Proof. intros Hft Hsh Ha. rewrite Hft. by apply Hsh. Qed.

Lemma preparedVector_gmapTypeId l s :
  gmapTypeId (preparedVector l s) = gmapTypeId s.
Proof. unfold preparedVector. cbv zeta. by destruct (l_gmStyle _). Qed.

Lemma preparedVector_gmapStyles l s :
  gmapStyles (preparedVector l s) = gmapStyles s.
Proof. unfold preparedVector. cbv zeta. by destruct (l_gmStyle _). Qed.

Lemma preparedVector_layers l s :
  layers (preparedVector l s) = layers s.
Proof. unfold preparedVector. cbv zeta. by destruct (l_gmStyle _). Qed.

Lemma preparedVector_googleLayers l s :
  googleLayers_ (preparedVector l s) = googleLayers_ s.
Proof. unfold preparedVector. cbv zeta. by destruct (l_gmStyle _). Qed.

Lemma sameShown_set_vectorCache cache s :
  sameShown s (set_vectorCache_ cache s).
Proof. apply sameShown_getLayer; reflexivity. Qed.

Lemma watchVectorLayer_sameShown l s : sameShown s (watchVectorLayer_ l s).
Proof.
  destruct (getSource l s) as [src|] eqn:Hsrc.
  - rewrite (watchVectorLayer_eq l s) by by eexists.
    set (p := preparedVector l s).
    apply (sameShown_trans s p).
    { apply sameShown_getLayer;
        [apply preparedVector_active | apply preparedVector_gmapTypeId
        | apply preparedVector_gmapStyles | apply preparedVector_layers
        | apply preparedVector_googleLayers
        | intros x; apply preparedVector_getLayer]. }
    apply (sameShown_trans p
             (activateVectorLayerCacheItem_ (newVectorItem l s) p));
      [apply itemFrame_sameShown, itemFrame_activateItem
      | apply sameShown_set_vectorCache].
  - unfold watchVectorLayer_. rewrite Hsrc. apply sameShown_refl.
Qed.

Lemma unwatchedVector_sameShown l i item s :
  sameShown s (unwatchedVector l i item s).
Proof.
  unfold unwatchedVector. cbv zeta.
  set (s4 := heraldDeactivate _ _).
  apply (sameShown_trans s s4); [done|].
  apply (sameShown_trans s4 (setOpacity l (v_opacity item) s4));
    [apply itemFrame_sameShown, itemFrame_setOpacity | done].
Qed.

Lemma domOk_watchedGoogle l s : domOk s → domOk (watchedGoogle l s).
Proof. by destruct (watchedGoogle_eq l s) as (k & ls & n & ->). Qed.

Lemma watchLayer_shows l s s' :
  domOk s → showsTopMost s → watchLayer_ l s = Some s' → showsTopMost s'.
Proof.
  intros Hd Hsh. unfold watchLayer_. destruct (instanceofGoogle l s).
  - rewrite watchGoogleLayer_eq. intros Ht.
    apply (toggle_shows (watchedGoogle l s)); [|done].
    by apply domOk_watchedGoogle.
  - destruct (_ && _); intros [= <-]; [|done].
    apply (showsTopMost_same s); [apply watchVectorLayer_sameShown | done].
Qed.

Lemma unwatchLayer_shows l s s' :
  wf s →
  showsTopMost s ∨ (instanceofGoogle l s = true ∧ l ∈ googleLayers_ s) →
  unwatchLayer_ l s = Some s' → showsTopMost s'.
Proof.
  intros Hwf Hor. unfold unwatchLayer_.
  destruct (instanceofGoogle l s) eqn:Hg.
  - destruct (indexOf l (googleLayers_ s)) as [i|] eqn:Hi.
    + destruct (cache_lookup_aligned _ _ _ _ _ (wf_google _ Hwf) Hi)
        as (item & Hitem & _).
      rewrite (unwatchGoogleLayer_found l i item s Hi Hitem). intros Ht.
      apply (toggle_shows (unwatchedGoogle i item s)); [|done].
      apply (wf_dom _ Hwf).
    + rewrite (unwatchGoogleLayer_absent l s Hi). intros [= <-].
      destruct Hor as [|[_ Hin]]; [done|].
      by apply indexOf_None in Hi.
  - destruct Hor as [Hsh|[? _]]; [|done].
    destruct (_ && _); [|by intros [= <-]].
    destruct (indexOf l (vectorLayers_ s)) as [i|] eqn:Hi.
    + destruct (cache_lookup_aligned _ _ _ _ _ (wf_vector _ Hwf) Hi)
        as (item & Hitem & _).
      rewrite (unwatchVectorLayer_found l i item s Hi Hitem).
      intros [= <-].
      apply (showsTopMost_same s); [apply unwatchedVector_sameShown | done].
    + rewrite (unwatchVectorLayer_absent l s Hi). by intros [= <-].
Qed.

Lemma candidate_tracked s l :
  isCandidate s l = true →
  instanceofGoogle l s = true ∧ l ∈ googleLayers_ s.
Proof.
  unfold isCandidate. intros H.
  apply andb_true_iff in H as [H Hin]. apply andb_true_iff in H as [Hg _].
  split; [done | by apply isDefined_indexOf].
Qed.

Lemma storeVisible_shows l b s :
  l ∉ googleLayers_ s → showsTopMost s → showsTopMost (storeVisible l b s).
Proof.
  intros Hnot Hsh Ha.
  change (googleMapsIsActive_ (storeVisible l b s))
    with (googleMapsIsActive_ s) in Ha.
  destruct (Hsh Ha) as (w & Hw & Hty & Hst).
  assert (findTopMost (storeVisible l b s) = findTopMost s) as Hft.
  { unfold findTopMost. change (layers (storeVisible l b s)) with (layers s).
    apply everyUntilFound_ext. intros x _.
    rewrite isCandidate_storeVisible.
    destruct (decide (l = x)) as [<-|]; [|done].
    assert (isDefined (indexOf l (googleLayers_ s)) = false) as Hno.
    { apply not_true_is_false. by rewrite isDefined_indexOf. }
    unfold isCandidate. rewrite Hno. by rewrite !andb_false_r. }
  exists w. rewrite Hft. split; [done|].
  assert (w ≠ l) as Hne.
  { intros ->. apply findTopMost_Some in Hw as (? & ? & _ & Hc & _).
    by apply candidate_tracked in Hc as [_ Hin]. }
  change (gmapTypeId (storeVisible l b s)) with (gmapTypeId s).
  change (gmapStyles (storeVisible l b s)) with (gmapStyles s).
  unfold getMapTypeId, getStyles in *.
  rewrite getLayer_storeVisible, decide_False by done. done.
Qed.

Lemma setVisible_shows l b s s' :
  wf s → listenersOk s → showsTopMost s →
  setVisible l b s = Some s' → showsTopMost s'.
Proof.
  intros Hwf Hok Hsh. unfold setVisible.
  destruct (decide _); [by intros [= <-]|].
  apply dispatch_shows; [apply (wf_dom _ Hwf)|].
  destruct (decide (l ∈ googleLayers_ s)) as [Hin|Hnot].
  - right. rewrite <- (wf_google _ Hwf) in Hin.
    apply list_elem_of_fmap in Hin as (g & -> & Hg).
    destruct (listenersOk_google s g Hok Hg) as (k & _ & Hk).
    exists (mkListener k (g_layer g) HToggle). split; [|done].
    apply list_elem_of_filter. split; [done|].
    by change (listeners (storeVisible (g_layer g) b s)) with (listeners s).
  - left. by apply storeVisible_shows.
Qed.

Lemma step_shows e s s' :
  wf s → listenersOk s → showsTopMost s →
  step e s = Some s' → showsTopMost s'.
Proof.
  intros Hwf Hok Hsh. destruct e as [l|l|l|l|l b|l q| |c]; simpl.
  - apply watchLayer_shows; [apply (wf_dom _ Hwf) | done].
  - apply unwatchLayer_shows; [done | by left].
  - unfold addLayer, handleLayersAdd_.
    set (t := set_layers (layers s ++ [l]) s).
    destruct (instanceofGoogle l s) eqn:Hg.
    + unfold watchLayer_.
      change (instanceofGoogle l t) with (instanceofGoogle l s).
      rewrite Hg, watchGoogleLayer_eq. intros Ht.
      apply (toggle_shows (watchedGoogle l t)); [|done].
      apply domOk_watchedGoogle, (wf_dom _ Hwf).
    + apply watchLayer_shows; [apply (wf_dom _ Hwf)|].
      apply showsTopMost_layers; [|done]. apply findTopMost_push.
      unfold isCandidate. by rewrite Hg.
  - unfold removeLayer, handleLayersRemove_.
    destruct (indexOf l (layers s)) as [i|] eqn:Hi; [|by intros [= <-]].
    apply indexOf_Some in Hi as [Hi _].
    apply unwatchLayer_shows; [by apply (wf_preserved s)|].
    destruct (isCandidate s l) eqn:Hc.
    + right. by apply candidate_tracked in Hc.
    + left. apply showsTopMost_layers; [|done].
      by apply (findTopMost_delete l).
  - by apply setVisible_shows.
  - intros [= <-]. apply (showsTopMost_same s); [|done].
    apply itemFrame_sameShown.
    assert (itemFrame s (setOpacity l q s)) as Hf
      by apply itemFrame_setOpacity.
    destruct Hf. constructor; done.
  - unfold firePostrender, onPostrender.
    destruct (oncePostrender s); [|by intros [= <-]].
    intros Ht. eapply toggle_shows; [|exact Ht]. apply (wf_dom _ Hwf).
  - unfold changeCenter, onChangeCenter. cbv zeta.
    destruct (onceCenter (set_center c s)).
    + intros Ht. eapply toggle_shows; [|exact Ht]. apply (wf_dom _ Hwf).
    + by intros [= <-].
Qed.

(** X10. as long as no Google layer is watched again while it is tracked
    (so that every tracked Google layer keeps a toggle listener of its
    own), whenever Google Maps is active some layer of the collection is a
    visible, cached Google layer, and the Google Maps map carries the map
    type and the styles of the top-most such layer. *)
Theorem active_shows_topmost (objs : gmap nat Layer) (lyrs : list nat)
  (c : option Coordinate) (watchVector : bool) (es : list Event) :
  watchesOnce es (construct objs lyrs c watchVector) = true →
  ∃ s,
    run es (construct objs lyrs c watchVector) = Some s
    ∧ (googleMapsIsActive_ s = true →
       ∃ w below above,
         layers s = below ++ w :: above
         ∧ qualifies s w
         ∧ (∀ x, x ∈ above → ¬ qualifies s x)
         ∧ gmapTypeId s = Some (getMapTypeId w s)
         ∧ gmapStyles s = getStyles w s).
Proof.
  assert (∀ es s, wf s → listenersOk s → showsTopMost s →
            watchesOnce es s = true →
            ∃ s', run es s = Some s' ∧ wf s' ∧ showsTopMost s') as Hrun.
  { clear. induction es as [|e r IH]; intros s Hwf Hok Hsh Honce; simpl.
    - by exists s.
    - destruct (step_ok e s Hwf) as (s1 & Hst & Hwf1 & _).
      simpl in Honce. rewrite Hst in Honce.
      apply andb_true_iff in Honce as [Hnew Honce].
      rewrite Hst. simpl. apply IH; [done | | | done].
      + by apply (step_listenersOk e s).
      + by apply (step_shows e s). }
  intros Honce.
  destruct (Hrun es (construct objs lyrs c watchVector))
    as (s & Hr & Hwf & Hsh).
  - apply construct_wf.
  - apply construct_listenersOk.
  - intros Ha. done.
  - exact Honce.
  - exists s. split; [done|]. intros Ha.
    destruct (Hsh Ha) as (w & Hw & Hty & Hst).
    apply findTopMost_Some in Hw as (below & above & Hl & Hc & Hab).
    exists w, below, above. split; [done|].
    split; [by apply (isCandidate_qualifies s w (wf_google _ Hwf))|].
    split; [|done]. intros x Hx.
    apply (isCandidate_not_qualifies s x (wf_google _ Hwf)). by apply Hab.
Qed.

Lemma active_shows_topmost_witness :
  ∃ s,
    run (exActiveTrace ++ [EvSetVisible 2 false]) exInitial = Some s
    ∧ googleMapsIsActive_ s = true
    ∧ ∃ w, qualifies s w ∧ gmapTypeId s = Some (getMapTypeId w s)
           ∧ getMapTypeId w s = "ROADMAP"%string.
Proof.
  destruct (active_shows_topmost exObjects [] None true
              (exActiveTrace ++ [EvSetVisible 2 false]))
    as (s & Hr & Hsh).
  - vm_compute. reflexivity.
  - exists s. split; [exact Hr|].
    assert (googleMapsIsActive_ s = true
            ∧ gmapTypeId s = Some "ROADMAP"%string) as [Ha Hid].
    { vm_compute in Hr. injection Hr as <-. split; reflexivity. }
    split; [exact Ha|].
    destruct (Hsh Ha) as (w & _ & _ & _ & Hq & _ & Hty & _).
    exists w. split; [exact Hq|]. split; [exact Hty|].
    rewrite Hty in Hid. by injection Hid.
Defined.

(** ** A Google layer watched while it is tracked *)

(** Under [listenersOk] the toggle listeners on a layer are those of its
    cache items. *)
Lemma toggle_listener_owner s x :
  listenersOk s → x ∈ listeners s → lk_handler x = HToggle →
  ∃ g, g ∈ googleCache_ s ∧ g_layer g = lk_target x
       ∧ g_listenerKeys g = [lk_key x].
Proof.
  intros Hok Hx Hh.
  assert (x ∈ googleCache_ s ≫= googleListeners) as Hin.
  { rewrite <- (lo_toggle _ Hok). apply list_elem_of_filter.
    split; [|done]. unfold isToggle. by rewrite Hh. }
  apply list_elem_of_bind in Hin as (g & Hxg & Hg).
  exists g. split; [done|].
  pose proof (lo_gone _ Hok g Hg) as H1.
  unfold googleListeners in Hxg.
  destruct (g_listenerKeys g) as [|k [|]] eqn:Hk; try done.
  apply list_elem_of_fmap in Hxg as (k' & -> & Hk').
  apply list_elem_of_singleton in Hk' as ->. done.
Qed.

(** Under [listenersOk] a vector listener sits on a tracked vector
    layer. *)
Lemma vector_listener_target s x v :
  listenersOk s → x ∈ listeners s → lk_handler x = HVectorVisible v →
  lk_target x ∈ v_layer <$> vectorCache_ s.
Proof.
  intros Hok Hx Hh.
  assert (x ∈ vectorCache_ s ≫= vectorListeners) as Hin.
  { rewrite <- (lo_vector _ Hok). apply list_elem_of_filter.
    split; [|done]. unfold isToggle. by rewrite Hh. }
  apply list_elem_of_bind in Hin as (v' & Hxv & Hv').
  unfold vectorListeners in Hxv.
  apply list_elem_of_fmap in Hxv as (k & -> & _). simpl.
  apply list_elem_of_fmap. by exists v'.
Qed.

(** X11. a Google layer that is watched again while it is tracked gets no
    listener of its own: [layer.on] hands out the key of the toggle
    listener that is there, and the new cache item holds that key.  The
    next unwatch of the layer then removes the one listener although the
    layer stays tracked, and from then on a change of its visibility runs
    no handler: the herald does not hear of it. *)
Theorem rewatch_shares_listener (s : State) (l : nat) :
  wf s → listenersOk s → NoDup (googleLayers_ s) →
  instanceofGoogle l s = true → l ∈ googleLayers_ s →
  ∃ s1 s2 k,
    watchLayer_ l s = Some s1
    ∧ mkListener k l HToggle ∈ listeners s
    ∧ listeners s1 = listeners s
    ∧ googleLayers_ s1 = googleLayers_ s ++ [l]
    ∧ googleCache_ s1 = googleCache_ s ++ [mkGoogleLayerCache l [k]]
    ∧ unwatchLayer_ l s1 = Some s2
    ∧ l ∈ googleLayers_ s2
    ∧ mkGoogleLayerCache l [k] ∈ googleCache_ s2
    ∧ (∀ x, x ∈ listeners s2 → lk_target x ≠ l)
    ∧ (∀ b, getVisible l s2 ≠ b →
            setVisible l b s2 = Some (storeVisible l b s2)).
Proof.
  intros Hwf Hok Hnd Hg Hin.
  (* the listener that is there *)
  assert (∃ g, g ∈ googleCache_ s ∧ g_layer g = l) as (g & Hgin & Hgl).
  { rewrite <- (wf_google _ Hwf) in Hin.
    apply list_elem_of_fmap in Hin as (g & -> & Hgin). by exists g. }
  destruct (listenersOk_google s g Hok Hgin) as (k & Hk & Hreg).
  rewrite Hgl in Hreg.
  assert (∀ x, x ∈ listeners s → lk_target x = l →
               x = mkListener k l HToggle) as Honly.
  { intros x Hx Hl. destruct (lk_handler x) as [|v] eqn:Hh.
    - destruct (toggle_listener_owner s x Hok Hx Hh) as (g' & Hg' & Hl' & Hk').
      assert (g' = g) as ->.
      { apply (NoDup_fmap_eq g_layer (googleCache_ s)); try done.
        - by rewrite (wf_google _ Hwf).
        - congruence. }
      destruct x as [kx tx hx]. simpl in *. congruence.
    - pose proof (vector_listener_target s x v Hok Hx Hh) as Hv.
      rewrite (wf_vector _ Hwf), Hl in Hv.
      pose proof (wf_vkind _ Hwf l Hv). congruence. }
  assert (findListener l HToggle s = Some (mkListener k l HToggle)) as Hfind.
  { destruct (findListener l HToggle s) as [x|] eqn:Hf.
    - apply findListener_Some in Hf as (Hx & Hl & _). f_equal. auto.
    - rewrite findListener_None in Hf. by destruct (Hf _ Hreg eq_refl). }
  (* the second watch *)
  destruct (watchGoogleLayer_ok l s Hwf Hg) as (s1 & Hw & Hwf1 & Hf1).
  pose proof Hw as Ht. rewrite watchGoogleLayer_eq in Ht.
  rewrite (watchedGoogle_shared l s _ Hfind) in Ht. simpl in Ht.
  pose proof (toggle_frame _ _ Ht) as Hfr.
  assert (listeners s1 = listeners s) as HL
    by apply (tf_listeners _ _ Hfr).
  assert (googleLayers_ s1 = googleLayers_ s ++ [l]) as Hgl1
    by apply (tf_googleLayers _ _ Hfr).
  assert (googleCache_ s1
          = googleCache_ s ++ [mkGoogleLayerCache l [k]]) as Hgc1
    by apply (tf_googleCache _ _ Hfr).
  (* the unwatch *)
  destruct (indexOf_elem l (googleLayers_ s) Hin) as (i & Hi).
  destruct (cache_lookup_aligned _ _ _ _ _ (wf_google _ Hwf) Hi)
    as (g' & Hg' & Hl').
  assert (g' = g) as ->.
  { apply (NoDup_fmap_eq g_layer (googleCache_ s)); try done.
    - by rewrite (wf_google _ Hwf).
    - by eapply list_elem_of_lookup_2.
    - congruence. }
  assert (indexOf l (googleLayers_ s1) = Some i) as Hi1
    by (rewrite Hgl1; by apply indexOf_app_l).
  assert (googleCache_ s1 !! i = Some g) as Hitem1.
  { rewrite Hgc1. apply lookup_app_l_Some. done. }
  destruct (unwatchGoogleLayer_ok l s1 Hwf1) as (s2 & Hu & Hwf2 & Hf2).
  pose proof Hu as Ht2.
  rewrite (unwatchGoogleLayer_found l i g s1 Hi1 Hitem1) in Ht2.
  pose proof (toggle_frame _ _ Ht2) as Hfr2.
  assert (listeners s2
          = filter (λ x, lk_key x ∉ g_listenerKeys g) (listeners s1)) as HL2
    by apply (tf_listeners _ _ Hfr2).
  assert (googleLayers_ s2 = delete i (googleLayers_ s1)) as Hgl2
    by apply (tf_googleLayers _ _ Hfr2).
  assert (googleCache_ s2 = delete i (googleCache_ s1)) as Hgc2
    by apply (tf_googleCache _ _ Hfr2).
  assert (i < length (googleLayers_ s)) as Hlt.
  { apply indexOf_Some in Hi as [Hi _]. by eapply lookup_lt_Some. }
  assert (i < length (googleCache_ s)) as Hlt'
    by (by eapply lookup_lt_Some).
  assert (∀ x, x ∈ listeners s2 → lk_target x ≠ l) as Hnone.
  { intros x Hx Hl. rewrite HL2, HL in Hx.
    apply list_elem_of_filter in Hx as [Hkey Hx].
    rewrite (Honly x Hx Hl), Hk in Hkey. apply Hkey. left. }
  exists s1, s2, k.
  split. { unfold watchLayer_. by rewrite Hg. }
  split; [done|]. split; [done|]. split; [done|]. split; [done|].
  split.
  { unfold unwatchLayer_.
    destruct (attrFrame_attrs _ _ l Hf1) as (-> & _). by rewrite Hg. }
  split.
  { rewrite Hgl2, Hgl1.
    rewrite (delete_take_drop (googleLayers_ s ++ [l])).
    apply elem_of_app. right. rewrite drop_app_le by lia.
    apply elem_of_app. right. left. }
  split.
  { rewrite Hgc2, Hgc1.
    rewrite (delete_take_drop (googleCache_ s ++ [_])).
    apply elem_of_app. right. rewrite drop_app_le by lia.
    apply elem_of_app. right. left. }
  split; [done|].
  intros b Hb. unfold setVisible. rewrite decide_False by done.
  change (listeners (storeVisible l b s2)) with (listeners s2).
  rewrite (filter_none (λ x, lk_target x = l)); [done|].
  intros x Hx. by apply Hnone.
Qed.

Lemma rewatch_shares_listener_witness :
  ∃ s1 s2,
    watchLayer_ 1 exActive = Some s1
    ∧ listeners s1 = listeners exActive
    ∧ googleLayers_ s1 = [1; 2; 1]
    ∧ unwatchLayer_ 1 s1 = Some s2
    ∧ googleLayers_ s2 = [2; 1]
    ∧ (∀ x, x ∈ listeners s2 → lk_target x ≠ 1)
    ∧ setVisible 1 false s2 = Some (storeVisible 1 false s2).
Proof.
  assert (watchesOnce exActiveTrace exInitial = true) as Honce
    by (vm_compute; reflexivity).
  destruct (invariants_of_run _ _ _ _ _ _ Honce exActive_run)
    as (Hwf & Hok & _).
  destruct (rewatch_shares_listener exActive 1 Hwf Hok)
    as (s1 & s2 & k & Hw & _ & HL & Hgl & _ & Hu & _ & _ & Hnone & Hset).
  - change (NoDup [1; 2]). apply NoDup_cons. split.
    + intros H. apply list_elem_of_singleton in H. discriminate H.
    + apply NoDup_singleton.
  - reflexivity.
  - left.
  - exists s1, s2. split; [exact Hw|]. split; [exact HL|].
    split; [exact Hgl|]. split; [exact Hu|].
    assert (googleLayers_ s2 = [2; 1] ∧ getVisible 1 s2 = true) as [H2 Hv].
    { vm_compute in Hw. injection Hw as <-.
      vm_compute in Hu. injection Hu as <-. split; reflexivity. }
    split; [exact H2|]. split; [exact Hnone|].
    apply Hset. rewrite Hv. discriminate.
Defined.
